(** * Resilient kubeconfig manager (kubeconfig_manager.py, common.py)

    A shallow embedding of [KubeconfigManager] and of the part of
    [CommandRunner] it calls.  The file system, the clock and the external
    tools (gcloud, kubectl, the YAML and base64 libraries, SHA-256) are
    explicit: files live in a finite map, every external answer comes from
    an [Env] record, and every Python exception is a [Raise] result of a
    small state-and-error monad. *)

From Stdlib Require Import ZArith Ascii String.
From stdpp Require Import gmap strings list pretty sorting.

Open Scope string_scope.
Open Scope Z_scope.
Open Scope list_scope.

(** ** Data *)

(** A regular file: bytes, permission bits ([st_mode & 0o7777]) and
    modification time in seconds. *)
Record File := mkFile { content : string; mode : Z; mtime : Z }.

(** The physical world the manager and the external tools share. *)
Record World := mkWorld {
  files : gmap string File;   (* path -> file *)
  dirs : gmap string Z;       (* directory path -> mode *)
  now : Z                     (* time.time(), whole seconds *)
}.

(** What [yaml.safe_load] can return, as far as the manager looks at it:
    a mapping (string keys are the only ones it asks for), a sequence, a
    scalar of any kind, or [None] for an empty document. *)
#[local] Unset Elimination Schemes.
Inductive yaml :=
| YNull
| YScalar (s : string)
| YList (items : list yaml)
| YDict (entries : list (string * yaml)).
#[local] Set Elimination Schemes.

(** The three shell commands the manager builds. *)
Inductive Command :=
| GetCredentials (cluster zone project : string)
| GetSecret (hosted_cluster : string)
| ClusterInfo.

Definition command_line (c : Command) : string :=
  match c with
  | GetCredentials cluster zone project =>
      "gcloud container clusters get-credentials " +:+ cluster +:+
      " --zone=" +:+ zone +:+ " --project=" +:+ project
  | GetSecret hosted =>
      "kubectl get secret admin-kubeconfig -n clusters-" +:+ hosted +:+
      " -o jsonpath='{.data.kubeconfig}'"
  | ClusterInfo => "kubectl cluster-info --request-timeout=10s"
  end.

(** How [subprocess.run] ends. *)
Inductive ProcOutcome :=
| Completed (returncode : Z) (stdout stderr : string)
| TimeoutExpired
| SpawnError (msg : string).

(** File-system primitives that can raise [OSError]. *)
Inductive IoOp :=
| OpStat (p : string)
| OpRead (p : string)
| OpMkdir (p : string)
| OpOpenW (p : string)
| OpWrite (p : string)
| OpChmod (p : string)
| OpRename (src dst : string)
| OpUnlink (p : string).

Inductive Level := Info | Warning | Error.

(** What the manager does that an observer can see, oldest first. *)
Inductive Event :=
| EvLog (lvl : Level) (msg : string)
| EvSleep (secs : Z)
| EvRun (cmd : Command) (kubeconfig : string) (ok : bool)
| EvIo (op : IoOp).

#[global] Instance Command_eq_dec : EqDecision Command.
Proof. solve_decision. Defined.
#[global] Instance IoOp_eq_dec : EqDecision IoOp.
Proof. solve_decision. Defined.
#[global] Instance Level_eq_dec : EqDecision Level.
Proof. solve_decision. Defined.
#[global] Instance Event_eq_dec : EqDecision Event.
Proof. solve_decision. Defined.
#[global] Instance File_eq_dec : EqDecision File.
Proof. solve_decision. Defined.

(** [InstallConfig], the fields the manager reads. *)
Record InstallConfig := mkConfig {
  project_id : string;
  zone : string;
  gke_cluster_name : string;
  hosted_cluster_name : string;
  kubeconfig_gke_path : string;
  kubeconfig_hosted_path : string;
  dry_run : bool
}.

Record KubeconfigInfo := mkInfo {
  info_path : string;
  cluster_name : string;
  cluster_type : string;
  created_at : Z;
  checksum : string;
  backup_path : option string
}.

(** The manager's own state next to the world: the events so far and the
    [kubeconfig_info] dictionary. *)
Record State := mkState {
  world : World;
  trace : list Event;
  kubeconfig_info : gmap string KubeconfigInfo
}.

(** ** The environment

    Every answer of the outside is a function of the physical world at the
    moment of the call (files, directories, clock) and of the call's
    arguments. *)
Record Env := mkEnv {
  (* subprocess.run(command, env={KUBECONFIG: path}, timeout=seconds) *)
  subprocess_run : World -> Command -> string -> Z -> ProcOutcome;
  (* what `gcloud ... get-credentials` leaves at $KUBECONFIG: content and
     mode, or nothing *)
  credentials_written : World -> string -> option (string * Z);
  (* does this primitive raise OSError now? *)
  io_error : World -> IoOp -> bool;
  (* yaml.safe_load; None when it raises *)
  safe_load : string -> option yaml;
  (* base64.b64decode(s).decode('utf-8'); None when either raises *)
  b64decode_utf8 : string -> option string;
  (* hashlib.sha256(bytes).hexdigest() *)
  sha256_hex : string -> string;
  (* the process umask *)
  umask : Z
}.

(** ** State and exception monad *)

Inductive Res (A : Type) :=
| Ok (a : A)
| Raise (exn : string).
Arguments Ok {A} a.
Arguments Raise {A} exn.

Definition M (A : Type) : Type := State -> Res A * State.

Definition ret {A} (a : A) : M A := fun s => (Ok a, s).

Definition bind {A B} (m : M A) (k : A -> M B) : M B :=
  fun s => match m s with
           | (Ok a, s') => k a s'
           | (Raise e, s') => (Raise e, s')
           end.

Definition raise {A} (e : string) : M A := fun s => (Raise e, s).

(** [try: m except Exception as e: h e] *)
Definition try_except {A} (m : M A) (h : string -> M A) : M A :=
  fun s => match m s with
           | (Ok a, s') => (Ok a, s')
           | (Raise e, s') => h e s'
           end.

Declare Scope m_scope.
Delimit Scope m_scope with M.
Notation "x <- m ;; k" := (bind m (fun x => k))
  (at level 100, m at next level, right associativity) : m_scope.
Notation "m ;;; k" := (bind m (fun _ => k))
  (at level 100, right associativity) : m_scope.
Open Scope m_scope.

Definition get_world : M World := fun s => (Ok (world s), s).

Definition set_world (w : World) : M unit :=
  fun s => (Ok tt, mkState w (trace s) (kubeconfig_info s)).

Definition emit (e : Event) : M unit :=
  fun s => (Ok tt, mkState (world s) (trace s ++ [e]) (kubeconfig_info s)).

Definition log (lvl : Level) (msg : string) : M unit := emit (EvLog lvl msg).

Definition set_files (fs : gmap string File) (w : World) : World :=
  mkWorld fs (dirs w) (now w).

(** ** Strings and paths *)

(** The ASCII characters [str.strip()] removes. *)
Definition is_space (c : ascii) : bool :=
  let n := nat_of_ascii c in
  ((9 <=? n) && (n <=? 13) || (28 <=? n) && (n <=? 32))%nat.

Fixpoint lstrip (s : string) : string :=
  match s with
  | String c rest => if is_space c then lstrip rest else s
  | EmptyString => EmptyString
  end.

Fixpoint rstrip (s : string) : string :=
  match s with
  | String c rest =>
      match rstrip rest with
      | EmptyString => if is_space c then EmptyString else String c EmptyString
      | r => String c r
      end
  | EmptyString => EmptyString
  end.

Definition strip (s : string) : string := rstrip (lstrip s).

(** [strip_prefix pre s] is what follows [pre] in [s]. *)
Fixpoint strip_prefix (pre s : string) : option string :=
  match pre, s with
  | EmptyString, _ => Some s
  | String a pre', String b s' =>
      if Ascii.eqb a b then strip_prefix pre' s' else None
  | String _ _, EmptyString => None
  end.

Fixpoint has_slash (s : string) : bool :=
  match s with
  | String c rest => Ascii.eqb c "/"%char || has_slash rest
  | EmptyString => false
  end.

(** Splits at the last ['/']. *)
Fixpoint split_last_slash (s : string) : option (string * string) :=
  match s with
  | EmptyString => None
  | String c rest =>
      match split_last_slash rest with
      | Some (d, b) => Some (String c d, b)
      | None => if Ascii.eqb c "/"%char then Some (EmptyString, rest) else None
      end
  end.

(** [Path(p).parent] for a normalised path. *)
Definition parent (p : string) : string :=
  match split_last_slash p with
  | None => "."
  | Some (EmptyString, _) => "/"
  | Some (d, _) => d
  end.

(** [Path(path).parent.glob(f"{Path(path).name}.backup.*")] on one file
    name: the literal prefix, then anything without a separator.  (Names
    are taken free of glob metacharacters.) *)
Definition is_backup_of (path candidate : string) : bool :=
  match strip_prefix (path +:+ ".backup.") candidate with
  | Some rest => negb (has_slash rest)
  | None => false
  end.

Definition glob_backups (w : World) (path : string) : list string :=
  filter (fun p => is_backup_of path p = true) (map fst (map_to_list (files w))).

(** [list.sort(key=..., reverse=True)] on (path, mtime) pairs: a stable
    insertion sort, larger keys first. *)
Fixpoint insert_desc (x : string * Z) (l : list (string * Z)) : list (string * Z) :=
  match l with
  | [] => [x]
  | y :: l' => if (x.2 <? y.2)%Z then y :: insert_desc x l' else x :: l
  end.

Definition sort_desc (l : list (string * Z)) : list (string * Z) :=
  foldr insert_desc [] l.

(** Permission constants (octal in the source). *)
Definition MODE_0077 : Z := 63.
Definition MODE_0600 : Z := 384.
Definition MODE_0700 : Z := 448.
Definition MODE_0666 : Z := 438.

Definition max_retries : nat := 3.
Definition retry_delay : Z := 5.

(** ** File-system and process primitives *)

Section Manager.
Variable env : Env.
Variable cfg : InstallConfig.

(** Raises [OSError] when the environment says this primitive fails now. *)
Definition io_guard (op : IoOp) : M unit :=
  fun s => if io_error env (world s) op then (Raise "OSError", s) else (Ok tt, s).

Definition update_files (f : gmap string File -> gmap string File) : M unit :=
  fun s => (Ok tt, mkState (set_files (f (files (world s))) (world s))
                           (trace s) (kubeconfig_info s)).

(** [Path(p).exists()]: an [os.stat] whose "no such file" is the answer
    [False].  The model takes that [stat] to answer: a path whose directory
    cannot be searched, where [exists()] itself raises, is outside it. *)
Definition path_exists (p : string) : M bool :=
  fun s => (Ok (bool_decide (is_Some (files (world s) !! p))), s).

(** [os.stat(p)] *)
Definition os_stat (p : string) : M File :=
  io_guard (OpStat p) ;;;
  w <- get_world ;;
  match files w !! p with
  | Some f => ret f
  | None => raise "FileNotFoundError"
  end.

(** [open(p).read()] *)
Definition read_file (p : string) : M string :=
  io_guard (OpRead p) ;;;
  w <- get_world ;;
  match files w !! p with
  | Some f => ret (content f)
  | None => raise "FileNotFoundError"
  end.

(** [open(p, 'w')]: creates the file, or truncates it and keeps its mode. *)
Definition open_w (p : string) : M unit :=
  io_guard (OpOpenW p) ;;;
  w <- get_world ;;
  let m := match files w !! p with
           | Some f => mode f
           | None => Z.ldiff MODE_0666 (umask env)
           end in
  update_files (insert p (mkFile "" m (now w))) ;;;
  emit (EvIo (OpOpenW p)).

(** [f.write(data)] and the close that flushes it, on a file just opened. *)
Definition write_file (p data : string) : M unit :=
  io_guard (OpWrite p) ;;;
  w <- get_world ;;
  match files w !! p with
  | Some f => update_files (insert p (mkFile data (mode f) (now w))) ;;;
              emit (EvIo (OpWrite p))
  | None => raise "FileNotFoundError"
  end.

(** [os.chmod(p, m)] *)
Definition os_chmod (p : string) (m : Z) : M unit :=
  io_guard (OpChmod p) ;;;
  w <- get_world ;;
  match files w !! p with
  | Some f => update_files (insert p (mkFile (content f) m (mtime f))) ;;;
              emit (EvIo (OpChmod p))
  | None => raise "FileNotFoundError"
  end.

(** [os.rename(src, dst)]: the file leaves [src] and replaces [dst]. *)
Definition os_rename (src dst : string) : M unit :=
  io_guard (OpRename src dst) ;;;
  w <- get_world ;;
  match files w !! src with
  | Some f => update_files (fun fs => <[dst := f]> (delete src fs)) ;;;
              emit (EvIo (OpRename src dst))
  | None => raise "FileNotFoundError"
  end.

(** [os.unlink(p)] *)
Definition os_unlink (p : string) : M unit :=
  io_guard (OpUnlink p) ;;;
  w <- get_world ;;
  match files w !! p with
  | Some _ => update_files (delete p) ;;; emit (EvIo (OpUnlink p))
  | None => raise "FileNotFoundError"
  end.

(** [d.mkdir(parents=True, exist_ok=True, mode=m)] for a directory [d]
    whose own parent exists: the leaf is then the one directory made, with
    mode [m] less the umask.  (Missing ancestors, which [mkdir] makes with
    the default mode, are outside the model.) *)
Definition mkdir_p (d : string) (m : Z) : M unit :=
  w <- get_world ;;
  match dirs w !! d with
  | Some _ => ret tt
  | None =>
      io_guard (OpMkdir d) ;;;
      set_world (mkWorld (files w) (<[d := Z.ldiff m (umask env)]> (dirs w)) (now w)) ;;;
      emit (EvIo (OpMkdir d))
  end.

(** [time.sleep(secs)] *)
Definition sleep (secs : Z) : M unit :=
  w <- get_world ;;
  set_world (mkWorld (files w) (dirs w) (now w + secs)) ;;;
  emit (EvSleep secs).

(** What the external command leaves on disk: only get-credentials writes,
    at its [$KUBECONFIG]. *)
Definition subprocess_effect (cmd : Command) (kubeconfig : string) (w : World) : World :=
  match cmd with
  | GetCredentials _ _ _ =>
      match credentials_written env w kubeconfig with
      | Some (data, m) => set_files (<[kubeconfig := mkFile data m (now w)]> (files w)) w
      | None => w
      end
  | _ => w
  end.

(** [CommandRunner.run(command, check_output, timeout, env={'KUBECONFIG': k})];
    the runner is built with [dry_run=config.dry_run]. *)
Definition runner_run (cmd : Command) (kubeconfig : string)
    (check_output : bool) (timeout : Z) : M (bool * string) :=
  if dry_run cfg then
    emit (EvRun cmd kubeconfig true) ;;; ret (true, "dry-run-output")
  else
    w <- get_world ;;
    set_world (subprocess_effect cmd kubeconfig w) ;;;
    match subprocess_run env w cmd kubeconfig timeout with
    | Completed rc out err =>
        if rc =? 0 then
          emit (EvRun cmd kubeconfig true) ;;;
          ret (true, if check_output then strip out else "")
        else
          emit (EvRun cmd kubeconfig false) ;;; ret (false, err)
    | TimeoutExpired =>
        emit (EvRun cmd kubeconfig false) ;;; ret (false, "Command timed out")
    | SpawnError msg =>
        emit (EvRun cmd kubeconfig false) ;;; ret (false, msg)
    end.

(** ** KubeconfigManager: validation *)

Definition has_key (key : string) (d : list (string * yaml)) : bool :=
  existsb (fun kv => String.eqb kv.1 key) d.

(** [d[key]]; [None] is [KeyError]. *)
Definition dict_get (key : string) (d : list (string * yaml)) : option yaml :=
  snd <$> List.find (fun kv => String.eqb kv.1 key) d.

(** [isinstance(v, list) and len(v) > 0] *)
Definition nonempty_list (v : yaml) : bool :=
  match v with
  | YList (_ :: _) => true
  | _ => false
  end.

Definition required_keys : list string := ["clusters"; "contexts"; "users"].

(** [all(isinstance(d[key], list) and len(d[key]) > 0 for key in keys)] *)
Fixpoint all_nonempty (keys : list string) (d : list (string * yaml)) : M bool :=
  match keys with
  | [] => ret true
  | key :: keys' =>
      match dict_get key d with
      | None => raise "KeyError"
      | Some v => if nonempty_list v then all_nonempty keys' d else ret false
      end
  end.

Definition yaml_safe_load (data : string) : M yaml :=
  match safe_load env data with
  | Some v => ret v
  | None => raise "YAMLError"
  end.

Definition _validate_kubeconfig_file (path cluster_type : string) : M bool :=
  try_except
    (data <- read_file path ;;
     config_data <- yaml_safe_load data ;;
     match config_data with
     | YDict d =>
         match List.find (fun key => negb (has_key key d)) required_keys with
         | Some key =>
             log Warning ("Kubeconfig " +:+ path +:+ " missing required key: " +:+ key) ;;;
             ret false
         | None =>
             ok <- all_nonempty required_keys d ;;
             if ok then ret true
             else
               log Warning ("Kubeconfig " +:+ path +:+ " has empty required sections") ;;;
               ret false
         end
     | _ =>
         log Warning ("Kubeconfig " +:+ path +:+ " is not a valid YAML object") ;;;
         ret false
     end)
    (fun e =>
       log Warning ("Failed to validate kubeconfig " +:+ path +:+ ": " +:+ e) ;;;
       ret false).

Definition _test_kubeconfig_connectivity (path cluster_type : string) : M bool :=
  r <- runner_run ClusterInfo path false 15 ;;
  if negb r.1 then
    log Warning ("Kubeconfig " +:+ path +:+ " failed connectivity test") ;;;
    ret false
  else ret true.

Definition _is_kubeconfig_valid (path cluster_type : string) : M bool :=
  ex <- path_exists path ;;
  if negb ex then ret false
  else
    try_except
      (stat_info <- os_stat path ;;
       if negb (Z.land (mode stat_info) MODE_0077 =? 0) then
         log Warning ("Kubeconfig " +:+ path +:+ " has overly permissive permissions")
       else ret tt)
      (fun _ => ret tt) ;;;
    ok <- _validate_kubeconfig_file path cluster_type ;;
    if negb ok then ret false
    else _test_kubeconfig_connectivity path cluster_type.

(** ** KubeconfigManager: directory, permissions, backup, checksum *)

Definition _ensure_directory_exists (file_path : string) : M bool :=
  try_except
    (mkdir_p (parent file_path) MODE_0700 ;;; ret true)
    (fun e =>
       log Error ("Failed to create directory for " +:+ file_path +:+ ": " +:+ e) ;;;
       ret false).

Definition _set_secure_permissions (path : string) : M bool :=
  try_except
    (os_chmod path MODE_0600 ;;; ret true)
    (fun e =>
       log Warning ("Failed to set secure permissions on " +:+ path +:+ ": " +:+ e) ;;;
       ret false).

Definition backup_name (path : string) (timestamp : Z) : string :=
  path +:+ ".backup." +:+ pretty timestamp.

Definition _create_backup (path : string) : M (option string) :=
  try_except
    (w <- get_world ;;
     let timestamp := now w in
     let backup_path := backup_name path timestamp in
     data <- read_file path ;;
     open_w backup_path ;;;
     write_file backup_path data ;;;
     original_stat <- os_stat path ;;
     os_chmod backup_path (mode original_stat) ;;;
     ret (Some backup_path))
    (fun e =>
       log Warning ("Failed to create backup of " +:+ path +:+ ": " +:+ e) ;;;
       ret None).

Definition _calculate_file_checksum (path : string) : M string :=
  try_except
    (data <- read_file path ;; ret (sha256_hex env data))
    (fun _ => ret "").

Definition store_info (path name cluster_type sum : string) : M unit :=
  fun s =>
    (Ok tt, mkState (world s) (trace s)
              (<[path := mkInfo path name cluster_type (now (world s)) sum None]>
                 (kubeconfig_info s))).

(** ** KubeconfigManager: recovery *)

(** The key pass of [backup_files.sort(key=lambda x: x.stat().st_mtime)]:
    one [stat] per file, in list order. *)
Fixpoint stat_keys (paths : list string) : M (list (string * Z)) :=
  match paths with
  | [] => ret []
  | p :: rest =>
      st <- os_stat p ;;
      keyed <- stat_keys rest ;;
      ret ((p, mtime st) :: keyed)
  end.

(** The body of [for backup_file in backup_files]. *)
Fixpoint recovery_loop (path cluster_type : string) (backup_files : list string) : M bool :=
  match backup_files with
  | [] =>
      log Error ("Recovery failed for " +:+ cluster_type +:+ " kubeconfig") ;;;
      ret false
  | backup_file :: rest =>
      log Info ("Trying backup: " +:+ backup_file) ;;;
      valid <- _is_kubeconfig_valid backup_file cluster_type ;;
      if valid then
        try_except
          (os_rename backup_file path ;;;
           log Info ("Recovered from backup: " +:+ backup_file) ;;;
           ret true)
          (fun e =>
             log Warning ("Failed to restore from backup " +:+ backup_file +:+ ": " +:+ e) ;;;
             recovery_loop path cluster_type rest)
      else recovery_loop path cluster_type rest
  end.

Definition recovery_message (cluster_type : string) : string :=
  "Attempting recovery for " +:+ cluster_type +:+ " kubeconfig...".

Definition _attempt_recovery (path cluster_type : string) : M bool :=
  log Warning (recovery_message cluster_type) ;;;
  w <- get_world ;;
  keyed <- stat_keys (glob_backups w path) ;;
  recovery_loop path cluster_type (map fst (sort_desc keyed)).

(** ** KubeconfigManager: the two acquisitions *)

(** [for attempt in range(1, max_retries + 1): body] followed by [after];
    a body answers [Some b] for [return b] and [None] to go on. *)
Fixpoint for_attempts (body : nat -> M (option bool)) (attempts : list nat)
    (after : M bool) : M bool :=
  match attempts with
  | [] => after
  | attempt :: rest =>
      r <- body attempt ;;
      match r with
      | Some b => ret b
      | None => for_attempts body rest after
      end
  end.

Definition attempt_label (attempt : nat) : string :=
  "Attempt " +:+ pretty attempt +:+ "/" +:+ pretty max_retries.

(** [if attempt < self.max_retries: time.sleep(self.retry_delay); continue] *)
Definition sleep_if_more (attempt : nat) : M (option bool) :=
  if (attempt <? max_retries)%nat then sleep retry_delay ;;; ret None
  else ret None.

Definition gke_command : Command :=
  GetCredentials (gke_cluster_name cfg) (zone cfg) (project_id cfg).

Definition gke_attempt (kubeconfig_path : string) (attempt : nat) : M (option bool) :=
  try_except
    (log Info (attempt_label attempt +:+ ": Getting GKE credentials...") ;;;
     r <- runner_run gke_command kubeconfig_path false 120 ;;
     if negb r.1 then
       log Warning ("Attempt " +:+ pretty attempt +:+ " failed: " +:+ r.2) ;;;
       if (attempt <? max_retries)%nat then
         log Info "Retrying in 5 seconds..." ;;;
         sleep retry_delay ;;;
         ret None
       else
         log Error "All retry attempts failed" ;;;
         b <- _attempt_recovery kubeconfig_path "gke" ;;
         ret (Some b)
     else
       valid <- _validate_kubeconfig_file kubeconfig_path "gke" ;;
       if valid then
         _set_secure_permissions kubeconfig_path ;;;
         sum <- _calculate_file_checksum kubeconfig_path ;;
         store_info kubeconfig_path (gke_cluster_name cfg) "gke" sum ;;;
         log Info "GKE kubeconfig created and validated successfully" ;;;
         ret (Some true)
       else
         log Warning ("Kubeconfig validation failed on attempt " +:+ pretty attempt) ;;;
         sleep_if_more attempt)
    (fun e =>
       log Error ("Exception during attempt " +:+ pretty attempt +:+ ": " +:+ e) ;;;
       sleep_if_more attempt).

(** Lines 63-124: what follows the fast-path test. *)
Definition acquire_gke (kubeconfig_path : string) : M bool :=
  dir_ok <- _ensure_directory_exists kubeconfig_path ;;
  if negb dir_ok then ret false
  else
    ex <- path_exists kubeconfig_path ;;
    (if ex then
       backup <- _create_backup kubeconfig_path ;;
       log Info ("Backed up existing kubeconfig to " +:+ default "None" backup)
     else ret tt) ;;;
    for_attempts (gke_attempt kubeconfig_path) (seq 1 max_retries)
      (_attempt_recovery kubeconfig_path "gke").

Definition create_gke_kubeconfig (force_recreate : bool) : M bool :=
  log Info "Creating resilient GKE kubeconfig..." ;;;
  let kubeconfig_path := kubeconfig_gke_path cfg in
  valid <- (if negb force_recreate then _is_kubeconfig_valid kubeconfig_path "gke"
            else ret false) ;;
  if valid then
    log Info "Valid GKE kubeconfig already exists" ;;;
    ret true
  else acquire_gke kubeconfig_path.

Definition hosted_command : Command := GetSecret (hosted_cluster_name cfg).

(** Lines 183-188: decode the secret and look at the document. *)
Definition decode_kubeconfig (kubeconfig_b64 : string) : M string :=
  match b64decode_utf8 env kubeconfig_b64 with
  | None => raise "binascii.Error"
  | Some kubeconfig_data =>
      config_obj <- yaml_safe_load kubeconfig_data ;;
      match config_obj with
      | YDict d =>
          if has_key "clusters" d then ret kubeconfig_data
          else raise "Invalid kubeconfig structure"
      | _ => raise "Invalid kubeconfig structure"
      end
  end.

(** Lines 199-216: temporary file, chmod, rename.  [Some tt] when the block
    is left normally, [None] for its [continue]. *)
Definition save_kubeconfig (kubeconfig_path kubeconfig_data : string) : M (option unit) :=
  if negb (dry_run cfg) then
    let temp_path := kubeconfig_path +:+ ".tmp" in
    try_except
      (open_w temp_path ;;;
       write_file temp_path kubeconfig_data ;;;
       os_chmod temp_path MODE_0600 ;;;
       os_rename temp_path kubeconfig_path ;;;
       ret (Some tt))
      (fun e =>
         log Error ("Failed to write kubeconfig: " +:+ e) ;;;
         ex <- path_exists temp_path ;;
         (if ex then os_unlink temp_path else ret tt) ;;;
         ret None)
  else ret (Some tt).

Definition hosted_attempt (kubeconfig_path : string) (attempt : nat) : M (option bool) :=
  try_except
    (log Info (attempt_label attempt +:+ ": Extracting hosted cluster credentials...") ;;;
     r <- runner_run hosted_command (kubeconfig_gke_path cfg) true 60 ;;
     if negb r.1 || String.eqb (strip r.2) "" then
       log Warning ("Attempt " +:+ pretty attempt +:+ " failed: Could not retrieve secret") ;;;
       if (attempt <? max_retries)%nat then
         log Info "Retrying in 5 seconds..." ;;;
         sleep retry_delay ;;;
         ret None
       else
         log Error "All retry attempts failed" ;;;
         b <- _attempt_recovery kubeconfig_path "hosted" ;;
         ret (Some b)
     else
       decoded <- try_except
           (kubeconfig_data <- decode_kubeconfig r.2 ;; ret (inl kubeconfig_data))
           (fun e =>
              log Warning ("Attempt " +:+ pretty attempt +:+
                           " failed: Invalid kubeconfig data: " +:+ e) ;;;
              if (attempt <? max_retries)%nat then
                sleep retry_delay ;;; ret (inr None)
              else
                b <- _attempt_recovery kubeconfig_path "hosted" ;;
                ret (inr (Some b))) ;;
       match decoded with
       | inr ctl => ret ctl
       | inl kubeconfig_data =>
           saved <- save_kubeconfig kubeconfig_path kubeconfig_data ;;
           match saved with
           | None => ret None
           | Some _ =>
               valid <- _validate_kubeconfig_file kubeconfig_path "hosted" ;;
               if valid then
                 sum <- _calculate_file_checksum kubeconfig_path ;;
                 store_info kubeconfig_path (hosted_cluster_name cfg) "hosted" sum ;;;
                 log Info "Hosted kubeconfig created and validated successfully" ;;;
                 ret (Some true)
               else
                 log Warning ("Kubeconfig validation failed on attempt " +:+ pretty attempt) ;;;
                 sleep_if_more attempt
           end
       end)
    (fun e =>
       log Error ("Exception during attempt " +:+ pretty attempt +:+ ": " +:+ e) ;;;
       sleep_if_more attempt).

(** Lines 145-244: what follows the fast-path test. *)
Definition acquire_hosted (kubeconfig_path : string) : M bool :=
  dir_ok <- _ensure_directory_exists kubeconfig_path ;;
  if negb dir_ok then ret false
  else
    ex <- path_exists kubeconfig_path ;;
    (if ex then
       backup <- _create_backup kubeconfig_path ;;
       log Info ("Backed up existing kubeconfig to " +:+ default "None" backup)
     else ret tt) ;;;
    for_attempts (hosted_attempt kubeconfig_path) (seq 1 max_retries)
      (_attempt_recovery kubeconfig_path "hosted").

Definition create_hosted_kubeconfig (force_recreate : bool) : M bool :=
  log Info "Creating resilient hosted cluster kubeconfig..." ;;;
  let kubeconfig_path := kubeconfig_hosted_path cfg in
  valid <- (if negb force_recreate then _is_kubeconfig_valid kubeconfig_path "hosted"
            else ret false) ;;
  if valid then
    log Info "Valid hosted kubeconfig already exists" ;;;
    ret true
  else acquire_hosted kubeconfig_path.

Definition refresh_kubeconfigs : M bool :=
  log Info "Refreshing all kubeconfig files..." ;;;
  gke_success <- create_gke_kubeconfig true ;;
  if negb gke_success then
    log Error "Failed to refresh GKE kubeconfig" ;;;
    ret false
  else
    hosted_success <- create_hosted_kubeconfig true ;;
    if negb hosted_success then
      log Error "Failed to refresh hosted kubeconfig" ;;;
      ret false
    else
      log Info "All kubeconfig files refreshed successfully" ;;;
      ret true.

End Manager.

(** * Facts about the pure helpers *)

Lemma insert_desc_perm x l : insert_desc x l ≡ₚ x :: l.
Proof.
  induction l as [|y l IH]; cbn; [done|].
  destruct (x.2 <? y.2); [|done].
  rewrite IH. apply Permutation_swap.
Qed.

Lemma sort_desc_perm l : sort_desc l ≡ₚ l.
Proof.
  induction l as [|x l IH]; cbn; [done|].
  rewrite insert_desc_perm. by constructor.
Qed.




Lemma glob_backups_spec w path p :
  p ∈ glob_backups w path <-> is_Some (files w !! p) /\ is_backup_of path p = true.
Proof.
  unfold glob_backups. rewrite list_elem_of_filter, list_elem_of_fmap. split.
  - intros [Hb ([k f] & -> & Hin)]. apply elem_of_map_to_list in Hin. cbn. eauto.
  - intros [[f Hf] Hb]. split; [done|]. exists (p, f). split; [done|].
    by apply elem_of_map_to_list.
Qed.


Lemma strip_prefix_app pre s rest :
  strip_prefix pre s = Some rest -> s = pre +:+ rest.
Proof.
  revert s. induction pre as [|a pre' IH]; intros s; cbn.
  { intros [= ->]. reflexivity. }
  destruct s as [|b s]; [done|].
  destruct (Ascii.eqb_spec a b) as [Hab|]; [|done].
  intros H. apply IH in H. rewrite H, Hab. reflexivity.
Qed.

Lemma strip_prefix_same pre rest : strip_prefix pre (pre +:+ rest) = Some rest.
Proof.
  induction pre as [|a pre' IH]; [by destruct rest|].
  change (String a pre' +:+ rest) with (String a (pre' +:+ rest)). cbn.
  by rewrite Ascii.eqb_refl.
Qed.

(** * Reasoning about runs *)

(** ** What a run shows: attempts, sleeps, entry into recovery *)

Inductive Step := Attempt | Sleep (secs : Z).

#[global] Instance Step_eq_dec : EqDecision Step.
Proof. solve_decision. Defined.

(** An attempt is a call of the acquisition command of either role. *)
Definition step_of (e : Event) : option Step :=
  match e with
  | EvRun (GetCredentials _ _ _) _ _ => Some Attempt
  | EvRun (GetSecret _) _ _ => Some Attempt
  | EvSleep n => Some (Sleep n)
  | _ => None
  end.

Definition steps (evs : list Event) : list Step := omap step_of evs.

Definition starts_with (pre s : string) : bool :=
  match strip_prefix pre s with
  | Some _ => true
  | None => false
  end.

(** The first thing [_attempt_recovery] does. *)
Definition recovery_entry (e : Event) : bool :=
  match e with
  | EvLog Warning msg => starts_with "Attempting recovery for " msg
  | _ => false
  end.

(** The line that announces a backup candidate names it. *)
Definition tried_backup (e : Event) : option string :=
  match e with
  | EvLog Info msg => strip_prefix "Trying backup: " msg
  | _ => None
  end.

Definition tried (evs : list Event) : list string := omap tried_backup evs.

(** An event that is neither an attempt, nor a sleep, nor the entry into
    recovery, nor the announcement of a candidate. *)
Definition calm (e : Event) : bool :=
  match step_of e, tried_backup e with
  | None, None => negb (recovery_entry e)
  | _, _ => false
  end.

Definition add_events (evs : list Event) (s : State) : State :=
  mkState (world s) (trace s ++ evs) (kubeconfig_info s).

Lemma steps_app evs1 evs2 : steps (evs1 ++ evs2) = steps evs1 ++ steps evs2.
Proof. unfold steps. apply omap_app. Qed.

Lemma steps_calm evs : Forall (fun e => calm e = true) evs -> steps evs = [].
Proof.
  induction 1 as [|e evs He _ IH]; [done|].
  unfold steps in *. cbn. unfold calm in He.
  destruct (step_of e); [done|]. exact IH.
Qed.

Lemma tried_app evs1 evs2 : tried (evs1 ++ evs2) = tried evs1 ++ tried evs2.
Proof. unfold tried. apply omap_app. Qed.

Lemma tried_calm evs : Forall (fun e => calm e = true) evs -> tried evs = [].
Proof.
  induction 1 as [|e evs He _ IH]; [done|].
  unfold tried in *. cbn. unfold calm in He.
  destruct (step_of e); [done|]. destruct (tried_backup e); [done|]. exact IH.
Qed.

Lemma calm_not_entry evs e :
  Forall (fun e => calm e = true) evs -> recovery_entry e = true -> e ∉ evs.
Proof.
  intros Hall He Hin. rewrite Forall_forall in Hall.
  specialize (Hall _ Hin). unfold calm in Hall.
  destruct (step_of e); [done|]. destruct (tried_backup e); [done|].
  by rewrite He in Hall.
Qed.

(** ** What [os.stat] and the key pass return *)

Lemma os_stat_run env p s :
  os_stat env p s =
    if io_error env (world s) (OpStat p) then (Raise "OSError", s)
    else match files (world s) !! p with
         | Some f => (Ok f, s)
         | None => (Raise "FileNotFoundError", s)
         end.
Proof.
  unfold os_stat, bind, io_guard, get_world.
  destruct (io_error env (world s) (OpStat p)); [done|].
  by destruct (files (world s) !! p).
Qed.

Lemma stat_keys_run env paths s r s' :
  stat_keys env paths s = (r, s') ->
  s' = s /\
  forall keyed, r = Ok keyed ->
    map fst keyed = paths /\
    Forall (fun kv => mtime <$> files (world s) !! kv.1 = Some kv.2) keyed.
Proof.
  revert r s'. induction paths as [|p paths IH]; intros r s'; cbn.
  { intros [= <- <-]. split; [done|]. intros keyed [= <-]. by split. }
  unfold bind at 1. rewrite os_stat_run.
  destruct (io_error env (world s) (OpStat p)).
  { intros [= <- <-]. by split. }
  destruct (files (world s) !! p) as [f|] eqn:Ef.
  2:{ intros [= <- <-]. by split. }
  unfold bind at 1.
  destruct (stat_keys env paths s) as [[keyed|e] s1] eqn:Erest.
  - destruct (IH _ _ eq_refl) as [-> Hk]. destruct (Hk _ eq_refl) as [Hfst Hall].
    intros [= <- <-]. split; [done|]. intros keyed' [= <-]. cbn. split.
    + by rewrite Hfst.
    + constructor; [by cbn; rewrite Ef | done].
  - destruct (IH _ _ eq_refl) as [-> _]. intros [= <- <-]. by split.
Qed.

Lemma stat_keys_ok env paths s :
  (forall p, p ∈ paths ->
     io_error env (world s) (OpStat p) = false /\ is_Some (files (world s) !! p)) ->
  exists keyed, stat_keys env paths s = (Ok keyed, s).
Proof.
  induction paths as [|p paths IH]; intros Hok; cbn.
  { by eexists. }
  destruct (Hok p) as [Hio [f Hf]]; [by left|].
  destruct IH as [keyed Hk]. { intros q Hq. apply Hok. by right. }
  unfold bind at 1. rewrite os_stat_run, Hio, Hf.
  unfold bind at 1. rewrite Hk. by eexists.
Qed.

(** ** A frame rule for the monad

    [P_world] bounds how the world may change, [P_ev] which events may be
    added; a computation [keeps] them when every run stays within both. *)
Section Frame.
Variable env : Env.
Variable cfg : InstallConfig.
Variable P_ev : Event -> Prop.
Variable P_world : World -> World -> Prop.
Variable may_write may_delete : string -> Prop.
Variable may_meta : Prop.
Hypothesis P_world_pre : PreOrder P_world.
Hypothesis P_ev_calm : forall e, calm e = true -> P_ev e.
Hypothesis H_write : forall p, may_write p ->
  forall w f, P_world w (set_files (<[p := f]> (files w)) w).
Hypothesis H_delete : forall p, may_delete p ->
  forall w, P_world w (set_files (delete p (files w)) w).
Hypothesis H_meta : may_meta ->
  forall w d t, P_world w (mkWorld (files w) d t).

Definition within (s s' : State) : Prop :=
  P_world (world s) (world s') /\
  exists evs, trace s' = trace s ++ evs /\ Forall P_ev evs.

Definition keeps {A} (m : M A) : Prop :=
  forall s r s', m s = (r, s') -> within s s'.

Lemma within_refl s : within s s.
Proof.
  split; [reflexivity|]. exists []. by rewrite app_nil_r.
Qed.

Lemma within_trans s1 s2 s3 : within s1 s2 -> within s2 s3 -> within s1 s3.
Proof.
  intros [Hw1 (e1 & Ht1 & Hf1)] [Hw2 (e2 & Ht2 & Hf2)]. split.
  - by transitivity (world s2).
  - exists (e1 ++ e2). rewrite Ht2, Ht1, app_assoc. split; [done|].
    by apply Forall_app.
Qed.

Lemma keeps_ret {A} (a : A) : keeps (ret a).
Proof. intros s r s' [= <- <-]. apply within_refl. Qed.

Lemma keeps_raise {A} e : keeps (@raise A e).
Proof. intros s r s' [= <- <-]. apply within_refl. Qed.

Lemma keeps_bind {A B} (m : M A) (k : A -> M B) :
  keeps m -> (forall a, keeps (k a)) -> keeps (bind m k).
Proof.
  intros Hm Hk s r s' Hrun. unfold bind in Hrun.
  destruct (m s) as [[a|e] s1] eqn:Em.
  - eapply within_trans; [by eapply Hm | by eapply Hk].
  - injection Hrun as <- <-. by eapply Hm.
Qed.

Lemma keeps_try {A} (m : M A) (h : string -> M A) :
  keeps m -> (forall e, keeps (h e)) -> keeps (try_except m h).
Proof.
  intros Hm Hh s r s' Hrun. unfold try_except in Hrun.
  destruct (m s) as [[a|e] s1] eqn:Em.
  - injection Hrun as <- <-. by eapply Hm.
  - eapply within_trans; [by eapply Hm | by eapply Hh].
Qed.

Lemma keeps_emit e : P_ev e -> keeps (emit e).
Proof.
  intros He s r s' [= <- <-]. split; [reflexivity|].
  exists [e]. split; [done|]. by constructor.
Qed.

Lemma keeps_log lvl msg : P_ev (EvLog lvl msg) -> keeps (log lvl msg).
Proof. apply keeps_emit. Qed.

Lemma keeps_get_world : keeps get_world.
Proof. intros s r s' [= <- <-]. apply within_refl. Qed.

Lemma keeps_set_same (w : World) :
  forall s r s', set_world w s = (r, s') -> P_world (world s) w -> within s s'.
Proof.
  intros s r s' [= <- <-] Hw. split; [done|]. exists []. by rewrite app_nil_r.
Qed.

Lemma P_world_files w fs1 fs2 :
  P_world w (set_files fs1 w) ->
  P_world (set_files fs1 w) (set_files fs2 (set_files fs1 w)) ->
  P_world w (set_files fs2 w).
Proof. intros H1 H2. by etransitivity. Qed.

Ltac calm_event := apply P_ev_calm; reflexivity.

Ltac run_step Hrun :=
  match type of Hrun with
  | (if ?c then _ else _) = _ => destruct c eqn:?
  | match ?x with _ => _ end = _ => destruct x eqn:?
  end.

Lemma keeps_io_guard op : keeps (io_guard env op).
Proof.
  intros s r s' Hrun. unfold io_guard in Hrun.
  destruct (io_error env (world s) op); injection Hrun as <- <-; apply within_refl.
Qed.

Lemma keeps_path_exists p : keeps (path_exists p).
Proof. intros s r s' [= <- <-]. apply within_refl. Qed.

Lemma keeps_update_files f :
  (forall w, P_world w (set_files (f (files w)) w)) -> keeps (update_files f).
Proof.
  intros Hf s r s' [= <- <-]. split; [apply Hf|]. exists []. by rewrite app_nil_r.
Qed.

Lemma keeps_set_world w' :
  (forall w, P_world w w') -> keeps (set_world w').
Proof.
  intros Hw s r s' [= <- <-]. split; [apply Hw|]. exists []. by rewrite app_nil_r.
Qed.

Lemma keeps_os_stat p : keeps (os_stat env p).
Proof.
  unfold os_stat. apply keeps_bind; [apply keeps_io_guard | intros _].
  apply keeps_bind; [apply keeps_get_world | intros w].
  destruct (files w !! p); [apply keeps_ret | apply keeps_raise].
Qed.

Lemma keeps_read_file p : keeps (read_file env p).
Proof.
  unfold read_file. apply keeps_bind; [apply keeps_io_guard | intros _].
  apply keeps_bind; [apply keeps_get_world | intros w].
  destruct (files w !! p); [apply keeps_ret | apply keeps_raise].
Qed.

Lemma keeps_open_w p : may_write p -> keeps (open_w env p).
Proof.
  intros Hp. unfold open_w. apply keeps_bind; [apply keeps_io_guard | intros _].
  apply keeps_bind; [apply keeps_get_world | intros w].
  apply keeps_bind; [| intros _; apply keeps_emit; calm_event].
  apply keeps_update_files. intros w0. by apply H_write.
Qed.

Lemma keeps_write_file p data : may_write p -> keeps (write_file env p data).
Proof.
  intros Hp. unfold write_file. apply keeps_bind; [apply keeps_io_guard | intros _].
  apply keeps_bind; [apply keeps_get_world | intros w].
  destruct (files w !! p); [| apply keeps_raise].
  apply keeps_bind; [| intros _; apply keeps_emit; calm_event].
  apply keeps_update_files. intros w0. by apply H_write.
Qed.

Lemma keeps_os_chmod p m : may_write p -> keeps (os_chmod env p m).
Proof.
  intros Hp. unfold os_chmod. apply keeps_bind; [apply keeps_io_guard | intros _].
  apply keeps_bind; [apply keeps_get_world | intros w].
  destruct (files w !! p); [| apply keeps_raise].
  apply keeps_bind; [| intros _; apply keeps_emit; calm_event].
  apply keeps_update_files. intros w0. by apply H_write.
Qed.

Lemma keeps_os_rename src dst :
  may_delete src -> may_write dst -> keeps (os_rename env src dst).
Proof.
  intros Hs Hd. unfold os_rename. apply keeps_bind; [apply keeps_io_guard | intros _].
  apply keeps_bind; [apply keeps_get_world | intros w].
  destruct (files w !! src) as [f|]; [| apply keeps_raise].
  apply keeps_bind; [| intros _; apply keeps_emit; calm_event].
  apply keeps_update_files. intros w0.
  eapply (P_world_files w0 (delete src (files w0))).
  - by apply H_delete.
  - by apply H_write.
Qed.

Lemma keeps_os_unlink p : may_delete p -> keeps (os_unlink env p).
Proof.
  intros Hp. unfold os_unlink. apply keeps_bind; [apply keeps_io_guard | intros _].
  apply keeps_bind; [apply keeps_get_world | intros w].
  destruct (files w !! p); [| apply keeps_raise].
  apply keeps_bind; [| intros _; apply keeps_emit; calm_event].
  apply keeps_update_files. intros w0. by apply H_delete.
Qed.

Lemma within_step s w' evs :
  P_world (world s) w' -> Forall P_ev evs ->
  within s (mkState w' (trace s ++ evs) (kubeconfig_info s)).
Proof. intros Hw Hevs. split; [done|]. by exists evs. Qed.

Lemma keeps_mkdir_p d m : may_meta -> keeps (mkdir_p env d m).
Proof.
  intros Hm s r s' Hrun.
  unfold mkdir_p, bind, get_world, io_guard, set_world, emit, ret in Hrun.
  cbn in Hrun. destruct (dirs (world s) !! d).
  { injection Hrun as <- <-. apply within_refl. }
  destruct (io_error env (world s) (OpMkdir d)); injection Hrun as <- <-.
  { apply within_refl. }
  apply within_step; [by apply H_meta|].
  constructor; [calm_event | constructor].
Qed.

Lemma keeps_sleep secs : may_meta -> P_ev (EvSleep secs) -> keeps (sleep secs).
Proof.
  intros Hm He s r s' Hrun.
  unfold sleep, bind, get_world, set_world, emit in Hrun. cbn in Hrun.
  injection Hrun as <- <-.
  apply within_step; [by apply H_meta | by repeat constructor].
Qed.

Lemma P_world_effect cmd k w :
  match cmd with GetCredentials _ _ _ => may_write k | _ => True end ->
  P_world w (subprocess_effect env cmd k w).
Proof.
  intros Hk. destruct cmd; cbn; try reflexivity.
  destruct (credentials_written env w k) as [[data m]|]; [|reflexivity].
  by apply H_write.
Qed.

Lemma keeps_runner_run cmd k check_output timeout :
  (forall ok, P_ev (EvRun cmd k ok)) ->
  match cmd with GetCredentials _ _ _ => may_write k | _ => True end ->
  keeps (runner_run env cfg cmd k check_output timeout).
Proof.
  intros He Hk s r s' Hrun. unfold runner_run in Hrun.
  destruct (dry_run cfg).
  { cbn in Hrun. injection Hrun as <- <-.
    apply within_step; [reflexivity | by repeat constructor]. }
  unfold bind, get_world, set_world, emit, ret in Hrun. cbn in Hrun.
  pose proof (P_world_effect cmd k (world s) Hk) as Hw.
  destruct (subprocess_run env (world s) cmd k timeout) as [rc out err| |msg];
    [destruct (rc =? 0)|..]; injection Hrun as <- <-;
    (apply within_step; [done | by repeat constructor]).
Qed.

Lemma keeps_store_info path name ct sum : keeps (store_info path name ct sum).
Proof.
  intros s r s' [= <- <-]. split; [reflexivity|]. exists []. by rewrite app_nil_r.
Qed.

(** Structural decomposition of a computation into the rules above. *)
Ltac event_ok := first [calm_event | solve [auto]].

Ltac keeps_auto :=
  repeat first
    [ solve [auto]
    | apply keeps_ret | apply keeps_raise | apply keeps_get_world
    | apply keeps_io_guard | apply keeps_path_exists
    | apply keeps_os_stat | apply keeps_read_file | apply keeps_store_info
    | (apply keeps_log; event_ok)
    | (apply keeps_emit; event_ok)
    | (apply keeps_runner_run; [intros; event_ok | first [exact I | assumption]])
    | (apply keeps_sleep; [assumption | event_ok])
    | apply keeps_bind; [|intros]
    | apply keeps_try; [|intros]
    | match goal with
      | |- keeps (if ?c then _ else _) => destruct c
      | |- keeps (match ?x with _ => _ end) => destruct x
      end ].

Lemma keeps_all_nonempty keys d : keeps (all_nonempty keys d).
Proof. induction keys as [|key keys IH]; cbn; keeps_auto. Qed.

Lemma keeps_yaml_safe_load data : keeps (yaml_safe_load env data).
Proof. unfold yaml_safe_load. keeps_auto. Qed.

Lemma keeps_validate path ct : keeps (_validate_kubeconfig_file env path ct).
Proof.
  unfold _validate_kubeconfig_file.
  pose proof keeps_all_nonempty. pose proof keeps_yaml_safe_load.
  keeps_auto.
Qed.

Lemma keeps_connectivity path ct :
  keeps (_test_kubeconfig_connectivity env cfg path ct).
Proof. unfold _test_kubeconfig_connectivity. keeps_auto. Qed.

Lemma keeps_is_valid path ct : keeps (_is_kubeconfig_valid env cfg path ct).
Proof.
  unfold _is_kubeconfig_valid.
  pose proof keeps_validate. pose proof keeps_connectivity.
  keeps_auto.
Qed.

Lemma keeps_checksum path : keeps (_calculate_file_checksum env path).
Proof. unfold _calculate_file_checksum. keeps_auto. Qed.

Lemma keeps_ensure_directory path :
  may_meta -> keeps (_ensure_directory_exists env path).
Proof.
  intros Hm. unfold _ensure_directory_exists.
  pose proof (keeps_mkdir_p (parent path) MODE_0700 Hm). keeps_auto.
Qed.

Lemma keeps_set_secure_permissions path :
  may_write path -> keeps (_set_secure_permissions env path).
Proof.
  intros Hp. unfold _set_secure_permissions.
  pose proof (keeps_os_chmod path MODE_0600 Hp). keeps_auto.
Qed.

Lemma keeps_create_backup path :
  (forall ts, may_write (backup_name path ts)) -> keeps (_create_backup env path).
Proof.
  intros Hp. unfold _create_backup.
  apply keeps_try; [|intros; keeps_auto].
  apply keeps_bind; [apply keeps_get_world | intros w].
  pose proof (keeps_open_w _ (Hp (now w))).
  pose proof (fun data => keeps_write_file _ data (Hp (now w))).
  pose proof (fun m => keeps_os_chmod _ m (Hp (now w))).
  keeps_auto.
Qed.

Lemma keeps_stat_keys paths : keeps (stat_keys env paths).
Proof. induction paths as [|p paths IH]; cbn; keeps_auto. Qed.

Lemma keeps_recovery_loop path ct backup_files :
  (forall b, P_ev (EvLog Info ("Trying backup: " +:+ b))) ->
  may_write path -> (forall b, b ∈ backup_files -> may_delete b) ->
  keeps (recovery_loop env cfg path ct backup_files).
Proof.
  intros Htry Hp. induction backup_files as [|b rest IH]; intros Hd; cbn.
  { keeps_auto. }
  pose proof (keeps_is_valid b ct).
  assert (keeps (recovery_loop env cfg path ct rest)) as Hrest.
  { apply IH. intros b' Hb'. apply Hd. by right. }
  assert (keeps (os_rename env b path)) as Hren.
  { apply keeps_os_rename; [apply Hd; by left | done]. }
  keeps_auto.
Qed.

Lemma keeps_bind_ok {A B} (m : M A) (k : A -> M B) :
  keeps m -> (forall a s s1, m s = (Ok a, s1) -> keeps (k a)) -> keeps (bind m k).
Proof.
  intros Hm Hk s r s' Hrun. unfold bind in Hrun.
  destruct (m s) as [[a|e] s1] eqn:Em.
  - eapply within_trans; [by eapply Hm | by eapply Hk].
  - injection Hrun as <- <-. by eapply Hm.
Qed.

(** [_attempt_recovery] after its opening line. *)
Definition recovery_rest (path ct : string) : M bool :=
  w <- get_world ;;
  keyed <- stat_keys env (glob_backups w path) ;;
  recovery_loop env cfg path ct (map fst (sort_desc keyed)).

Lemma keeps_recovery_rest path ct :
  (forall b, P_ev (EvLog Info ("Trying backup: " +:+ b))) ->
  may_write path -> (forall b, is_backup_of path b = true -> may_delete b) ->
  keeps (recovery_rest path ct).
Proof.
  intros Htry Hp Hd. unfold recovery_rest.
  apply keeps_bind; [apply keeps_get_world | intros w].
  apply keeps_bind_ok; [apply keeps_stat_keys | intros keyed s s1 Hk].
  apply keeps_recovery_loop; [done..|]. intros b Hb. apply Hd.
  apply stat_keys_run in Hk as [_ Hk]. destruct (Hk _ eq_refl) as [Hfst _].
  assert (b ∈ glob_backups w path) as Hin.
  { rewrite <- Hfst.
    by rewrite <- (Permutation_map fst (sort_desc_perm keyed)). }
  by apply glob_backups_spec in Hin as [_ ?].
Qed.

Lemma keeps_attempt_recovery path ct :
  P_ev (EvLog Warning (recovery_message ct)) ->
  (forall b, P_ev (EvLog Info ("Trying backup: " +:+ b))) ->
  may_write path -> (forall b, is_backup_of path b = true -> may_delete b) ->
  keeps (_attempt_recovery env cfg path ct).
Proof.
  intros Hentry Htry Hp Hd.
  change (_attempt_recovery env cfg path ct)
    with (bind (log Warning (recovery_message ct)) (fun _ => recovery_rest path ct)).
  apply keeps_bind; [by apply keeps_log | intros _].
  by apply keeps_recovery_rest.
Qed.

(** The acquisitions, when log lines, sleeps and the acquisition commands
    may be added. *)
Section Flow.
Variable path : string.
Hypothesis P_ev_log : forall lvl msg, P_ev (EvLog lvl msg).
Hypothesis P_ev_sleep : forall secs, P_ev (EvSleep secs).
Hypothesis P_ev_gke : forall ok, P_ev (EvRun (gke_command cfg) path ok).
Hypothesis P_ev_hosted :
  forall ok, P_ev (EvRun (hosted_command cfg) (kubeconfig_gke_path cfg) ok).
Hypothesis Hmeta : may_meta.
Hypothesis Hw_path : may_write path.
Hypothesis Hd_backup : forall b, is_backup_of path b = true -> may_delete b.

Lemma keeps_sleep_if_more attempt : keeps (sleep_if_more attempt).
Proof. unfold sleep_if_more. keeps_auto. Qed.

Lemma keeps_for_attempts body attempts after :
  (forall a, keeps (body a)) -> keeps after ->
  keeps (for_attempts body attempts after).
Proof.
  intros Hbody Hafter. induction attempts as [|a rest IH]; cbn; keeps_auto.
Qed.

Lemma keeps_recovery ct : keeps (_attempt_recovery env cfg path ct).
Proof. apply keeps_attempt_recovery; auto. Qed.

Lemma keeps_gke_attempt attempt : keeps (gke_attempt env cfg path attempt).
Proof.
  unfold gke_attempt.
  pose proof keeps_sleep_if_more. pose proof keeps_recovery.
  pose proof keeps_validate. pose proof keeps_checksum.
  pose proof (keeps_set_secure_permissions path Hw_path).
  keeps_auto.
Qed.

Lemma keeps_gke_loop :
  keeps (for_attempts (gke_attempt env cfg path) (seq 1 max_retries)
           (_attempt_recovery env cfg path "gke")).
Proof.
  apply keeps_for_attempts; [apply keeps_gke_attempt | apply keeps_recovery].
Qed.

Lemma keeps_decode_kubeconfig b64 : keeps (decode_kubeconfig env b64).
Proof. unfold decode_kubeconfig. pose proof keeps_yaml_safe_load. keeps_auto. Qed.

Lemma keeps_save_kubeconfig data :
  may_write (path +:+ ".tmp") -> may_delete (path +:+ ".tmp") ->
  keeps (save_kubeconfig env cfg path data).
Proof.
  intros Hw Hd. unfold save_kubeconfig.
  pose proof (keeps_open_w _ Hw).
  pose proof (fun data => keeps_write_file _ data Hw).
  pose proof (fun m => keeps_os_chmod _ m Hw).
  pose proof (keeps_os_rename _ _ Hd Hw_path).
  pose proof (keeps_os_unlink _ Hd).
  keeps_auto.
Qed.

Lemma keeps_hosted_attempt attempt :
  may_write (path +:+ ".tmp") -> may_delete (path +:+ ".tmp") ->
  keeps (hosted_attempt env cfg path attempt).
Proof.
  intros Hw Hd. unfold hosted_attempt.
  pose proof keeps_sleep_if_more. pose proof keeps_recovery.
  pose proof keeps_validate. pose proof keeps_checksum.
  pose proof keeps_decode_kubeconfig.
  pose proof (fun data => keeps_save_kubeconfig data Hw Hd).
  keeps_auto.
Qed.

Lemma keeps_hosted_loop :
  may_write (path +:+ ".tmp") -> may_delete (path +:+ ".tmp") ->
  keeps (for_attempts (hosted_attempt env cfg path) (seq 1 max_retries)
           (_attempt_recovery env cfg path "hosted")).
Proof.
  intros Hw Hd.
  apply keeps_for_attempts; [intros; by apply keeps_hosted_attempt | apply keeps_recovery].
Qed.

Lemma keeps_acquire_gke :
  (forall ts, may_write (backup_name path ts)) -> keeps (acquire_gke env cfg path).
Proof.
  intros Hb. unfold acquire_gke.
  pose proof (keeps_ensure_directory path Hmeta).
  pose proof (keeps_create_backup path Hb).
  pose proof keeps_gke_loop.
  keeps_auto.
Qed.

Lemma keeps_acquire_hosted :
  (forall ts, may_write (backup_name path ts)) ->
  may_write (path +:+ ".tmp") -> may_delete (path +:+ ".tmp") ->
  keeps (acquire_hosted env cfg path).
Proof.
  intros Hb Hw Hd. unfold acquire_hosted.
  pose proof (keeps_ensure_directory path Hmeta).
  pose proof (keeps_create_backup path Hb).
  pose proof (keeps_hosted_loop Hw Hd).
  keeps_auto.
Qed.

End Flow.

End Frame.

(** ** Instances of the frame rule *)

(** The world is untouched and only calm events are added. *)
Definition quietly (s s' : State) : Prop :=
  world s' = world s /\
  exists evs, trace s' = trace s ++ evs /\ Forall (fun e => calm e = true) evs.

(** Only calm events are added; the world may change. *)
Definition calmly (s s' : State) : Prop :=
  exists evs, trace s' = trace s ++ evs /\ Forall (fun e => calm e = true) evs.

(** No attempt and no sleep is added. *)
Definition steplessly (s s' : State) : Prop :=
  exists evs, trace s' = trace s ++ evs /\ steps evs = [].

Lemma calm_stepless e : calm e = true -> step_of e = None.
Proof. unfold calm. by destruct (step_of e). Qed.

Lemma calm_untried e : calm e = true -> tried_backup e = None.
Proof. unfold calm. destruct (step_of e); [done|]. by destruct (tried_backup e). Qed.

Lemma steps_none evs : Forall (fun e => step_of e = None) evs -> steps evs = [].
Proof.
  induction 1 as [|e evs He _ IH]; [done|].
  unfold steps in *. cbn. by rewrite He.
Qed.

Ltac frame_side :=
  first [ exact _ | done | by intros ? [] | by intros []
        | by (intros; apply calm_stepless) | intros; reflexivity | intros; exact I ].

Lemma quietly_of {A} (m : M A) :
  (forall P_ev P_world, PreOrder P_world ->
     (forall e, calm e = true -> P_ev e) -> keeps P_ev P_world m) ->
  forall s r s', m s = (r, s') -> quietly s s'.
Proof.
  intros Hk s r s' Hrun.
  destruct (Hk (fun e => calm e = true) (fun w w' => w' = w)) with s r s'
    as [Hw Hevs]; try done.
  split; [congruence | intros ? ? ? ? ?; congruence].
Qed.

Lemma validate_quietly env path ct s r s' :
  _validate_kubeconfig_file env path ct s = (r, s') -> quietly s s'.
Proof.
  apply quietly_of. intros. by apply keeps_validate.
Qed.

Lemma connectivity_quietly env cfg path ct s r s' :
  _test_kubeconfig_connectivity env cfg path ct s = (r, s') -> quietly s s'.
Proof.
  apply quietly_of. intros P_ev P_world ? ?.
  apply (keeps_connectivity env cfg P_ev P_world (fun _ => False)); frame_side.
Qed.

Lemma is_valid_quietly env cfg path ct s r s' :
  _is_kubeconfig_valid env cfg path ct s = (r, s') -> quietly s s'.
Proof.
  apply quietly_of. intros P_ev P_world ? ?.
  apply (keeps_is_valid env cfg P_ev P_world (fun _ => False)); frame_side.
Qed.

(** ** What the validators answer

    Each answer is a function of the world alone. *)

(** [open(path)] then [yaml.safe_load]: the document, when both succeed. *)
Definition load_document (env : Env) (w : World) (path : string) : option yaml :=
  if io_error env w (OpRead path) then None
  else match files w !! path with
       | Some f => safe_load env (content f)
       | None => None
       end.

Definition section_ok (d : list (string * yaml)) (key : string) : bool :=
  match dict_get key d with
  | Some v => nonempty_list v
  | None => false
  end.

Definition structure_ok (env : Env) (w : World) (path : string) : bool :=
  match load_document env w path with
  | Some (YDict d) => forallb (section_ok d) required_keys
  | _ => false
  end.

Definition probe_ok (env : Env) (cfg : InstallConfig) (w : World) (path : string) : bool :=
  if dry_run cfg then true
  else match subprocess_run env w ClusterInfo path 15 with
       | Completed rc _ _ => rc =? 0
       | _ => false
       end.

Definition valid_ok (env : Env) (cfg : InstallConfig) (w : World) (path : string) : bool :=
  bool_decide (is_Some (files w !! path)) &&
  structure_ok env w path && probe_ok env cfg w path.

(** Unfolds the monad's plumbing, so that a run computes. *)
Ltac unfold_m :=
  unfold try_except, bind, ret, raise, get_world, set_world, log, emit,
    io_guard, update_files, path_exists in *.

Lemma has_key_get key d :
  has_key key d = match dict_get key d with Some _ => true | None => false end.
Proof.
  unfold has_key, dict_get. induction d as [|[k v] d IH]; cbn; [done|].
  destruct (String.eqb k key); [done|]. exact IH.
Qed.

Lemma validate_result env path ct s :
  (_validate_kubeconfig_file env path ct s).1 = Ok (structure_ok env (world s) path).
Proof.
  unfold _validate_kubeconfig_file, structure_ok, load_document, read_file,
    yaml_safe_load.
  unfold_m. cbn. destruct (io_error env (world s) (OpRead path)); [done|].
  destruct (files (world s) !! path) as [f|]; [|done]. cbn.
  destruct (safe_load env (content f)) as [[| | |d]|]; try done. cbn.
  rewrite !has_key_get. unfold section_ok.
  destruct (dict_get "clusters" d) as [v1|]; [|done]. cbn.
  destruct (dict_get "contexts" d) as [v2|]; [|by rewrite andb_false_r]. cbn.
  destruct (dict_get "users" d) as [v3|]; [|by rewrite !andb_false_r]. cbn.
  unfold bind, ret.
  destruct (nonempty_list v1); [|done].
  destruct (nonempty_list v2); [|done].
  by destruct (nonempty_list v3).
Qed.

Lemma connectivity_result env cfg path ct s :
  (_test_kubeconfig_connectivity env cfg path ct s).1 = Ok (probe_ok env cfg (world s) path).
Proof.
  unfold _test_kubeconfig_connectivity, probe_ok, runner_run, bind.
  destruct (dry_run cfg); [done|]. cbn.
  destruct (subprocess_run env (world s) ClusterInfo path 15) as [rc out err| |msg];
    [destruct (rc =? 0)|..]; done.
Qed.

Lemma is_valid_result env cfg path ct s :
  (_is_kubeconfig_valid env cfg path ct s).1 = Ok (valid_ok env cfg (world s) path).
Proof.
  unfold _is_kubeconfig_valid, valid_ok. unfold bind at 1. cbn.
  destruct (bool_decide (is_Some (files (world s) !! path))); [|done]. cbn.
  unfold bind at 1.
  match goal with |- context [try_except ?m ?h s] =>
    destruct (try_except m h s) as [[[]|e] s1] eqn:Eperm end.
  2:{ exfalso. unfold try_except, bind, ret in Eperm. rewrite os_stat_run in Eperm.
      destruct (io_error env (world s) (OpStat path)); [done|].
      destruct (files (world s) !! path) as [f|]; [|done].
      by destruct (negb (Z.land (mode f) MODE_0077 =? 0)). }
  assert (world s1 = world s) as Hw1.
  { unfold try_except, bind, ret in Eperm. rewrite os_stat_run in Eperm.
    destruct (io_error env (world s) (OpStat path)); [by injection Eperm as <-|].
    destruct (files (world s) !! path) as [f|]; [|by injection Eperm as <-].
    destruct (negb (Z.land (mode f) MODE_0077 =? 0)); by injection Eperm as <-. }
  unfold bind at 1.
  pose proof (validate_result env path ct s1) as Hv.
  destruct (_validate_kubeconfig_file env path ct s1) as [rv s2] eqn:Ev.
  cbn in Hv. subst rv. rewrite Hw1.
  apply validate_quietly in Ev as [Hw2 _].
  destruct (structure_ok env (world s) path); [|done]. cbn.
  rewrite connectivity_result. by rewrite Hw2, Hw1.
Qed.

Lemma validate_pass_run env path ct s :
  structure_ok env (world s) path = true ->
  _validate_kubeconfig_file env path ct s = (Ok true, s).
Proof.
  unfold _validate_kubeconfig_file, structure_ok, load_document, read_file,
    yaml_safe_load.
  unfold_m. cbn. destruct (io_error env (world s) (OpRead path)); [done|].
  destruct (files (world s) !! path) as [f|]; [|done]. cbn.
  destruct (safe_load env (content f)) as [[| | |d]|]; try done. cbn.
  rewrite !has_key_get. unfold section_ok.
  destruct (dict_get "clusters" d) as [v1|]; [|done]. cbn.
  destruct (dict_get "contexts" d) as [v2|]; [|by rewrite andb_false_r]. cbn.
  destruct (dict_get "users" d) as [v3|]; [|by rewrite !andb_false_r]. cbn.
  unfold_m.
  destruct (nonempty_list v1); [|done].
  destruct (nonempty_list v2); [|done].
  by destruct (nonempty_list v3).
Qed.

Lemma connectivity_pass_run env cfg path ct s :
  probe_ok env cfg (world s) path = true ->
  _test_kubeconfig_connectivity env cfg path ct s =
    (Ok true, add_events [EvRun ClusterInfo path true] s).
Proof.
  unfold _test_kubeconfig_connectivity, probe_ok, runner_run. unfold_m.
  destruct (dry_run cfg); [done|]. cbn.
  destruct (subprocess_run env (world s) ClusterInfo path 15) as [rc out err| |msg];
    [destruct (rc =? 0)|..]; done.
Qed.

Lemma section_ok_false d key :
  section_ok d key = false <->
  dict_get key d = None \/
  exists v, dict_get key d = Some v /\ forall x xs, v <> YList (x :: xs).
Proof.
  unfold section_ok. destruct (dict_get key d) as [v|]; [|by split; eauto].
  split.
  - intros Hv. right. exists v. split; [done|]. by intros x xs ->.
  - intros [[=]|(v' & [= <-] & Hv)]. destruct v as [| |[|x xs]|]; try done.
    by destruct (Hv x xs).
Qed.

Lemma sections_false d :
  forallb (section_ok d) required_keys = false <->
  exists key, key ∈ required_keys /\ section_ok d key = false.
Proof.
  cbn. split.
  - destruct (section_ok d "clusters") eqn:E1; [|exists "clusters"; split; [set_solver|done]].
    destruct (section_ok d "contexts") eqn:E2; [|exists "contexts"; split; [set_solver|done]].
    destruct (section_ok d "users") eqn:E3; [done|exists "users"; split; [set_solver|done]].
  - intros (key & Hin & Hk). unfold required_keys in Hin.
    repeat (apply elem_of_cons in Hin as [->|Hin]); try by inversion Hin.
    + by rewrite Hk.
    + rewrite Hk. by rewrite andb_false_r.
    + rewrite Hk. by rewrite !andb_false_r.
Qed.

(** * The claims *)

(** C7. The structural validator answers, never raises, and leaves the
    world as it found it; it answers [false] exactly when the file's
    content does not load as a document, or the document is not a mapping,
    or one of 'clusters', 'contexts', 'users' is absent from it, or the
    value of one of them is not a non-empty sequence.  Its only result is
    the boolean. *)
Theorem validate_kubeconfig_file_spec env path ct s :
  exists (b : bool) s',
    _validate_kubeconfig_file env path ct s = (Ok b, s') /\
    world s' = world s /\
    (b = false <->
       load_document env (world s) path = None \/
       (exists v, load_document env (world s) path = Some v /\
                  forall d, v <> YDict d) \/
       (exists d key, load_document env (world s) path = Some (YDict d) /\
          key ∈ required_keys /\
          (dict_get key d = None \/
           exists v, dict_get key d = Some v /\ forall x xs, v <> YList (x :: xs)))).
Proof.
  pose proof (validate_result env path ct s) as Hres.
  destruct (_validate_kubeconfig_file env path ct s) as [r s'] eqn:Erun.
  cbn in Hres. subst r. apply validate_quietly in Erun as [Hw _].
  eexists _, s'. split; [done|]. split; [done|].
  unfold structure_ok.
  destruct (load_document env (world s) path) as [v|]; [|by split; eauto].
  destruct v as [|sc|items|d].
  1-3: split; [intros _; right; left; eexists; split; [done|by intros d]|done].
  rewrite sections_false. split.
  - intros (key & Hin & Hk%section_ok_false). right. right. by exists d, key.
  - intros [[=]|[(v & [= <-] & Hv)|(d' & key & [= <-] & Hin & Hk)]].
    + by destruct (Hv d).
    + exists key. split; [done|]. by apply section_ok_false.
Qed.

(** C6. [_is_kubeconfig_valid] answers [true] exactly when the file exists
    and the structural validator passes it and the connectivity probe
    passes it: existence alone, structure alone or connectivity alone is
    not enough. *)
Theorem is_kubeconfig_valid_conjunctive env cfg path ct s :
  exists (b : bool) s',
    _is_kubeconfig_valid env cfg path ct s = (Ok b, s') /\
    (b = true <->
       is_Some (files (world s) !! path) /\
       (_validate_kubeconfig_file env path ct s).1 = Ok true /\
       (_test_kubeconfig_connectivity env cfg path ct s).1 = Ok true).
Proof.
  pose proof (is_valid_result env cfg path ct s) as Hres.
  destruct (_is_kubeconfig_valid env cfg path ct s) as [r s'] eqn:Erun.
  cbn in Hres. subst r. eexists _, s'. split; [done|].
  rewrite validate_result, connectivity_result. unfold valid_ok.
  rewrite !andb_true_iff, bool_decide_eq_true.
  split.
  - by intros [[? ->] ->].
  - by intros (? & [= ->] & [= ->]).
Qed.

(** ** A small concrete environment for examples *)

Definition good_document : yaml :=
  YDict [("clusters", YList [YScalar "c1"]);
         ("contexts", YList [YScalar "ctx1"]);
         ("users", YList [YScalar "u1"])].

(** A parser that knows two documents. *)
Definition toy_safe_load (data : string) : option yaml :=
  if String.eqb data "good" then Some good_document
  else if String.eqb data "no-users" then
    Some (YDict [("clusters", YList [YScalar "c1"]);
                 ("contexts", YList [YScalar "ctx1"])])
  else None.

Definition toy_b64decode (data : string) : option string :=
  if String.eqb data "Z29vZA==" then Some "good" else None.

Definition toy_env (run : World -> Command -> string -> Z -> ProcOutcome)
    (written : World -> string -> option (string * Z))
    (ioerr : World -> IoOp -> bool) : Env :=
  mkEnv run written ioerr toy_safe_load toy_b64decode
        (fun data => "sha256:" +:+ data) 18.

Definition toy_cfg : InstallConfig :=
  mkConfig "proj" "us-central1-a" "mgmt" "hosted1"
           "/tmp/kubeconfig-gke" "/tmp/kubeconfig-hosted" false.

Definition world_of (fs : list (string * File)) (t : Z) : World :=
  mkWorld (list_to_map fs) {["/tmp" := MODE_0700]} t.

Definition start (w : World) : State := mkState w [] ∅.

Definition always_up : World -> Command -> string -> Z -> ProcOutcome :=
  fun _ _ _ _ => Completed 0 "" "".

Definition always_down : World -> Command -> string -> Z -> ProcOutcome :=
  fun _ _ _ _ => Completed 1 "" "unreachable".

Definition writes_nothing : World -> string -> option (string * Z) :=
  fun _ _ => None.

Definition no_io_error : World -> IoOp -> bool := fun _ _ => false.

(** What the permission check of [_is_kubeconfig_valid] leaves in the
    trace: a warning when [stat] answers and the mode has a group or world
    bit, nothing otherwise. *)
Definition permission_warning (env : Env) (w : World) (path : string) (f : File)
    : list Event :=
  if io_error env w (OpStat path) then []
  else if Z.land (mode f) MODE_0077 =? 0 then []
  else [EvLog Warning ("Kubeconfig " +:+ path +:+ " has overly permissive permissions")].

Lemma is_valid_pass_run env cfg path ct s f :
  files (world s) !! path = Some f ->
  structure_ok env (world s) path = true ->
  probe_ok env cfg (world s) path = true ->
  _is_kubeconfig_valid env cfg path ct s =
    (Ok true,
     add_events (permission_warning env (world s) path f ++
                 [EvRun ClusterInfo path true]) s).
Proof.
  intros Hf Hstruct Hprobe.
  unfold _is_kubeconfig_valid, permission_warning.
  unfold bind at 1. cbn. rewrite Hf.
  rewrite bool_decide_true by eauto. cbn.
  unfold bind at 1, try_except, bind at 1. rewrite os_stat_run, Hf.
  destruct (io_error env (world s) (OpStat path)).
  { cbn. unfold bind at 1. rewrite validate_pass_run by done. cbn.
    by rewrite connectivity_pass_run. }
  destruct (Z.land (mode f) MODE_0077 =? 0); cbn.
  { unfold bind at 1. rewrite validate_pass_run by done. cbn.
    by rewrite connectivity_pass_run. }
  unfold bind at 1. rewrite validate_pass_run by done. cbn.
  rewrite connectivity_pass_run by done.
  unfold add_events. cbn. by rewrite <- app_assoc.
Qed.

(** C10. For an existing file that the structural validator and the
    connectivity probe pass, [_is_kubeconfig_valid] answers [true] whatever
    the file's mode bits are and whether or not reading them raises: the
    permission check adds at most a warning to the trace, and an error of
    [os.stat] adds nothing. *)
Theorem is_kubeconfig_valid_ignores_permissions env cfg path ct s f :
  files (world s) !! path = Some f ->
  (_validate_kubeconfig_file env path ct s).1 = Ok true ->
  (_test_kubeconfig_connectivity env cfg path ct s).1 = Ok true ->
  _is_kubeconfig_valid env cfg path ct s =
    (Ok true,
     add_events (permission_warning env (world s) path f ++
                 [EvRun ClusterInfo path true]) s).
Proof.
  rewrite validate_result, connectivity_result. intros Hf [= Hstruct] [= Hprobe].
  by apply is_valid_pass_run.
Qed.

(** A world-readable (0644) kubeconfig that is sound and reachable. *)
Definition permissive_state : State :=
  start (world_of [("/tmp/kubeconfig-gke", mkFile "good" 420 7)] 100).

Lemma is_kubeconfig_valid_ignores_permissions_witness :
  _is_kubeconfig_valid (toy_env always_up writes_nothing no_io_error) toy_cfg
      "/tmp/kubeconfig-gke" "gke" permissive_state =
    (Ok true,
     add_events
       [EvLog Warning "Kubeconfig /tmp/kubeconfig-gke has overly permissive permissions";
        EvRun ClusterInfo "/tmp/kubeconfig-gke" true] permissive_state).
Proof.
  apply (is_kubeconfig_valid_ignores_permissions
           (toy_env always_up writes_nothing no_io_error) toy_cfg
           "/tmp/kubeconfig-gke" "gke" permissive_state (mkFile "good" 420 7)).
  - vm_compute. reflexivity.
  - vm_compute. reflexivity.
  - vm_compute. reflexivity.
Defined.

(** ** The two roles, side by side *)

Inductive Role := Gke | Hosted.

Definition target (cfg : InstallConfig) (role : Role) : string :=
  match role with
  | Gke => kubeconfig_gke_path cfg
  | Hosted => kubeconfig_hosted_path cfg
  end.

Definition type_name (role : Role) : string :=
  match role with Gke => "gke" | Hosted => "hosted" end.

Definition create (env : Env) (cfg : InstallConfig) (role : Role) : bool -> M bool :=
  match role with
  | Gke => create_gke_kubeconfig env cfg
  | Hosted => create_hosted_kubeconfig env cfg
  end.

Definition acquire (env : Env) (cfg : InstallConfig) (role : Role) : M bool :=
  match role with
  | Gke => acquire_gke env cfg (kubeconfig_gke_path cfg)
  | Hosted => acquire_hosted env cfg (kubeconfig_hosted_path cfg)
  end.

Definition attempt (env : Env) (cfg : InstallConfig) (role : Role) : nat -> M (option bool) :=
  match role with
  | Gke => gke_attempt env cfg (kubeconfig_gke_path cfg)
  | Hosted => hosted_attempt env cfg (kubeconfig_hosted_path cfg)
  end.

(** The retry loop of a role with the recovery that follows it. *)
Definition retry_loop (env : Env) (cfg : InstallConfig) (role : Role) : M bool :=
  for_attempts (attempt env cfg role) (seq 1 max_retries)
    (_attempt_recovery env cfg (target cfg role) (type_name role)).

Definition creating_message (role : Role) : string :=
  match role with
  | Gke => "Creating resilient GKE kubeconfig..."
  | Hosted => "Creating resilient hosted cluster kubeconfig..."
  end.

Definition exists_message (role : Role) : string :=
  match role with
  | Gke => "Valid GKE kubeconfig already exists"
  | Hosted => "Valid hosted kubeconfig already exists"
  end.

Lemma quietly_refl s : quietly s s.
Proof. split; [done|]. exists []. by rewrite app_nil_r. Qed.

Lemma quietly_trans s1 s2 s3 : quietly s1 s2 -> quietly s2 s3 -> quietly s1 s3.
Proof.
  intros [Hw1 (e1 & Ht1 & Hf1)] [Hw2 (e2 & Ht2 & Hf2)]. split; [congruence|].
  exists (e1 ++ e2). rewrite Ht2, Ht1, app_assoc. split; [done|].
  by apply Forall_app.
Qed.

Lemma quietly_emit e s : calm e = true -> quietly s (add_events [e] s).
Proof. intros He. split; [done|]. exists [e]. split; [done|]. by constructor. Qed.

(** When recreation is forced or the existing file is judged invalid, the
    call goes on to the acquisition, the world still untouched. *)
Lemma create_goes_on env cfg role force s :
  force = true \/
  (_is_kubeconfig_valid env cfg (target cfg role) (type_name role) s).1 = Ok false ->
  exists s2, create env cfg role force s = acquire env cfg role s2 /\ quietly s s2.
Proof.
  intros Hgo. rewrite is_valid_result in Hgo.
  set (s1 := add_events [EvLog Info (creating_message role)] s).
  assert (quietly s s1) as Hq1 by (by apply quietly_emit; destruct role).
  assert (create env cfg role force s =
          bind (if negb force
                then _is_kubeconfig_valid env cfg (target cfg role) (type_name role)
                else ret false)
               (fun valid => if valid
                  then bind (log Info (exists_message role)) (fun _ => ret true)
                  else acquire env cfg role) s1) as ->.
  { by destruct role. }
  unfold bind at 1. destruct force.
  { exists s1. by split. }
  change (negb false) with true. cbv iota.
  pose proof (is_valid_result env cfg (target cfg role) (type_name role) s1) as Hres.
  destruct (_is_kubeconfig_valid env cfg (target cfg role) (type_name role) s1)
    as [r s2] eqn:Erun.
  cbn in Hres. subst r. apply is_valid_quietly in Erun.
  destruct Hgo as [[=]|[= Hv]]. change (world s1) with (world s). rewrite Hv.
  exists s2. split; [done|]. by eapply quietly_trans.
Qed.

Lemma calm_no_entry e : calm e = true -> recovery_entry e = false.
Proof.
  unfold calm. destruct (step_of e); [done|]. destruct (tried_backup e); [done|].
  by destruct (recovery_entry e).
Qed.

Lemma quietly_facts s s' :
  quietly s s' ->
  world s' = world s /\
  exists evs, trace s' = trace s ++ evs /\ steps evs = [] /\
              forall e, e ∈ evs -> recovery_entry e = false.
Proof.
  intros [Hw (evs & Ht & Hcalm)]. split; [done|]. exists evs.
  split; [done|]. split; [by apply steps_calm|].
  intros e He. rewrite Forall_forall in Hcalm. by apply calm_no_entry, Hcalm.
Qed.

(** C3. Without [force_recreate], when the file at the target passes the
    structural validator and the connectivity probe, the call returns
    [True] at once.  The whole run is: the opening log line, the
    permission warning if any, the one probe, the closing log line.  The
    world (every file, so the target and any backup) is as before, and no
    acquisition command is run. *)
Theorem fast_path_returns_at_once env cfg role s f :
  files (world s) !! target cfg role = Some f ->
  (_validate_kubeconfig_file env (target cfg role) (type_name role) s).1 = Ok true ->
  (_test_kubeconfig_connectivity env cfg (target cfg role) (type_name role) s).1
    = Ok true ->
  let evs := [EvLog Info (creating_message role)] ++
             permission_warning env (world s) (target cfg role) f ++
             [EvRun ClusterInfo (target cfg role) true;
              EvLog Info (exists_message role)] in
  create env cfg role false s = (Ok true, add_events evs s) /\
  world (add_events evs s) = world s /\
  steps evs = [].
Proof.
  rewrite validate_result, connectivity_result. intros Hf [= Hstruct] [= Hprobe] evs.
  split; [|split; [done|]].
  - set (s1 := add_events [EvLog Info (creating_message role)] s).
    assert (create env cfg role false s =
            bind (_is_kubeconfig_valid env cfg (target cfg role) (type_name role))
                 (fun valid => if valid
                    then bind (log Info (exists_message role)) (fun _ => ret true)
                    else acquire env cfg role) s1) as ->.
    { by destruct role. }
    unfold bind at 1.
    rewrite (is_valid_pass_run env cfg _ _ s1 f) by done.
    subst evs s1. unfold add_events. cbn. f_equal. f_equal.
    by rewrite <- !app_assoc.
  - subst evs. unfold permission_warning.
    destruct (io_error env (world s) (OpStat (target cfg role))); [done|].
    by destruct (Z.land (mode f) MODE_0077 =? 0).
Qed.

Lemma fast_path_returns_at_once_witness :
  let env := toy_env always_up writes_nothing no_io_error in
  let evs := [EvLog Info "Creating resilient GKE kubeconfig...";
              EvLog Warning
                "Kubeconfig /tmp/kubeconfig-gke has overly permissive permissions";
              EvRun ClusterInfo "/tmp/kubeconfig-gke" true;
              EvLog Info "Valid GKE kubeconfig already exists"] in
  create_gke_kubeconfig env toy_cfg false permissive_state
    = (Ok true, add_events evs permissive_state) /\
  world (add_events evs permissive_state) = world permissive_state /\
  steps evs = [].
Proof.
  apply (fast_path_returns_at_once (toy_env always_up writes_nothing no_io_error)
           toy_cfg Gke permissive_state (mkFile "good" 420 7)).
  - vm_compute. reflexivity.
  - vm_compute. reflexivity.
  - vm_compute. reflexivity.
Defined.

Lemma ensure_directory_fails env path s :
  dirs (world s) !! parent path = None ->
  io_error env (world s) (OpMkdir (parent path)) = true ->
  _ensure_directory_exists env path s =
    (Ok false,
     add_events [EvLog Error ("Failed to create directory for " +:+ path +:+ ": OSError")] s).
Proof.
  intros Hd Hio. unfold _ensure_directory_exists, mkdir_p. unfold_m. cbn.
  by rewrite Hd, Hio.
Qed.

Lemma owner_only_0700 u : Z.land (Z.ldiff MODE_0700 u) MODE_0077 = 0.
Proof.
  apply Z.bits_inj'. intros n Hn.
  rewrite Z.land_spec, Z.ldiff_spec, Z.bits_0.
  destruct (decide (n < 6)) as [Hlt|Hge].
  - assert (Z.testbit MODE_0700 n = false) as ->; [|done].
    assert (n = 0 \/ n = 1 \/ n = 2 \/ n = 3 \/ n = 4 \/ n = 5) as Hcases by lia.
    by destruct Hcases as [->|[->|[->|[->|[->| ->]]]]].
  - assert (Z.testbit MODE_0077 n = false) as ->; [|by rewrite andb_false_r].
    unfold MODE_0077. change 63 with (Z.ones 6).
    apply Z.ones_spec_high. lia.
Qed.

(** The directory is made with mode 0700 less the umask, so without any
    group or world bit. *)
Lemma ensure_directory_creates env path s :
  dirs (world s) !! parent path = None ->
  io_error env (world s) (OpMkdir (parent path)) = false ->
  exists s', _ensure_directory_exists env path s = (Ok true, s') /\
    dirs (world s') !! parent path = Some (Z.ldiff MODE_0700 (umask env)) /\
    files (world s') = files (world s) /\
    Z.land (Z.ldiff MODE_0700 (umask env)) MODE_0077 = 0.
Proof.
  intros Hd Hio. unfold _ensure_directory_exists, mkdir_p. unfold_m. cbn.
  rewrite Hd, Hio. eexists. split; [done|]. split; [by cbn; rewrite lookup_insert_eq|].
  split; [done|]. apply owner_only_0700.
Qed.

(** C8. When the call gets to the directory step (recreation forced, or the
    existing file judged invalid) and creating the missing parent directory
    fails, the call returns [False] with the world untouched: no attempt,
    no sleep, no entry into recovery. *)
Theorem directory_failure_is_fatal env cfg role force s :
  force = true \/
  (_is_kubeconfig_valid env cfg (target cfg role) (type_name role) s).1 = Ok false ->
  dirs (world s) !! parent (target cfg role) = None ->
  io_error env (world s) (OpMkdir (parent (target cfg role))) = true ->
  exists s',
    create env cfg role force s = (Ok false, s') /\
    world s' = world s /\
    exists evs, trace s' = trace s ++ evs /\ steps evs = [] /\
                forall e, e ∈ evs -> recovery_entry e = false.
Proof.
  intros Hgo Hd Hio.
  destruct (create_goes_on env cfg role force s Hgo) as (s2 & -> & Hq).
  pose proof Hq as [Hw2 _].
  assert (acquire env cfg role s2 =
          (Ok false,
           add_events [EvLog Error ("Failed to create directory for " +:+
                                    target cfg role +:+ ": OSError")] s2)) as ->.
  { destruct role; cbn [acquire target]; unfold acquire_gke, acquire_hosted;
      unfold bind at 1; rewrite ensure_directory_fails by (by rewrite Hw2); done. }
  eexists. split; [done|]. apply quietly_facts.
  eapply quietly_trans; [exact Hq|]. by apply quietly_emit.
Qed.

Definition no_mkdir : World -> IoOp -> bool :=
  fun _ op => match op with OpMkdir _ => true | _ => false end.

Lemma directory_failure_is_fatal_witness :
  let env := toy_env always_up writes_nothing no_mkdir in
  let s := start (mkWorld ∅ ∅ 100) in
  exists s',
    create_hosted_kubeconfig env toy_cfg true s = (Ok false, s') /\
    world s' = world s /\
    exists evs, trace s' = trace s ++ evs /\ steps evs = [] /\
                forall e, e ∈ evs -> recovery_entry e = false.
Proof.
  apply (directory_failure_is_fatal (toy_env always_up writes_nothing no_mkdir)
           toy_cfg Hosted true (start (mkWorld ∅ ∅ 100))).
  - left. reflexivity.
  - vm_compute. reflexivity.
  - vm_compute. reflexivity.
Defined.

(** ** Recovery *)

Lemma os_rename_run env src dst s :
  os_rename env src dst s =
    if io_error env (world s) (OpRename src dst) then (Raise "OSError", s)
    else match files (world s) !! src with
         | Some f =>
             (Ok tt,
              mkState (set_files (<[dst := f]> (delete src (files (world s)))) (world s))
                      (trace s ++ [EvIo (OpRename src dst)]) (kubeconfig_info s))
         | None => (Raise "FileNotFoundError", s)
         end.
Proof.
  unfold os_rename. unfold_m.
  destruct (io_error env (world s) (OpRename src dst)); [done|]. cbn.
  by destruct (files (world s) !! src).
Qed.

(** A candidate is taken when it is judged valid and its rename does not
    fail. *)
Definition taken (env : Env) (cfg : InstallConfig) (w : World) (path b : string) : bool :=
  valid_ok env cfg w b && negb (io_error env w (OpRename b path)).

(** Where recovery leaves the world when it reinstates [b]. *)
Definition reinstated (w : World) (path b : string) (f : File) : World :=
  set_files (<[path := f]> (delete b (files w))) w.

Lemma tried_one b : tried [EvLog Info ("Trying backup: " +:+ b)] = [b].
Proof.
  unfold tried. cbn [omap list_omap tried_backup].
  by rewrite (strip_prefix_same "Trying backup: " b).
Qed.

Lemma recovery_loop_run env cfg path ct cands :
  forall s,
  exists (r : bool) s' evs,
    recovery_loop env cfg path ct cands s = (Ok r, s') /\
    trace s' = trace s ++ evs /\
    ((exists pre b post f,
        cands = pre ++ b :: post /\
        Forall (fun c => taken env cfg (world s) path c = false) pre /\
        taken env cfg (world s) path b = true /\
        files (world s) !! b = Some f /\
        r = true /\ tried evs = pre ++ [b] /\
        world s' = reinstated (world s) path b f)
     \/
     (Forall (fun c => taken env cfg (world s) path c = false) cands /\
      r = false /\ tried evs = cands /\ world s' = world s)).
Proof.
  induction cands as [|b rest IH]; intros s.
  { eexists false, _, _. split; [done|]. split; [done|]. right. by repeat split. }
  cbn [recovery_loop]. unfold bind at 1, log at 1, emit.
  set (s1 := mkState (world s) (trace s ++ [EvLog Info ("Trying backup: " +:+ b)])
                     (kubeconfig_info s)).
  cbn -[s1 recovery_loop]. fold s1. unfold bind at 1.
  pose proof (is_valid_result env cfg b ct s1) as Hres.
  destruct (_is_kubeconfig_valid env cfg b ct s1) as [rv s2] eqn:Erun.
  cbn in Hres. subst rv.
  apply is_valid_quietly in Erun as [Hw2 (ev2 & Ht2 & Hcalm2)].
  change (world s1) with (world s) in *.
  destruct (valid_ok env cfg (world s) b) eqn:Hvalid.
  - unfold try_except, bind at 1. rewrite os_rename_run, Hw2.
    destruct (io_error env (world s) (OpRename b path)) eqn:Hio.
    + (* the rename raises: on to the next candidate *)
      unfold bind at 1, log at 1, emit. cbn -[recovery_loop].
      match goal with |- context [recovery_loop _ _ _ _ rest ?st] =>
        destruct (IH st) as (r & s' & evs & Hrun & Htr & Hcase); set (s3 := st) in * end.
      change (world s3) with (world s2) in Hcase. rewrite Hw2 in Hcase.
      exists r, s', (EvLog Info ("Trying backup: " +:+ b) :: ev2 ++
                     EvLog Warning ("Failed to restore from backup " +:+ b +:+ ": OSError")
                     :: evs).
      split; [done|]. split.
      { rewrite Htr. subst s3. cbn. rewrite Ht2. subst s1. cbn.
        by rewrite <- !app_assoc. }
      assert (taken env cfg (world s) path b = false) as Hb.
      { unfold taken. by rewrite Hio, andb_false_r. }
      assert (forall l, tried (EvLog Info ("Trying backup: " +:+ b) :: ev2 ++
                EvLog Warning ("Failed to restore from backup " +:+ b +:+ ": OSError")
                :: l) = b :: tried l) as Htried.
      { intros l.
        change (EvLog Info ("Trying backup: " +:+ b) :: ev2 ++ ?x :: l)
          with ([EvLog Info ("Trying backup: " +:+ b)] ++ ev2 ++ [x] ++ l).
        by rewrite !tried_app, tried_one, (tried_calm ev2). }
      destruct Hcase as [(pre & c & post & f & -> & Hpre & Hc & Hf & -> & Htc & Hw)
                        |(Hall & -> & Htc & Hw)].
      * left. exists (b :: pre), c, post, f. rewrite Htried, Htc.
        repeat split; try done. by constructor.
      * right. rewrite Htried, Htc. repeat split; try done. by constructor.
    + (* the rename goes through *)
      assert (is_Some (files (world s) !! b)) as [f Hf].
      { unfold valid_ok in Hvalid. apply andb_prop in Hvalid as [Hv _].
        apply andb_prop in Hv as [Hex _]. by apply bool_decide_eq_true in Hex. }
      rewrite Hf. unfold bind at 1, log at 1, emit, ret. cbn.
      eexists true, _, (EvLog Info ("Trying backup: " +:+ b) :: ev2 ++
                        [EvIo (OpRename b path);
                         EvLog Info ("Recovered from backup: " +:+ b)]).
      split; [done|]. split.
      { cbn. rewrite Ht2. subst s1. cbn. by rewrite <- !app_assoc. }
      left. exists [], b, rest, f. repeat split; try done.
      * unfold taken. by rewrite Hvalid, Hio.
      * change (EvLog Info ("Trying backup: " +:+ b) :: ev2 ++ ?l)
          with ([EvLog Info ("Trying backup: " +:+ b)] ++ ev2 ++ l).
        by rewrite !tried_app, tried_one, (tried_calm ev2).
  - (* judged invalid: on to the next candidate *)
    destruct (IH s2) as (r & s' & evs & Hrun & Htr & Hcase).
    rewrite Hw2 in Hcase.
    exists r, s', (EvLog Info ("Trying backup: " +:+ b) :: ev2 ++ evs).
    split; [done|]. split.
    { rewrite Htr, Ht2. subst s1. cbn. by rewrite <- !app_assoc. }
    assert (taken env cfg (world s) path b = false) as Hb.
    { unfold taken. by rewrite Hvalid. }
    assert (tried (EvLog Info ("Trying backup: " +:+ b) :: ev2 ++ evs) = b :: tried evs)
      as Htried.
    { change (EvLog Info ("Trying backup: " +:+ b) :: ev2 ++ evs)
        with ([EvLog Info ("Trying backup: " +:+ b)] ++ ev2 ++ evs).
      by rewrite !tried_app, tried_one, (tried_calm ev2). }
    destruct Hcase as [(pre & c & post & f & -> & Hpre & Hc & Hf & -> & Htc & Hw)
                      |(Hall & -> & Htc & Hw)].
    + left. exists (b :: pre), c, post, f. rewrite Htried, Htc.
      repeat split; try done. by constructor.
    + right. rewrite Htried, Htc. repeat split; try done. by constructor.
Qed.




Lemma string_length_app a b :
  String.length (a +:+ b) = (String.length a + String.length b)%nat.
Proof.
  induction a as [|c a' IH]; [done|].
  change (String c a' +:+ b) with (String c (a' +:+ b)). cbn. by rewrite IH.
Qed.

Lemma backup_is_not_target path b : is_backup_of path b = true -> b <> path.
Proof.
  unfold is_backup_of. intros Hb ->.
  destruct (strip_prefix (path +:+ ".backup.") path) as [rest|] eqn:E; [|done].
  apply strip_prefix_app in E. apply (f_equal String.length) in E.
  rewrite !string_length_app in E. cbn in E. lia.
Qed.



(** Three backups, the newest two unparsable, the oldest sound. *)
Definition three_backups : State :=
  start (world_of [("/tmp/kubeconfig-gke.backup.1", mkFile "good" 384 10);
                   ("/tmp/kubeconfig-gke.backup.2", mkFile "stale" 384 20);
                   ("/tmp/kubeconfig-gke.backup.3", mkFile "stale" 384 30);
                   ("/tmp/kubeconfig-gke", mkFile "broken" 384 40)] 100).



(** [os.stat] fails, everything else works. *)
Definition no_stat : World -> IoOp -> bool :=
  fun _ op => match op with OpStat _ => true | _ => false end.


(** The same run, computed: newest, middle, oldest, and the oldest wins. *)
Example recovery_three_backups :
  let run := _attempt_recovery (toy_env always_up writes_nothing no_io_error)
               toy_cfg "/tmp/kubeconfig-gke" "gke" three_backups in
  run.1 = Ok true /\
  tried (trace run.2) = ["/tmp/kubeconfig-gke.backup.3";
                         "/tmp/kubeconfig-gke.backup.2";
                         "/tmp/kubeconfig-gke.backup.1"] /\
  files (world run.2) !! "/tmp/kubeconfig-gke" = Some (mkFile "good" 384 10) /\
  files (world run.2) !! "/tmp/kubeconfig-gke.backup.1" = None.
Proof. vm_compute. by repeat split. Qed.

(** ** Before the retry loop *)

Lemma calmly_refl s : calmly s s.
Proof. exists []. by rewrite app_nil_r. Qed.

Lemma calmly_trans s1 s2 s3 : calmly s1 s2 -> calmly s2 s3 -> calmly s1 s3.
Proof.
  intros (e1 & Ht1 & Hf1) (e2 & Ht2 & Hf2).
  exists (e1 ++ e2). rewrite Ht2, Ht1, app_assoc. split; [done|].
  by apply Forall_app.
Qed.

Lemma quietly_calmly s s' : quietly s s' -> calmly s s'.
Proof. by intros [_ ?]. Qed.

Lemma calmly_emit e s : calm e = true -> calmly s (add_events [e] s).
Proof. intros He. exists [e]. split; [done|]. by constructor. Qed.

Lemma calmly_of {A} (m : M A) :
  keeps (fun e => calm e = true) (fun _ _ => True) m ->
  forall s r s', m s = (r, s') -> calmly s s'.
Proof. intros Hk s r s' Hrun. by destruct (Hk s r s' Hrun) as [_ ?]. Qed.

Lemma anything_goes : PreOrder (fun _ _ : World => True).
Proof. by split. Qed.

Lemma ensure_directory_ok env path s :
  is_Some (dirs (world s) !! parent path) \/
  io_error env (world s) (OpMkdir (parent path)) = false ->
  exists s', _ensure_directory_exists env path s = (Ok true, s') /\
             files (world s') = files (world s) /\ now (world s') = now (world s) /\
             calmly s s'.
Proof.
  intros Hdir. unfold _ensure_directory_exists, mkdir_p. unfold_m. cbn.
  destruct (dirs (world s) !! parent path) eqn:Hd.
  { exists s. repeat split; try done. apply calmly_refl. }
  destruct Hdir as [[? Hsome]|Hio]; [done|]. rewrite Hio. eexists. split; [done|]. cbn.
  repeat split; try done. by apply (calmly_emit (EvIo _)).
Qed.

(** The backup never raises: its handler logs and answers [None]. *)
Lemma create_backup_total env path s :
  exists b s', _create_backup env path s = (Ok b, s') /\ calmly s s'.
Proof.
  assert (forall r s', _create_backup env path s = (r, s') -> calmly s s') as Hcalm.
  { apply calmly_of.
    apply (keeps_create_backup env _ _ (fun _ => True)); try done;
      try apply anything_goes. }
  destruct (_create_backup env path s) as [r s'] eqn:Erun.
  specialize (Hcalm _ _ eq_refl).
  unfold _create_backup, try_except in Erun.
  match type of Erun with (match ?body s with _ => _ end) = _ =>
    destruct (body s) as [[b|e] s1] end.
  - injection Erun as <- <-. by eexists _, _.
  - unfold_m. injection Erun as <- <-. by eexists _, _.
Qed.

(** Lines 67-70 and 149-152: the backup of an existing target, then on. *)
Lemma backup_step env path (k : M bool) s :
  exists s',
    (ex <- path_exists path ;;
     (if ex then
        backup <- _create_backup env path ;;
        log Info ("Backed up existing kubeconfig to " +:+ default "None" backup)
      else ret tt) ;;;
     k) s = k s' /\ calmly s s'.
Proof.
  unfold bind at 1, path_exists.
  destruct (bool_decide (is_Some (files (world s) !! path))).
  - destruct (create_backup_total env path s) as (b & s' & Hb & Hc).
    unfold bind at 1, bind at 1. rewrite Hb. eexists. split; [done|].
    eapply calmly_trans; [exact Hc|]. by apply (calmly_emit (EvLog Info _)).
  - exists s. split; [done|]. apply calmly_refl.
Qed.

(** With the directory in place the call reaches the retry loop, with only
    calm events on the way. *)
Lemma acquire_enters_loop env cfg role s :
  is_Some (dirs (world s) !! parent (target cfg role)) \/
  io_error env (world s) (OpMkdir (parent (target cfg role))) = false ->
  exists s', acquire env cfg role s = retry_loop env cfg role s' /\ calmly s s'.
Proof.
  intros Hdir.
  destruct (ensure_directory_ok env (target cfg role) s Hdir) as (s1 & Hens & _ & _ & Hc1).
  destruct (backup_step env (target cfg role) (retry_loop env cfg role) s1)
    as (s2 & Hprep & Hc2).
  exists s2. split; [|by eapply calmly_trans].
  rewrite <- Hprep.
  destruct role; cbn [acquire target] in *; unfold acquire_gke, acquire_hosted;
    unfold bind at 1; by rewrite Hens.
Qed.

(** Recovery opens with its own line and adds no attempt and no sleep. *)
Lemma recovery_trace env cfg path ct s r s' :
  _attempt_recovery env cfg path ct s = (r, s') ->
  exists rest, trace s' = trace s ++ EvLog Warning (recovery_message ct) :: rest /\
               steps rest = [].
Proof.
  change (_attempt_recovery env cfg path ct s)
    with (recovery_rest env cfg path ct
            (add_events [EvLog Warning (recovery_message ct)] s)).
  intros Hrun.
  assert (keeps (fun e => step_of e = None) (fun _ _ => True)
            (recovery_rest env cfg path ct)) as Hk.
  { apply keeps_recovery_rest with (may_write := fun _ => True)
                                   (may_delete := fun _ => True);
      first [done | apply anything_goes | apply calm_stepless]. }
  apply Hk in Hrun as [_ (rest & Ht & Hrest)].
  exists rest. split; [|by apply steps_none].
  rewrite Ht. cbn. by rewrite <- app_assoc.
Qed.

(** ** What an acquisition yields

    The outcome of the role's acquisition procedure, read off the
    environment at a given world. *)

(** [runner.run(gcloud ... get-credentials)] reports success. *)
Definition gke_fetch (env : Env) (cfg : InstallConfig) (w : World) : bool :=
  if dry_run cfg then true
  else match subprocess_run env w (gke_command cfg) (kubeconfig_gke_path cfg) 120 with
       | Completed rc _ _ => rc =? 0
       | _ => false
       end.

(** What [runner.run(kubectl get secret ..., check_output=True)] hands
    back on success. *)
Definition secret_output (env : Env) (cfg : InstallConfig) (w : World) : option string :=
  if dry_run cfg then Some "dry-run-output"
  else match subprocess_run env w (hosted_command cfg) (kubeconfig_gke_path cfg) 60 with
       | Completed rc out _ => if rc =? 0 then Some (strip out) else None
       | _ => None
       end.

(** The secret decodes to a mapping with a 'clusters' key. *)
Definition decoded (env : Env) (kubeconfig_b64 : string) : option string :=
  match b64decode_utf8 env kubeconfig_b64 with
  | Some data =>
      match safe_load env data with
      | Some (YDict d) => if has_key "clusters" d then Some data else None
      | _ => None
      end
  | None => None
  end.

(** The hosted acquisition: tool error, empty output and undecodable or
    malformed content all yield nothing. *)
Definition hosted_fetch (env : Env) (cfg : InstallConfig) (w : World) : option string :=
  match secret_output env cfg w with
  | Some b64 => if String.eqb (strip b64) "" then None else decoded env b64
  | None => None
  end.

Definition acquired (env : Env) (cfg : InstallConfig) (role : Role) (w : World) : bool :=
  match role with
  | Gke => gke_fetch env cfg w
  | Hosted => match hosted_fetch env cfg w with Some _ => true | None => false end
  end.

Definition quiet_entry (evs : list Event) : Prop :=
  Forall (fun e => recovery_entry e = false) evs.

Lemma decode_kubeconfig_run env b64 s :
  exists e, decode_kubeconfig env b64 s =
    (match decoded env b64 with Some data => Ok data | None => Raise e end, s).
Proof.
  unfold decode_kubeconfig, decoded, yaml_safe_load. unfold_m.
  destruct (b64decode_utf8 env b64) as [data|]; [|by eexists].
  destruct (safe_load env data) as [[| | |d]|]; try by eexists.
  destruct (has_key "clusters" d); by eexists.
Qed.

(** How a failed attempt ends: a sleep and on to the next one, or, on the
    last one, recovery. *)
Definition after_failure (env : Env) (cfg : InstallConfig) (role : Role) (a : nat)
    (s1 : State) (r : Res (option bool) * State) : Prop :=
  if (a <? max_retries)%nat then
    exists s2 evs, r = (Ok None, s2) /\ trace s2 = trace s1 ++ evs /\
                   steps evs = [Sleep retry_delay] /\ quiet_entry evs
  else
    exists evs, quiet_entry evs /\ steps evs = [] /\
      r = match _attempt_recovery env cfg (target cfg role) (type_name role)
                  (add_events evs s1) with
          | (Ok b, s4) => (Ok (Some b), s4)
          | (Raise e, s4) =>
              (Ok None,
               add_events [EvLog Error ("Exception during attempt " +:+ pretty a
                                        +:+ ": " +:+ e)] s4)
          end.

(** What [runner.run] answers and where it leaves the world. *)
Definition run_result (env : Env) (cfg : InstallConfig) (w : World) (cmd : Command)
    (k : string) (check_output : bool) (timeout : Z) : bool * string :=
  if dry_run cfg then (true, "dry-run-output")
  else match subprocess_run env w cmd k timeout with
       | Completed rc out err =>
           if rc =? 0 then (true, if check_output then strip out else "")
           else (false, err)
       | TimeoutExpired => (false, "Command timed out")
       | SpawnError msg => (false, msg)
       end.

Definition run_world (env : Env) (cfg : InstallConfig) (cmd : Command) (k : string)
    (w : World) : World :=
  if dry_run cfg then w else subprocess_effect env cmd k w.

Lemma bind_log {B} lvl msg (k : unit -> M B) s :
  bind (log lvl msg) k s = k tt (add_events [EvLog lvl msg] s).
Proof. done. Qed.

Lemma bind_sleep {B} secs (k : unit -> M B) s :
  bind (sleep secs) k s =
    k tt (mkState (mkWorld (files (world s)) (dirs (world s)) (now (world s) + secs))
                  (trace s ++ [EvSleep secs]) (kubeconfig_info s)).
Proof. done. Qed.

Lemma bind_run {B} env cfg cmd kc co t (k : bool * string -> M B) s :
  bind (runner_run env cfg cmd kc co t) k s =
    k (run_result env cfg (world s) cmd kc co t)
      (mkState (run_world env cfg cmd kc (world s))
               (trace s ++ [EvRun cmd kc (run_result env cfg (world s) cmd kc co t).1])
               (kubeconfig_info s)).
Proof.
  unfold runner_run, run_result, run_world. destruct (dry_run cfg); [done|].
  unfold_m. cbn.
  destruct (subprocess_run env (world s) cmd kc t) as [rc out err| |msg];
    [destruct (rc =? 0)|..]; done.
Qed.

Lemma gke_fetch_result env cfg w :
  gke_fetch env cfg w =
    (run_result env cfg w (gke_command cfg) (kubeconfig_gke_path cfg) false 120).1.
Proof.
  unfold gke_fetch, run_result. destruct (dry_run cfg); [done|].
  destruct (subprocess_run env w (gke_command cfg) (kubeconfig_gke_path cfg) 120)
    as [rc out err| |msg]; [destruct (rc =? 0)|..]; done.
Qed.

Lemma hosted_fetch_result env cfg w :
  hosted_fetch env cfg w =
    let r := run_result env cfg w (hosted_command cfg) (kubeconfig_gke_path cfg) true 60 in
    if negb r.1 || String.eqb (strip r.2) "" then None else decoded env r.2.
Proof.
  unfold hosted_fetch, secret_output, run_result. destruct (dry_run cfg); [done|].
  destruct (subprocess_run env w (hosted_command cfg) (kubeconfig_gke_path cfg) 60)
    as [rc out err| |msg]; [destruct (rc =? 0)|..]; done.
Qed.

Lemma gke_attempt_fails env cfg a s :
  gke_fetch env cfg (world s) = false ->
  exists s1 evs, trace s1 = trace s ++ evs /\ steps evs = [Attempt] /\
    quiet_entry evs /\
    after_failure env cfg Gke a s1 (gke_attempt env cfg (kubeconfig_gke_path cfg) a s).
Proof.
  rewrite gke_fetch_result. intros Hfail.
  unfold gke_attempt, try_except, after_failure.
  rewrite bind_log, bind_run. cbn [world trace kubeconfig_info add_events].
  destruct (run_result env cfg (world s) (gke_command cfg) (kubeconfig_gke_path cfg)
              false 120) as [ok out]. cbn in Hfail. subst ok. cbn [fst snd negb].
  rewrite bind_log. cbn [world trace kubeconfig_info add_events].
  match goal with |- context [(if (a <? max_retries)%nat then _ else _) ?st] =>
    exists st; set (s1 := st) end.
  eexists. split; [cbn; by rewrite <- !app_assoc|]. split; [done|].
  split; [by repeat constructor|].
  destruct (a <? max_retries)%nat eqn:Ha.
  - rewrite bind_log, bind_sleep. unfold ret.
    eexists _, _. split; [done|]. split; [cbn; by rewrite <- app_assoc|].
    split; [done | by repeat constructor].
  - exists [EvLog Error "All retry attempts failed"].
    split; [by repeat constructor|]. split; [done|].
    rewrite bind_log. unfold bind at 1. cbn [target type_name].
    destruct (_attempt_recovery env cfg (kubeconfig_gke_path cfg) "gke"
                (add_events [EvLog Error "All retry attempts failed"] s1))
      as [[b|e] s4]; [done|].
    rewrite bind_log. unfold sleep_if_more. by rewrite Ha.
Qed.

Lemma hosted_attempt_fails env cfg a s :
  hosted_fetch env cfg (world s) = None ->
  exists s1 evs, trace s1 = trace s ++ evs /\ steps evs = [Attempt] /\
    quiet_entry evs /\
    after_failure env cfg Hosted a s1
      (hosted_attempt env cfg (kubeconfig_hosted_path cfg) a s).
Proof.
  rewrite hosted_fetch_result. cbv zeta. intros Hfail.
  unfold hosted_attempt, try_except.
  rewrite bind_log, bind_run. cbn [world trace kubeconfig_info add_events].
  destruct (run_result env cfg (world s) (hosted_command cfg) (kubeconfig_gke_path cfg)
              true 60) as [ok out]. cbn [fst snd] in *.
  destruct (negb ok || String.eqb (strip out) "") eqn:Hempty.
  - (* no secret *)
    rewrite bind_log. cbn [world trace kubeconfig_info add_events].
    match goal with |- context [(if (a <? max_retries)%nat then _ else _) ?st] =>
      exists st; set (s1 := st) end.
    eexists. split; [cbn; by rewrite <- !app_assoc|]. split; [done|].
    split; [by repeat constructor|]. unfold after_failure.
    destruct (a <? max_retries)%nat eqn:Ha.
    + rewrite bind_log, bind_sleep. unfold ret.
      eexists _, _. split; [done|]. split; [cbn; by rewrite <- app_assoc|].
      split; [done | by repeat constructor].
    + exists [EvLog Error "All retry attempts failed"].
      split; [by repeat constructor|]. split; [done|].
      rewrite bind_log. unfold bind at 1. cbn [target type_name].
      destruct (_attempt_recovery env cfg (kubeconfig_hosted_path cfg) "hosted"
                  (add_events [EvLog Error "All retry attempts failed"] s1))
        as [[b|e] s4]; [done|].
      rewrite bind_log. unfold sleep_if_more. by rewrite Ha.
  - (* a secret that does not decode to a kubeconfig *)
    unfold bind at 1. cbv beta. unfold bind at 1.
    match goal with |- context [decode_kubeconfig env out ?st] =>
      destruct (decode_kubeconfig_run env out st) as [e ->]; set (s0 := st) end.
    rewrite Hfail. rewrite bind_log. cbn [world trace kubeconfig_info add_events].
    match goal with |- context [(if (a <? max_retries)%nat then _ else _) ?st] =>
      exists st; set (s1 := st) end.
    eexists. split; [cbn; by rewrite <- !app_assoc|]. split; [done|].
    split; [by repeat constructor|]. unfold after_failure.
    destruct (a <? max_retries)%nat eqn:Ha.
    + rewrite bind_sleep. unfold ret.
      eexists _, _. split; [done|]. split; [done|].
      split; [done | by repeat constructor].
    + exists []. split; [constructor|]. split; [done|].
      cbn [target type_name].
      change (add_events [] s1) with
        (mkState (world s1) (trace s1 ++ []) (kubeconfig_info s1)).
      rewrite app_nil_r.
      change (mkState (world s1) (trace s1) (kubeconfig_info s1)) with s1.
      unfold sleep_if_more. rewrite Ha. unfold bind.
      destruct (_attempt_recovery env cfg (kubeconfig_hosted_path cfg) "hosted" s1)
        as [[b|e'] s4]; done.
Qed.

Lemma attempt_fails env cfg role a s :
  acquired env cfg role (world s) = false ->
  exists s1 evs, trace s1 = trace s ++ evs /\ steps evs = [Attempt] /\
    quiet_entry evs /\
    after_failure env cfg role a s1 (attempt env cfg role a s).
Proof.
  destruct role; cbn [acquired attempt].
  - apply gke_attempt_fails.
  - intros Hf. apply hosted_attempt_fails. by destruct (hosted_fetch env cfg (world s)).
Qed.

(** An attempt before the last that fails: one attempt, one sleep, next. *)
Lemma attempt_fails_early env cfg role a s :
  (a < max_retries)%nat ->
  acquired env cfg role (world s) = false ->
  exists s2 evs, attempt env cfg role a s = (Ok None, s2) /\
    trace s2 = trace s ++ evs /\
    steps evs = [Attempt; Sleep retry_delay] /\ quiet_entry evs.
Proof.
  intros Ha Hf.
  destruct (attempt_fails env cfg role a s Hf) as (s1 & evs & Ht & Hsteps & Hq & Hafter).
  unfold after_failure in Hafter.
  apply Nat.ltb_lt in Ha. rewrite Ha in Hafter.
  destruct Hafter as (s2 & evs2 & -> & Ht2 & Hsteps2 & Hq2).
  exists s2, (evs ++ evs2). split; [done|].
  split; [by rewrite Ht2, Ht, app_assoc|].
  split; [by rewrite steps_app, Hsteps, Hsteps2|]. by apply Forall_app.
Qed.

Lemma quiet_entry_calm evs : Forall (fun e => calm e = true) evs -> quiet_entry evs.
Proof. intros H. eapply Forall_impl; [exact H|]. intros e. apply calm_no_entry. Qed.

(** The retry loop when every acquisition fails. *)
Lemma loop_all_fail env cfg role s :
  (forall w, acquired env cfg role w = false) ->
  exists r s' evs rest,
    retry_loop env cfg role s = (r, s') /\
    trace s' = trace s ++ evs ++ EvLog Warning (recovery_message (type_name role)) :: rest /\
    steps evs = [Attempt; Sleep retry_delay; Attempt; Sleep retry_delay; Attempt] /\
    quiet_entry evs /\ steps rest = [].
Proof.
  intros Hfail. unfold retry_loop. cbn [seq max_retries for_attempts].
  unfold bind at 1.
  destruct (attempt_fails_early env cfg role 1 s) as (s1 & e1 & -> & Ht1 & Hs1 & Hq1);
    [unfold max_retries; lia | done |].
  unfold bind at 1.
  destruct (attempt_fails_early env cfg role 2 s1) as (s2 & e2 & -> & Ht2 & Hs2 & Hq2);
    [unfold max_retries; lia | done |].
  unfold bind at 1.
  destruct (attempt_fails env cfg role 3 s2 (Hfail _))
    as (s3 & e3 & Ht3 & Hs3 & Hq3 & Hafter).
  unfold after_failure in Hafter.
  change (3 <? max_retries)%nat with false in Hafter. cbv iota in Hafter.
  destruct Hafter as (e4 & Hq4 & Hs4 & ->).
  destruct (_attempt_recovery env cfg (target cfg role) (type_name role)
              (add_events e4 s3)) as [[b|e] s5] eqn:Erec;
    apply recovery_trace in Erec as (rest & Ht5 & Hrest).
  - eexists (Ok b), s5, (e1 ++ e2 ++ e3 ++ e4), rest. split; [done|].
    split.
    { rewrite Ht5. cbn. rewrite Ht3, Ht2, Ht1. by rewrite <- !app_assoc. }
    split.
    { rewrite !steps_app, Hs1, Hs2, Hs3, Hs4. done. }
    split; [|done]. unfold quiet_entry in *. by rewrite !Forall_app.
  - unfold ret.
    match goal with |- context [_attempt_recovery _ _ _ _ ?st] =>
      destruct (_attempt_recovery env cfg (target cfg role) (type_name role) st)
        as [r s6] eqn:Erec2 end.
    apply recovery_trace in Erec2 as (rest2 & Ht6 & Hrest2).
    eexists r, s6, (e1 ++ e2 ++ e3 ++ e4),
      (rest ++ EvLog Error ("Exception during attempt " +:+ pretty 3%nat +:+ ": " +:+ e)
            :: EvLog Warning (recovery_message (type_name role)) :: rest2).
    split; [done|]. split.
    { rewrite Ht6. cbn. rewrite Ht5. cbn. rewrite Ht3, Ht2, Ht1.
      rewrite <- ?app_assoc. cbn. by rewrite <- ?app_assoc. }
    split.
    { rewrite !steps_app, Hs1, Hs2, Hs3, Hs4. done. }
    split; [unfold quiet_entry in *; by rewrite !Forall_app|].
    rewrite steps_app, Hrest. cbn. exact Hrest2.
Qed.

(** C1. When the call gets past the fast path and the directory step and
    the role's acquisition fails at every try, the run shows exactly three
    attempts with a sleep of [retry_delay] = 5 seconds between consecutive
    ones, then the opening line of recovery; recovery is not entered before
    the third attempt has failed, and nothing after its entry is an attempt
    or a sleep. *)
Theorem bounded_retries_then_recovery env cfg role force s :
  force = true \/
  (_is_kubeconfig_valid env cfg (target cfg role) (type_name role) s).1 = Ok false ->
  is_Some (dirs (world s) !! parent (target cfg role)) \/
  io_error env (world s) (OpMkdir (parent (target cfg role))) = false ->
  (forall w, acquired env cfg role w = false) ->
  exists r s' evs rest,
    create env cfg role force s = (r, s') /\
    trace s' = trace s ++ evs ++ EvLog Warning (recovery_message (type_name role)) :: rest /\
    steps evs = [Attempt; Sleep 5; Attempt; Sleep 5; Attempt] /\
    (forall e, e ∈ evs -> recovery_entry e = false) /\
    steps rest = [].
Proof.
  intros Hgo Hdir Hfail.
  destruct (create_goes_on env cfg role force s Hgo) as (s1 & -> & Hq1).
  destruct Hq1 as [Hw1 (e1 & Ht1 & Hc1)].
  destruct (acquire_enters_loop env cfg role s1) as (s2 & -> & (e2 & Ht2 & Hc2)).
  { by rewrite Hw1. }
  destruct (loop_all_fail env cfg role s2 Hfail)
    as (r & s' & evs & rest & Hrun & Ht & Hsteps & Hq & Hrest).
  exists r, s', (e1 ++ e2 ++ evs), rest. split; [done|]. split.
  { rewrite Ht, Ht2, Ht1. by rewrite <- !app_assoc. }
  split.
  { by rewrite !steps_app, (steps_calm e1), (steps_calm e2). }
  split; [|done]. apply Forall_forall.
  apply quiet_entry_calm in Hc1, Hc2. unfold quiet_entry in *.
  by rewrite !Forall_app.
Qed.

Lemma bounded_retries_then_recovery_witness :
  let env := toy_env always_down writes_nothing no_io_error in
  let s := permissive_state in
  exists r s' evs rest,
    create_hosted_kubeconfig env toy_cfg true s = (r, s') /\
    trace s' = trace s ++ evs ++ EvLog Warning (recovery_message "hosted") :: rest /\
    steps evs = [Attempt; Sleep 5; Attempt; Sleep 5; Attempt] /\
    (forall e, e ∈ evs -> recovery_entry e = false) /\
    steps rest = [].
Proof.
  apply (bounded_retries_then_recovery
           (toy_env always_down writes_nothing no_io_error) toy_cfg Hosted true
           permissive_state).
  - left. reflexivity.
  - left. vm_compute. eexists. reflexivity.
  - intros w. reflexivity.
Defined.

(** The management role on the same input, computed: three attempts five
    seconds apart, and the clock has advanced by ten seconds. *)
Example gke_all_attempts_fail :
  let run := create_gke_kubeconfig (toy_env always_down writes_nothing no_io_error)
               toy_cfg true permissive_state in
  run.1 = Ok false /\
  steps (trace run.2) = [Attempt; Sleep 5; Attempt; Sleep 5; Attempt] /\
  now (world run.2) = now (world permissive_state) + 10.
Proof. vm_compute. by repeat split. Qed.

(** ** The backup *)

Lemma backup_name_not_target path ts : backup_name path ts <> path.
Proof.
  unfold backup_name. intros H. apply (f_equal String.length) in H.
  rewrite !string_length_app in H. cbn in H. lia.
Qed.

Lemma string_app_assoc a b c : (a +:+ b) +:+ c = a +:+ (b +:+ c).
Proof.
  induction a as [|x a' IH]; [done|].
  change (String x a' +:+ b) with (String x (a' +:+ b)).
  change (String x (a' +:+ b) +:+ c) with (String x ((a' +:+ b) +:+ c)).
  change (String x a' +:+ (b +:+ c)) with (String x (a' +:+ (b +:+ c))).
  by rewrite IH.
Qed.

Lemma backup_name_prefix path ts :
  strip_prefix (path +:+ ".backup.") (backup_name path ts) = Some (pretty ts).
Proof.
  unfold backup_name. rewrite <- string_app_assoc. apply strip_prefix_same.
Qed.

Lemma has_slash_app a b : has_slash (a +:+ b) = has_slash a || has_slash b.
Proof.
  induction a as [|c a' IH]; [done|].
  change (String c a' +:+ b) with (String c (a' +:+ b)). cbn.
  by rewrite IH, orb_assoc.
Qed.

Lemma pretty_N_char_no_slash x : Ascii.eqb (pretty_N_char x) "/"%char = false.
Proof.
  destruct x as [|p]; [done|].
  do 4 (try destruct p as [p|p|]); done.
Qed.

Lemma pretty_N_go_no_slash x s :
  has_slash s = false -> has_slash (pretty_N_go x s) = false.
Proof.
  revert s. induction (N.lt_wf_0 x) as [x _ IH]; intros s Hs.
  destruct (decide (x = 0%N)) as [->|Hx]; [by rewrite pretty_N_go_0|].
  rewrite pretty_N_go_step by lia. apply IH.
  - apply N.div_lt; lia.
  - cbn. by rewrite pretty_N_char_no_slash.
Qed.

Lemma pretty_Z_no_slash (z : Z) : has_slash (pretty z) = false.
Proof.
  assert (forall n : N, has_slash (pretty n) = false) as HN.
  { intros n. unfold pretty, pretty_N. destruct (decide (n = 0%N)); [done|].
    by apply pretty_N_go_no_slash. }
  destruct z as [|p|p]; [done|apply (HN (Npos p))|].
  change (pretty (Z.neg p)) with ("-" +:+ pretty (Npos p)).
  rewrite has_slash_app. apply (HN (Npos p)).
Qed.

(** The name [_create_backup] writes is one [_attempt_recovery] looks for. *)
Lemma backup_name_is_backup path ts : is_backup_of path (backup_name path ts) = true.
Proof.
  unfold is_backup_of. by rewrite backup_name_prefix, pretty_Z_no_slash.
Qed.

Definition put_file (p : string) (f : File) (evs : list Event) (s : State) : State :=
  mkState (set_files (<[p := f]> (files (world s))) (world s))
          (trace s ++ evs) (kubeconfig_info s).

Lemma read_file_run env p s :
  read_file env p s =
    if io_error env (world s) (OpRead p) then (Raise "OSError", s)
    else match files (world s) !! p with
         | Some f => (Ok (content f), s)
         | None => (Raise "FileNotFoundError", s)
         end.
Proof.
  unfold read_file. unfold_m.
  destruct (io_error env (world s) (OpRead p)); [done|].
  by destruct (files (world s) !! p).
Qed.

Lemma open_w_run env p s :
  open_w env p s =
    if io_error env (world s) (OpOpenW p) then (Raise "OSError", s)
    else (Ok tt,
          put_file p (mkFile "" (match files (world s) !! p with
                                 | Some f => mode f
                                 | None => Z.ldiff MODE_0666 (umask env)
                                 end) (now (world s)))
                   [EvIo (OpOpenW p)] s).
Proof.
  unfold open_w. unfold_m. by destruct (io_error env (world s) (OpOpenW p)).
Qed.

Lemma write_file_run env p data s :
  write_file env p data s =
    if io_error env (world s) (OpWrite p) then (Raise "OSError", s)
    else match files (world s) !! p with
         | Some f => (Ok tt, put_file p (mkFile data (mode f) (now (world s)))
                                      [EvIo (OpWrite p)] s)
         | None => (Raise "FileNotFoundError", s)
         end.
Proof.
  unfold write_file. unfold_m.
  destruct (io_error env (world s) (OpWrite p)); [done|]. cbn.
  by destruct (files (world s) !! p).
Qed.

Lemma os_chmod_run env p m s :
  os_chmod env p m s =
    if io_error env (world s) (OpChmod p) then (Raise "OSError", s)
    else match files (world s) !! p with
         | Some f => (Ok tt, put_file p (mkFile (content f) m (mtime f))
                                      [EvIo (OpChmod p)] s)
         | None => (Raise "FileNotFoundError", s)
         end.
Proof.
  unfold os_chmod. unfold_m.
  destruct (io_error env (world s) (OpChmod p)); [done|]. cbn.
  by destruct (files (world s) !! p).
Qed.

Lemma put_file_lookup p f evs s : files (world (put_file p f evs s)) !! p = Some f.
Proof. cbn. apply lookup_insert_eq. Qed.

Lemma put_file_lookup_ne p q f evs s :
  p <> q -> files (world (put_file p f evs s)) !! q = files (world s) !! q.
Proof. intros. cbn. by apply lookup_insert_ne. Qed.

Lemma put_file_twice p f g evs1 evs2 s :
  put_file p g evs2 (put_file p f evs1 s) = put_file p g (evs1 ++ evs2) s.
Proof.
  unfold put_file, set_files. cbn. by rewrite insert_insert_eq, <- app_assoc.
Qed.

(** Does the copy of [_create_backup] go through at world [w]?  Each
    operation is asked at the world the one before it left: the read of
    the original, the opening and the writing of the copy, the [stat] of
    the original, the [chmod] of the copy. *)
Definition copy_ok (env : Env) (w : World) (path : string) : bool :=
  match files w !! path with
  | None => false
  | Some f =>
      let bn := backup_name path (now w) in
      let m0 := match files w !! bn with
                | Some g => mode g
                | None => Z.ldiff MODE_0666 (umask env)
                end in
      let w1 := set_files (<[bn := mkFile "" m0 (now w)]> (files w)) w in
      let w2 := set_files (<[bn := mkFile (content f) m0 (now w)]> (files w)) w in
      negb (io_error env w (OpRead path)) && negb (io_error env w (OpOpenW bn)) &&
      negb (io_error env w1 (OpWrite bn)) && negb (io_error env w2 (OpStat path)) &&
      negb (io_error env w2 (OpChmod bn))
  end.

Lemma create_backup_exact env path s f :
  files (world s) !! path = Some f ->
  copy_ok env (world s) path = true ->
  let bn := backup_name path (now (world s)) in
  _create_backup env path s =
    (Ok (Some bn),
     put_file bn (mkFile (content f) (mode f) (now (world s)))
       [EvIo (OpOpenW bn); EvIo (OpWrite bn); EvIo (OpChmod bn)] s).
Proof.
  intros Hf Hok bn. unfold copy_ok in Hok. rewrite Hf in Hok. fold bn in Hok.
  cbv zeta in Hok.
  repeat (apply andb_prop in Hok as [Hok ?]).
  repeat match goal with H : negb _ = true |- _ => apply negb_true_iff in H end.
  pose proof (backup_name_not_target path (now (world s))) as Hne. fold bn in Hne.
  unfold _create_backup, try_except. unfold bind at 1, get_world. fold bn.
  unfold bind at 1. rewrite read_file_run, Hok, Hf.
  unfold bind at 1. rewrite open_w_run.
  match goal with H : io_error env (world s) (OpOpenW bn) = false |- _ => rewrite H end.
  unfold bind at 1. rewrite write_file_run. cbn [world put_file].
  match goal with H : io_error env _ (OpWrite bn) = false |- _ => rewrite H end.
  cbn [files set_files]. rewrite lookup_insert_eq.
  fold (put_file bn (mkFile "" (match files (world s) !! bn with
                                | Some g => mode g
                                | None => Z.ldiff MODE_0666 (umask env)
                                end) (now (world s))) [EvIo (OpOpenW bn)] s).
  rewrite put_file_twice. cbn [mode now set_files].
  unfold bind at 1. rewrite os_stat_run. cbn [world put_file].
  match goal with H : io_error env _ (OpStat path) = false |- _ => rewrite H end.
  cbn [files set_files]. rewrite lookup_insert_ne, Hf by done.
  unfold bind at 1. rewrite os_chmod_run. cbn [world put_file].
  match goal with H : io_error env _ (OpChmod bn) = false |- _ => rewrite H end.
  cbn [files set_files]. rewrite lookup_insert_eq.
  unfold ret, put_file, set_files. cbn.
  by rewrite !insert_insert_eq, <- !app_assoc.
Qed.

(** One more file: the list of backups grows by that name and nothing
    else. *)
Lemma glob_backups_insert w path bn f :
  is_backup_of path bn = true -> files w !! bn = None ->
  glob_backups (set_files (<[bn := f]> (files w)) w) path ≡ₚ bn :: glob_backups w path.
Proof.
  intros Hb Hnone. unfold glob_backups. cbn [files set_files].
  rewrite map_to_list_insert by done. cbn [map fst].
  by rewrite filter_cons_True.
Qed.

(** Backup files may disappear, but none appears and none changes. *)
Definition backups_only_vanish (path : string) (w w' : World) : Prop :=
  forall p, is_backup_of path p = true ->
    files w' !! p = None \/ files w' !! p = files w !! p.

Lemma backups_only_vanish_pre path : PreOrder (backups_only_vanish path).
Proof.
  split.
  - intros w p _. by right.
  - intros w1 w2 w3 H12 H23 p Hp.
    destruct (H23 p Hp) as [?|H3]; [by left|]. rewrite H3. by apply H12.
Qed.

Lemma target_is_no_backup path : is_backup_of path path = false.
Proof.
  destruct (is_backup_of path path) eqn:E; [|done].
  by apply backup_is_not_target in E.
Qed.

Lemma strip_prefix_common pre a b :
  strip_prefix (pre +:+ a) (pre +:+ b) = strip_prefix a b.
Proof.
  induction pre as [|c pre' IH]; [done|].
  change (String c pre' +:+ a) with (String c (pre' +:+ a)).
  change (String c pre' +:+ b) with (String c (pre' +:+ b)).
  cbn. by rewrite Ascii.eqb_refl.
Qed.

Lemma temp_is_no_backup path : is_backup_of path (path +:+ ".tmp") = false.
Proof. unfold is_backup_of. by rewrite strip_prefix_common. Qed.

Lemma loop_makes_no_backup env cfg role s r s' :
  retry_loop env cfg role s = (r, s') ->
  backups_only_vanish (target cfg role) (world s) (world s').
Proof.
  intros Hrun.
  assert (keeps (fun _ => True) (backups_only_vanish (target cfg role))
            (retry_loop env cfg role)) as Hk.
  { pose proof (target_is_no_backup (target cfg role)).
    pose proof (temp_is_no_backup (target cfg role)).
    destruct role; unfold retry_loop; cbn [attempt target type_name] in *;
      [eapply keeps_gke_loop with
         (may_write := fun p => is_backup_of (kubeconfig_gke_path cfg) p = false)
         (may_delete := fun _ => True) (may_meta := True)
      |eapply keeps_hosted_loop with
         (may_write := fun p => is_backup_of (kubeconfig_hosted_path cfg) p = false)
         (may_delete := fun _ => True) (may_meta := True)];
      try done; try apply backups_only_vanish_pre.
    all: try (intros p Hp w f q Hq; right; cbn; apply lookup_insert_ne; congruence).
    all: try (intros p _ w q Hq; cbn; destruct (decide (p = q)) as [->|Hne];
              [left; apply lookup_delete_eq | right; by apply lookup_delete_ne]).
    all: try (intros _ w d t q Hq; by right). }
  by destruct (Hk s r s' Hrun) as [Hw _].
Qed.

Lemma backup_step_exact env path (k : M bool) s f :
  files (world s) !! path = Some f ->
  copy_ok env (world s) path = true ->
  let bn := backup_name path (now (world s)) in
  (ex <- path_exists path ;;
   (if ex then
      backup <- _create_backup env path ;;
      log Info ("Backed up existing kubeconfig to " +:+ default "None" backup)
    else ret tt) ;;;
   k) s =
  k (put_file bn (mkFile (content f) (mode f) (now (world s)))
       [EvIo (OpOpenW bn); EvIo (OpWrite bn); EvIo (OpChmod bn);
        EvLog Info ("Backed up existing kubeconfig to " +:+ bn)] s).
Proof.
  intros Hf Hok bn.
  unfold bind at 1, path_exists. rewrite Hf, bool_decide_true by eauto.
  unfold bind at 1, bind at 1. rewrite (create_backup_exact env path s f Hf Hok).
  fold bn. unfold log, emit, put_file. cbn. by rewrite <- app_assoc.
Qed.

(** C4, as the code has it.  The backup belongs to the request, not to the
    attempt: a call that gets past the fast path, finds the target's
    directory and the target itself, whose copy does not fail and for which
    no backup of the current second exists yet, copies the target's bytes
    and mode to [{path}.backup.{time}] once, before the first attempt.
    That is one new file, a name recovery will look for: the list of
    backups grows by exactly it, every other file is as before, and the
    target itself still is.  That is the state the retry loop starts from,
    and the loop and the recovery after it add no backup file and change
    none. *)
Theorem backup_once_before_loop env cfg role force s f :
  force = true \/
  (_is_kubeconfig_valid env cfg (target cfg role) (type_name role) s).1 = Ok false ->
  files (world s) !! target cfg role = Some f ->
  is_Some (dirs (world s) !! parent (target cfg role)) ->
  copy_ok env (world s) (target cfg role) = true ->
  let bn := backup_name (target cfg role) (now (world s)) in
  files (world s) !! bn = None ->
  exists s1 evs,
    create env cfg role force s = retry_loop env cfg role s1 /\
    trace s1 = trace s ++ evs /\ steps evs = [] /\
    is_backup_of (target cfg role) bn = true /\
    files (world s1) = <[bn := mkFile (content f) (mode f) (now (world s))]>
                         (files (world s)) /\
    files (world s1) !! target cfg role = Some f /\
    glob_backups (world s1) (target cfg role)
      ≡ₚ bn :: glob_backups (world s) (target cfg role) /\
    forall r s', retry_loop env cfg role s1 = (r, s') ->
      forall p, is_backup_of (target cfg role) p = true ->
        files (world s') !! p = None \/ files (world s') !! p = files (world s1) !! p.
Proof.
  intros Hgo Hf Hdir Hok bn Hfresh.
  destruct (create_goes_on env cfg role force s Hgo) as (s0 & -> & Hw0 & e0 & Ht0 & Hc0).
  assert (acquire env cfg role s0 =
          (ex <- path_exists (target cfg role) ;;
           (if ex then
              backup <- _create_backup env (target cfg role) ;;
              log Info ("Backed up existing kubeconfig to " +:+ default "None" backup)
            else ret tt) ;;;
           retry_loop env cfg role) s0) as ->.
  { destruct Hdir as [m Hm].
    destruct role; cbn [acquire target] in *; unfold acquire_gke, acquire_hosted;
      unfold bind at 1, _ensure_directory_exists, try_except, bind at 1, mkdir_p,
        bind at 1, get_world; by rewrite Hw0, Hm. }
  rewrite (backup_step_exact env (target cfg role) _ s0 f); rewrite Hw0; try done.
  fold bn.
  pose proof (backup_name_is_backup (target cfg role) (now (world s))) as Hb. fold bn in Hb.
  eexists _, (e0 ++ [EvIo (OpOpenW bn); EvIo (OpWrite bn); EvIo (OpChmod bn);
                     EvLog Info ("Backed up existing kubeconfig to " +:+ bn)]).
  split; [reflexivity|].
  split; [cbn; by rewrite Ht0, <- app_assoc|].
  split; [by rewrite steps_app, (steps_calm e0)|].
  split; [done|].
  split; [cbn; by rewrite Hw0|].
  split.
  { cbn. rewrite Hw0, lookup_insert_ne; [done|]. apply backup_name_not_target. }
  split.
  { cbn [world put_file]. rewrite Hw0. by apply glob_backups_insert. }
  intros r s' Hrun. by apply (loop_makes_no_backup env cfg role _ r s').
Qed.

(** A stale target, no backup yet; gcloud succeeds each time but what it
    writes does not parse. *)
Definition writes_garbage : World -> string -> option (string * Z) :=
  fun _ _ => Some ("garbage", MODE_0600).

Definition stale_state : State :=
  start (world_of [("/tmp/kubeconfig-gke", mkFile "stale" 384 40)] 100).

Lemma backup_once_before_loop_witness :
  let env := toy_env always_up writes_garbage no_io_error in
  let path := "/tmp/kubeconfig-gke" in
  let bn := "/tmp/kubeconfig-gke.backup.100" in
  exists s1 evs,
    create_gke_kubeconfig env toy_cfg true stale_state = retry_loop env toy_cfg Gke s1 /\
    trace s1 = trace stale_state ++ evs /\ steps evs = [] /\
    is_backup_of path bn = true /\
    files (world s1) = <[bn := mkFile "stale" 384 100]> (files (world stale_state)) /\
    files (world s1) !! path = Some (mkFile "stale" 384 40) /\
    glob_backups (world s1) path ≡ₚ bn :: glob_backups (world stale_state) path /\
    forall r s', retry_loop env toy_cfg Gke s1 = (r, s') ->
      forall p, is_backup_of path p = true ->
        files (world s') !! p = None \/ files (world s') !! p = files (world s1) !! p.
Proof.
  apply (backup_once_before_loop (toy_env always_up writes_garbage no_io_error)
           toy_cfg Gke true stale_state (mkFile "stale" 384 40)).
  - left. reflexivity.
  - vm_compute. reflexivity.
  - vm_compute. eexists. reflexivity.
  - vm_compute. reflexivity.
  - vm_compute. reflexivity.
Defined.

(** C4 as stated fails: in this run each of the three attempts finds the
    target in place and overwrites it (the second and third overwrite what
    the attempt before wrote), yet one backup file exists afterwards, the
    one made before the loop, where the claim wants one per attempt. *)
Lemma backup_per_attempt_counterexample :
  let env := toy_env always_up writes_garbage no_io_error in
  let path := "/tmp/kubeconfig-gke" in
  let run := create_gke_kubeconfig env toy_cfg true stale_state in
  files (world stale_state) !! path = Some (mkFile "stale" 384 40) /\
  glob_backups (world stale_state) path = [] /\
  omap (fun e => match e with
                 | EvRun (GetCredentials _ _ _) k ok => Some (k, ok)
                 | _ => None
                 end) (trace run.2)
    = [(path, true); (path, true); (path, true)] /\
  steps (trace run.2) = [Attempt; Sleep 5; Attempt; Sleep 5; Attempt] /\
  files (world run.2) !! path = Some (mkFile "garbage" 384 110) /\
  glob_backups (world run.2) path = ["/tmp/kubeconfig-gke.backup.100"].
Proof. vm_compute. by repeat split. Qed.

(** ** Writing the hosted kubeconfig *)

Lemma temp_is_not_target path : path +:+ ".tmp" <> path.
Proof.
  intros H. apply (f_equal String.length) in H.
  rewrite string_length_app in H. cbn in H. lia.
Qed.

Lemma os_unlink_run env p s :
  os_unlink env p s =
    if io_error env (world s) (OpUnlink p) then (Raise "OSError", s)
    else match files (world s) !! p with
         | Some _ =>
             (Ok tt, mkState (set_files (delete p (files (world s))) (world s))
                             (trace s ++ [EvIo (OpUnlink p)]) (kubeconfig_info s))
         | None => (Raise "FileNotFoundError", s)
         end.
Proof.
  unfold os_unlink. unfold_m.
  destruct (io_error env (world s) (OpUnlink p)); [done|]. cbn.
  by destruct (files (world s) !! p).
Qed.

(** The handler of the write block (lines 212-216): it touches at most the
    temporary file, and never leaves the block normally. *)
Lemma save_handler_outcome env tmp e s :
  exists r s',
    (log Error ("Failed to write kubeconfig: " +:+ e) ;;;
     ex <- path_exists tmp ;;
     (if ex then os_unlink env tmp else ret tt) ;;;
     ret (@None unit)) s = (r, s') /\
    (forall q, q <> tmp -> files (world s') !! q = files (world s) !! q) /\
    match r with
    | Ok None => files (world s') !! tmp = None
    | Ok (Some _) => False
    | Raise _ => True
    end.
Proof.
  rewrite bind_log. unfold bind at 1, path_exists. cbn [world add_events].
  destruct (files (world s) !! tmp) as [f|] eqn:Hf.
  - rewrite bool_decide_true by eauto.
    unfold bind at 1. rewrite os_unlink_run. cbn [world add_events].
    destruct (io_error env (world s) (OpUnlink tmp)); [by eexists _, _|].
    rewrite Hf. eexists _, _. split; [reflexivity|]. cbn.
    split; [intros q Hq; by apply lookup_delete_ne | apply lookup_delete_eq].
  - rewrite bool_decide_false by (intros [? ?]; done).
    eexists _, _. split; [reflexivity|]. by split.
Qed.

(** What the write block leaves when it goes through: the target holds the
    decoded content with mode 0600, the temporary file is gone, every other
    file is as before. *)
Definition saved_as (path data : string) (w w' : World) : Prop :=
  files w' !! path = Some (mkFile data MODE_0600 (now w)) /\
  files w' !! (path +:+ ".tmp") = None /\
  (forall q, q <> path -> q <> path +:+ ".tmp" -> files w' !! q = files w !! q) /\
  dirs w' = dirs w /\ now w' = now w.

Definition io_ops (evs : list Event) : list IoOp :=
  omap (fun e => match e with EvIo op => Some op | _ => None end) evs.

(** Do the four file operations of the write block go through at world
    [w]?  Each is asked at the world the one before it left: opening
    [{path}.tmp], writing it, its [chmod], the rename over the target. *)
Definition write_ok (env : Env) (w : World) (path data : string) : bool :=
  let tmp := path +:+ ".tmp" in
  let m0 := match files w !! tmp with
            | Some g => mode g
            | None => Z.ldiff MODE_0666 (umask env)
            end in
  let w1 := set_files (<[tmp := mkFile "" m0 (now w)]> (files w)) w in
  let w2 := set_files (<[tmp := mkFile data m0 (now w)]> (files w1)) w1 in
  let w3 := set_files (<[tmp := mkFile data MODE_0600 (now w)]> (files w2)) w2 in
  negb (io_error env w (OpOpenW tmp)) && negb (io_error env w1 (OpWrite tmp)) &&
  negb (io_error env w2 (OpChmod tmp)) && negb (io_error env w3 (OpRename tmp path)).

(** The write block, exactly: it is left normally when the four operations
    go through, and then the target is the new file; otherwise it is left
    by [continue] or by an exception, and the target is as it was. *)
Lemma save_kubeconfig_exact env cfg path data s :
  dry_run cfg = false ->
  exists r s',
    save_kubeconfig env cfg path data s = (r, s') /\
    if write_ok env (world s) path data then
      r = Ok (Some tt) /\
      saved_as path data (world s) (world s') /\
      exists evs, trace s' = trace s ++ evs /\
        io_ops evs = [OpOpenW (path +:+ ".tmp"); OpWrite (path +:+ ".tmp");
                      OpChmod (path +:+ ".tmp"); OpRename (path +:+ ".tmp") path]
    else
      (forall u, r <> Ok (Some u)) /\
      files (world s') !! path = files (world s) !! path.
Proof.
  intros Hdry. unfold save_kubeconfig, write_ok. rewrite Hdry. cbn [negb].
  pose proof (temp_is_not_target path) as Hne.
  set (tmp := path +:+ ".tmp") in *. cbv zeta.
  assert (forall e st,
            (forall q, q <> tmp -> files (world st) !! q = files (world s) !! q) ->
            exists r s',
              (log Error ("Failed to write kubeconfig: " +:+ e) ;;;
               ex <- path_exists tmp ;;
               (if ex then os_unlink env tmp else ret tt) ;;;
               ret (@None unit)) st = (r, s') /\
              (forall u, r <> Ok (Some u)) /\
              files (world s') !! path = files (world s) !! path) as Hfail.
  { intros e st Hst.
    destruct (save_handler_outcome env tmp e st) as (r & s' & Hrun & Hfr & Hr).
    exists r, s'. split; [done|]. split.
    - intros u ->. exact Hr.
    - rewrite Hfr, Hst; by try apply not_eq_sym. }
  unfold try_except.
  unfold bind at 1. rewrite open_w_run.
  destruct (io_error env (world s) (OpOpenW tmp)); [by apply Hfail|]. cbn [negb andb].
  unfold bind at 1. rewrite write_file_run.
  cbn [world put_file set_files files dirs now mode content mtime].
  match goal with |- context [io_error env ?w (OpWrite tmp)] =>
    destruct (io_error env w (OpWrite tmp)) end.
  { cbn [negb andb]. apply Hfail. intros q Hq. cbn. by apply lookup_insert_ne. }
  rewrite lookup_insert_eq.
  unfold bind at 1. rewrite os_chmod_run.
  cbn [world put_file set_files files dirs now mode content mtime].
  match goal with |- context [io_error env ?w (OpChmod tmp)] =>
    destruct (io_error env w (OpChmod tmp)) end.
  { cbn [negb andb]. apply Hfail. intros q Hq. cbn. by rewrite !lookup_insert_ne. }
  rewrite lookup_insert_eq.
  unfold bind at 1. rewrite os_rename_run.
  cbn [world put_file set_files files dirs now mode content mtime].
  match goal with |- context [io_error env ?w (OpRename tmp path)] =>
    destruct (io_error env w (OpRename tmp path)) end.
  { cbn [negb andb]. apply Hfail. intros q Hq. cbn. by rewrite !lookup_insert_ne. }
  rewrite lookup_insert_eq.
  eexists _, _. split; [reflexivity|]. cbn [andb negb]. split; [done|].
  unfold saved_as. cbn [files world set_files dirs now trace]. split.
  - split; [by rewrite lookup_insert_eq|]. split; [|split; [|done]].
    + rewrite lookup_insert_ne by done. apply lookup_delete_eq.
    + intros q Hq1 Hq2.
      rewrite lookup_insert_ne, lookup_delete_ne by done.
      by rewrite !lookup_insert_ne by done.
  - exists [EvIo (OpOpenW tmp); EvIo (OpWrite tmp); EvIo (OpChmod tmp);
            EvIo (OpRename tmp path)].
    split; [|done]. cbn. by rewrite <- ?app_assoc.
Qed.

Lemma checksum_run env path s :
  exists sum, _calculate_file_checksum env path s = (Ok sum, s).
Proof.
  unfold _calculate_file_checksum, try_except. unfold bind at 1.
  rewrite read_file_run.
  destruct (io_error env (world s) (OpRead path)); [by eexists|].
  destruct (files (world s) !! path); by eexists.
Qed.

Lemma run_world_secret env cfg k w : run_world env cfg (hosted_command cfg) k w = w.
Proof. unfold run_world. by destruct (dry_run cfg). Qed.

Lemma sleep_if_more_run a s :
  exists s', sleep_if_more a s = (Ok None, s') /\ files (world s') = files (world s).
Proof.
  unfold sleep_if_more. destruct (a <? max_retries)%nat.
  - rewrite bind_sleep. by eexists.
  - by eexists.
Qed.

(** The rest of a hosted attempt once the file is written (lines 218-236). *)
Definition hosted_validate (env : Env) (cfg : InstallConfig) (path : string) (a : nat)
    : M (option bool) :=
  valid <- _validate_kubeconfig_file env path "hosted" ;;
  if valid then
    sum <- _calculate_file_checksum env path ;;
    store_info path (hosted_cluster_name cfg) "hosted" sum ;;;
    log Info "Hosted kubeconfig created and validated successfully" ;;;
    ret (Some true)
  else
    log Warning ("Kubeconfig validation failed on attempt " +:+ pretty a) ;;;
    sleep_if_more a.

(** It answers [True] when the written file passes the structural
    validator, otherwise goes on to the next attempt; no file is touched. *)
Lemma hosted_validate_run env cfg path a s :
  exists s',
    hosted_validate env cfg path a s =
      (Ok (if structure_ok env (world s) path then Some true else None), s') /\
    files (world s') = files (world s).
Proof.
  unfold hosted_validate. unfold bind at 1.
  pose proof (validate_result env path "hosted" s) as Hres.
  destruct (_validate_kubeconfig_file env path "hosted" s) as [rv s1] eqn:Ev.
  cbn in Hres. subst rv. apply validate_quietly in Ev as [Hw1 _].
  destruct (structure_ok env (world s) path).
  - unfold bind at 1. destruct (checksum_run env path s1) as [sum ->].
    eexists. split; [done|]. cbn. by rewrite Hw1.
  - rewrite bind_log.
    destruct (sleep_if_more_run a
                (add_events [EvLog Warning ("Kubeconfig validation failed on attempt "
                                            +:+ pretty a)] s1)) as (s' & -> & Hf).
    eexists. split; [done|]. rewrite Hf. cbn. by rewrite Hw1.
Qed.

(** A hosted attempt whose secret decodes: the write block, then the
    validation, inside the attempt's own [try]. *)
Lemma hosted_attempt_decoded env cfg a s data :
  hosted_fetch env cfg (world s) = Some data ->
  hosted_attempt env cfg (kubeconfig_hosted_path cfg) a s =
    try_except
      (saved <- save_kubeconfig env cfg (kubeconfig_hosted_path cfg) data ;;
       match saved with
       | Some _ => hosted_validate env cfg (kubeconfig_hosted_path cfg) a
       | None => ret None
       end)
      (fun e =>
         log Error ("Exception during attempt " +:+ pretty a +:+ ": " +:+ e) ;;;
         sleep_if_more a)
      (add_events
         [EvLog Info (attempt_label a +:+ ": Extracting hosted cluster credentials...");
          EvRun (hosted_command cfg) (kubeconfig_gke_path cfg) true] s).
Proof.
  intros Hfetch. rewrite hosted_fetch_result in Hfetch. cbv zeta in Hfetch.
  unfold hosted_attempt, try_except.
  rewrite bind_log, bind_run, run_world_secret.
  cbn [world trace kubeconfig_info add_events].
  destruct (run_result env cfg (world s) (hosted_command cfg) (kubeconfig_gke_path cfg)
              true 60) as [ok out]. cbn [fst snd] in *.
  destruct (negb ok || String.eqb (strip out) "") eqn:Hempty; [done|].
  assert (ok = true) as -> by (by destruct ok).
  rewrite <- app_assoc. cbn [app].
  unfold bind at 1. cbv beta. unfold bind at 1.
  match goal with |- context [decode_kubeconfig env out ?st] =>
    destruct (decode_kubeconfig_run env out st) as [e ->] end.
  by rewrite Hfetch.
Qed.

(** ** The management role writes in place *)

Lemma structure_ok_exists env w path :
  structure_ok env w path = true -> is_Some (files w !! path).
Proof.
  unfold structure_ok, load_document.
  destruct (io_error env w (OpRead path)); [done|].
  by destruct (files w !! path).
Qed.

(** gcloud leaves the file at the target; the manager validates it, then
    sets mode 0600 and goes on whether or not the chmod went through. *)
Lemma gke_attempt_succeeds env cfg a s :
  gke_fetch env cfg (world s) = true ->
  let path := kubeconfig_gke_path cfg in
  let w1 := run_world env cfg (gke_command cfg) path (world s) in
  structure_ok env w1 path = true ->
  exists s3 evs,
    gke_attempt env cfg path a s = (Ok (Some true), s3) /\
    trace s3 = trace s ++ evs /\
    io_ops evs = (if io_error env w1 (OpChmod path) then [] else [OpChmod path]) /\
    files (world s3) !! path =
      if io_error env w1 (OpChmod path) then files w1 !! path
      else (fun f => mkFile (content f) MODE_0600 (mtime f)) <$> files w1 !! path.
Proof.
  rewrite gke_fetch_result. intros Hfetch path w1 Hstruct.
  destruct (structure_ok_exists _ _ _ Hstruct) as [f Hf].
  unfold gke_attempt, try_except. fold path. fold path in Hfetch.
  rewrite bind_log, bind_run. cbn [world trace kubeconfig_info add_events]. fold w1.
  destruct (run_result env cfg (world s) (gke_command cfg) path false 120) as [ok out].
  cbn in Hfetch. subst ok. cbn [fst snd negb].
  unfold bind at 1. rewrite validate_pass_run by done.
  unfold bind at 1, _set_secure_permissions, try_except.
  unfold bind at 1. rewrite os_chmod_run. cbn [world].
  destruct (io_error env w1 (OpChmod path)).
  - rewrite bind_log. unfold ret at 1.
    unfold bind at 1.
    match goal with |- context [_calculate_file_checksum env path ?st] =>
      destruct (checksum_run env path st) as [sum ->] end.
    eexists _, _. split; [reflexivity|]. cbn. split; [by rewrite <- !app_assoc|].
    by split.
  - rewrite Hf. unfold ret at 1.
    unfold bind at 1.
    match goal with |- context [_calculate_file_checksum env path ?st] =>
      destruct (checksum_run env path st) as [sum ->] end.
    eexists _, _. split; [reflexivity|]. cbn. split; [by rewrite <- !app_assoc|].
    split; [done|]. by rewrite lookup_insert_eq.
Qed.

(** C5, as the code has it.  Hosted role, dry-run off, a secret that
    decodes: the attempt opens [{path}.tmp], writes the decoded content to
    it, sets its mode to 0600 and renames it over the target.  When these
    four operations go through, that is what has happened and nothing else:
    the target holds exactly that content with mode 0600 (no group or world
    bit), the temporary file is gone, no other file changed, and the
    attempt returns [True] if the written file passes the structural
    validator.  When one of them fails, the target is what it was, and the
    attempt is not a failure of the call: its body ends and the loop goes
    on (next attempt, or recovery after the last).  Management role: gcloud
    writes the target in place, without temporary file or rename; the
    manager sets mode 0600 once the file has passed the structural
    validator, and returns [True] whether or not that chmod went
    through. *)
Theorem hosted_write_private_not_terminal env cfg a s data :
  dry_run cfg = false ->
  hosted_fetch env cfg (world s) = Some data ->
  let path := kubeconfig_hosted_path cfg in
  let s1 := add_events
              [EvLog Info (attempt_label a +:+ ": Extracting hosted cluster credentials...");
               EvRun (hosted_command cfg) (kubeconfig_gke_path cfg) true] s in
  (exists r s2,
     save_kubeconfig env cfg path data s1 = (r, s2) /\
     if write_ok env (world s) path data then
       r = Ok (Some tt) /\
       saved_as path data (world s) (world s2) /\
       Z.land MODE_0600 MODE_0077 = 0 /\
       (exists evs, trace s2 = trace s1 ++ evs /\
          io_ops evs = [OpOpenW (path +:+ ".tmp"); OpWrite (path +:+ ".tmp");
                        OpChmod (path +:+ ".tmp"); OpRename (path +:+ ".tmp") path]) /\
       exists s3,
         hosted_attempt env cfg path a s =
           (Ok (if structure_ok env (world s2) path then Some true else None), s3) /\
         files (world s3) = files (world s2)
     else
       (forall u, r <> Ok (Some u)) /\
       files (world s2) !! path = files (world s) !! path /\
       exists s3,
         hosted_attempt env cfg path a s = (Ok None, s3) /\
         files (world s3) !! path = files (world s) !! path) /\
  (forall sg,
     gke_fetch env cfg (world sg) = true ->
     let gpath := kubeconfig_gke_path cfg in
     let w1 := run_world env cfg (gke_command cfg) gpath (world sg) in
     structure_ok env w1 gpath = true ->
     exists s3 evs,
       gke_attempt env cfg gpath a sg = (Ok (Some true), s3) /\
       trace s3 = trace sg ++ evs /\
       io_ops evs = (if io_error env w1 (OpChmod gpath) then [] else [OpChmod gpath]) /\
       files (world s3) !! gpath =
         if io_error env w1 (OpChmod gpath) then files w1 !! gpath
         else (fun f => mkFile (content f) MODE_0600 (mtime f)) <$> files w1 !! gpath).
Proof.
  intros Hdry Hfetch path s1. split.
  - pose proof (hosted_attempt_decoded env cfg a s data Hfetch) as Hres.
    fold path s1 in Hres.
    destruct (hosted_attempt env cfg path a s) as [res s3].
    unfold try_except, bind at 1 in Hres.
    destruct (save_kubeconfig_exact env cfg path data s1 Hdry) as (r & s2 & Hsave & Hr).
    rewrite Hsave in Hres. exists r, s2. split; [done|].
    change (world s1) with (world s) in Hr.
    destruct (write_ok env (world s) path data).
    + destruct Hr as (-> & Hsaved & Hevs).
      split; [done|]. split; [done|]. split; [reflexivity|]. split; [done|].
      destruct (hosted_validate_run env cfg path a s2) as (s3' & Hv & Hf).
      change (valid <- _validate_kubeconfig_file env path "hosted" ;;
              if valid then
                sum <- _calculate_file_checksum env path ;;
                store_info path (hosted_cluster_name cfg) "hosted" sum ;;;
                log Info "Hosted kubeconfig created and validated successfully" ;;;
                ret (Some true)
              else
                log Warning ("Kubeconfig validation failed on attempt " +:+ pretty a) ;;;
                sleep_if_more a) with (hosted_validate env cfg path a) in Hres.
      rewrite Hv in Hres. injection Hres as -> ->. by exists s3'.
    + destruct Hr as (Hnot & Hpath). split; [done|]. split; [done|].
      destruct r as [[u|]|e'].
      * by destruct (Hnot u).
      * injection Hres as -> ->. by eexists.
      * rewrite bind_log in Hres.
        match type of Hres with context [sleep_if_more a ?st] =>
          destruct (sleep_if_more_run a st) as (s3' & Hsl & Hf) end.
        rewrite Hsl in Hres. injection Hres as -> ->. eexists. split; [done|].
        by rewrite Hf.
  - intros sg Hg gpath w1 Hstruct. by apply gke_attempt_succeeds.
Qed.


(** The secret is there and decodes to the sound document. *)
Definition secret_up : World -> Command -> string -> Z -> ProcOutcome :=
  fun _ cmd _ _ =>
    match cmd with
    | GetSecret _ => Completed 0 "Z29vZA==" ""
    | _ => Completed 0 "" ""
    end.

Definition empty_state : State := start (world_of [] 100).

Lemma hosted_write_private_not_terminal_witness :
  let env := toy_env secret_up writes_nothing no_io_error in
  let cfg := toy_cfg in
  let a := 1%nat in
  let s := empty_state in
  let data := "good" in
  let path := kubeconfig_hosted_path cfg in
  let s1 := add_events
              [EvLog Info (attempt_label a +:+ ": Extracting hosted cluster credentials...");
               EvRun (hosted_command cfg) (kubeconfig_gke_path cfg) true] s in
  write_ok env (world s) path data = true /\
  (exists r s2,
     save_kubeconfig env cfg path data s1 = (r, s2) /\
     (r = Ok (Some tt) /\
       saved_as path data (world s) (world s2) /\
       Z.land MODE_0600 MODE_0077 = 0 /\
       (exists evs, trace s2 = trace s1 ++ evs /\
          io_ops evs = [OpOpenW (path +:+ ".tmp"); OpWrite (path +:+ ".tmp");
                        OpChmod (path +:+ ".tmp"); OpRename (path +:+ ".tmp") path]) /\
       exists s3,
         hosted_attempt env cfg path a s =
           (Ok (if structure_ok env (world s2) path then Some true else None), s3) /\
         files (world s3) = files (world s2))).
Proof.
  split; [vm_compute; reflexivity|].
  apply (hosted_write_private_not_terminal
           (toy_env secret_up writes_nothing no_io_error) toy_cfg 1 empty_state "good").
  - reflexivity.
  - vm_compute. reflexivity.
Defined.

(** The hosted role on a clean start, computed: temporary file, chmod,
    rename; the target ends up with the decoded content and mode 0600. *)
Example hosted_clean_create :
  let run := create_hosted_kubeconfig (toy_env secret_up writes_nothing no_io_error)
               toy_cfg false empty_state in
  run.1 = Ok true /\
  steps (trace run.2) = [Attempt] /\
  io_ops (trace run.2) =
    [OpOpenW "/tmp/kubeconfig-hosted.tmp"; OpWrite "/tmp/kubeconfig-hosted.tmp";
     OpChmod "/tmp/kubeconfig-hosted.tmp";
     OpRename "/tmp/kubeconfig-hosted.tmp" "/tmp/kubeconfig-hosted"] /\
  files (world run.2) !! "/tmp/kubeconfig-hosted" = Some (mkFile "good" 384 100) /\
  files (world run.2) !! "/tmp/kubeconfig-hosted.tmp" = None /\
  glob_backups (world run.2) "/tmp/kubeconfig-hosted" = [].
Proof. vm_compute. by repeat split. Qed.

(** gcloud leaves a world-readable (0644) but sound file. *)
Definition writes_world_readable : World -> string -> option (string * Z) :=
  fun _ _ => Some ("good", 420).

Definition no_chmod : World -> IoOp -> bool :=
  fun _ op => match op with OpChmod _ => true | _ => false end.

(** C5 as stated fails for the management role.  With every file operation
    working, a successful acquisition involves no temporary file and no
    rename: the only file operation of the manager is the chmod of the
    target.  And when that chmod fails, the call still returns [True] after
    one attempt, leaving the credential file with mode 0644. *)
Lemma temp_file_both_roles_counterexample :
  let path := "/tmp/kubeconfig-gke" in
  let fine := create_gke_kubeconfig
                (toy_env always_up writes_world_readable no_io_error)
                toy_cfg true empty_state in
  let failing := create_gke_kubeconfig
                   (toy_env always_up writes_world_readable no_chmod)
                   toy_cfg true empty_state in
  (fine.1 = Ok true /\ steps (trace fine.2) = [Attempt] /\
   io_ops (trace fine.2) = [OpChmod path]) /\
  (failing.1 = Ok true /\ steps (trace failing.2) = [Attempt] /\
   io_ops (trace failing.2) = [] /\
   files (world failing.2) !! path = Some (mkFile "good" 420 100) /\
   Z.land 420 MODE_0077 <> 0).
Proof. vm_compute. by repeat split. Qed.

(** Writing fails at the temporary file: three attempts, the loop goes on
    each time (this path has no sleep before the next attempt), recovery
    finds no backup. *)
Definition no_open : World -> IoOp -> bool :=
  fun _ op => match op with OpOpenW _ => true | _ => false end.

Example hosted_write_failure_goes_on :
  let run := create_hosted_kubeconfig (toy_env secret_up writes_nothing no_open)
               toy_cfg true empty_state in
  run.1 = Ok false /\
  steps (trace run.2) = [Attempt; Attempt; Attempt] /\
  files (world run.2) = files (world empty_state).
Proof. vm_compute. by repeat split. Qed.

(** ** Refreshing both *)





(** With the management cluster down, refresh stops after the first phase:
    [False], no secret read, a last line that names the management
    credential. *)
Example refresh_stops_after_gke :
  let run := refresh_kubeconfigs (toy_env always_down writes_nothing no_io_error)
               toy_cfg permissive_state in
  run.1 = Ok false /\
  omap (fun e => match e with EvRun (GetSecret h) _ _ => Some h | _ => None end)
       (trace run.2) = [] /\
  last (trace run.2) = Some (EvLog Error "Failed to refresh GKE kubeconfig").
Proof. vm_compute. by repeat split. Qed.

(** With both up, the management credential is acquired before the hosted
    one. *)
Definition both_up : World -> Command -> string -> Z -> ProcOutcome :=
  fun _ cmd _ _ =>
    match cmd with
    | GetSecret _ => Completed 0 "Z29vZA==" ""
    | _ => Completed 0 "" ""
    end.

Definition writes_good : World -> string -> option (string * Z) :=
  fun _ _ => Some ("good", MODE_0600).

Example refresh_order :
  let run := refresh_kubeconfigs (toy_env both_up writes_good no_io_error)
               toy_cfg empty_state in
  run.1 = Ok true /\
  omap (fun e => match e with
                 | EvRun (GetCredentials _ _ _) _ _ => Some "gke"
                 | EvRun (GetSecret _) _ _ => Some "hosted"
                 | _ => None
                 end) (trace run.2) = ["gke"; "hosted"].
Proof. vm_compute. by repeat split. Qed.
(** * The rest of the manager *)

(** ** What leaves [kubeconfig_info] alone *)

Definition same_info {A} (m : M A) : Prop :=
  forall s r s', m s = (r, s') -> kubeconfig_info s' = kubeconfig_info s.

Lemma same_info_ret {A} (a : A) : same_info (ret a).
Proof. by intros s r s' [= <- <-]. Qed.

Lemma same_info_raise {A} e : same_info (@raise A e).
Proof. by intros s r s' [= <- <-]. Qed.

Lemma same_info_bind {A B} (m : M A) (k : A -> M B) :
  same_info m -> (forall a, same_info (k a)) -> same_info (bind m k).
Proof.
  intros Hm Hk s r s' Hrun. unfold bind in Hrun.
  destruct (m s) as [[a|e] s1] eqn:Em.
  - rewrite (Hk a s1 r s' Hrun). by eapply Hm.
  - injection Hrun as <- <-. by eapply Hm.
Qed.

Lemma same_info_try {A} (m : M A) (h : string -> M A) :
  same_info m -> (forall e, same_info (h e)) -> same_info (try_except m h).
Proof.
  intros Hm Hh s r s' Hrun. unfold try_except in Hrun.
  destruct (m s) as [[a|e] s1] eqn:Em.
  - injection Hrun as <- <-. by eapply Hm.
  - rewrite (Hh e s1 r s' Hrun). by eapply Hm.
Qed.

Lemma same_info_emit e : same_info (emit e).
Proof. by intros s r s' [= <- <-]. Qed.

Lemma same_info_log lvl msg : same_info (log lvl msg).
Proof. apply same_info_emit. Qed.

Lemma same_info_get_world : same_info get_world.
Proof. by intros s r s' [= <- <-]. Qed.

Lemma same_info_set_world w : same_info (set_world w).
Proof. by intros s r s' [= <- <-]. Qed.

Lemma same_info_io_guard env op : same_info (io_guard env op).
Proof.
  intros s r s' Hrun. unfold io_guard in Hrun.
  destruct (io_error env (world s) op); by injection Hrun as <- <-.
Qed.

Lemma same_info_update_files f : same_info (update_files f).
Proof. by intros s r s' [= <- <-]. Qed.

Lemma same_info_path_exists p : same_info (path_exists p).
Proof. by intros s r s' [= <- <-]. Qed.

Ltac same_info_auto :=
  repeat first
    [ solve [auto]
    | apply same_info_ret | apply same_info_raise | apply same_info_get_world
    | apply same_info_set_world | apply same_info_io_guard
    | apply same_info_update_files | apply same_info_path_exists
    | apply same_info_log | apply same_info_emit
    | apply same_info_bind; [|intros]
    | apply same_info_try; [|intros]
    | match goal with
      | |- same_info (if ?c then _ else _) => destruct c
      | |- same_info (match ?x with _ => _ end) => destruct x
      end ].

Lemma same_info_os_stat env p : same_info (os_stat env p).
Proof. unfold os_stat. same_info_auto. Qed.

Lemma same_info_read_file env p : same_info (read_file env p).
Proof. unfold read_file. same_info_auto. Qed.

Lemma same_info_open_w env p : same_info (open_w env p).
Proof. unfold open_w. same_info_auto. Qed.

Lemma same_info_write_file env p data : same_info (write_file env p data).
Proof. unfold write_file. same_info_auto. Qed.

Lemma same_info_os_chmod env p m : same_info (os_chmod env p m).
Proof. unfold os_chmod. same_info_auto. Qed.

Lemma same_info_os_rename env src dst : same_info (os_rename env src dst).
Proof. unfold os_rename. same_info_auto. Qed.

Lemma same_info_os_unlink env p : same_info (os_unlink env p).
Proof. unfold os_unlink. same_info_auto. Qed.

Lemma same_info_mkdir_p env d m : same_info (mkdir_p env d m).
Proof. unfold mkdir_p. same_info_auto. Qed.

Lemma same_info_sleep secs : same_info (sleep secs).
Proof. unfold sleep. same_info_auto. Qed.

Lemma same_info_runner_run env cfg cmd k co t :
  same_info (runner_run env cfg cmd k co t).
Proof. unfold runner_run. same_info_auto. Qed.

Lemma same_info_all_nonempty keys d : same_info (all_nonempty keys d).
Proof. induction keys as [|key keys IH]; cbn; same_info_auto. Qed.

Lemma same_info_validate env path ct : same_info (_validate_kubeconfig_file env path ct).
Proof.
  unfold _validate_kubeconfig_file, yaml_safe_load.
  pose proof same_info_all_nonempty. pose proof (same_info_read_file env).
  same_info_auto.
Qed.

Lemma same_info_is_valid env cfg path ct :
  same_info (_is_kubeconfig_valid env cfg path ct).
Proof.
  unfold _is_kubeconfig_valid, _test_kubeconfig_connectivity.
  pose proof (same_info_validate env). pose proof (same_info_os_stat env).
  pose proof (same_info_runner_run env cfg).
  same_info_auto.
Qed.

(** ** validate_all_kubeconfigs (lines 246-267) *)

Definition validate_all_kubeconfigs (env : Env) (cfg : InstallConfig) : M bool :=
  log Info "Validating all kubeconfig files..." ;;;
  gke_valid <- _is_kubeconfig_valid env cfg (kubeconfig_gke_path cfg) "gke" ;;
  hosted_valid <- _is_kubeconfig_valid env cfg (kubeconfig_hosted_path cfg) "hosted" ;;
  if gke_valid && hosted_valid then
    log Info "All kubeconfig files are valid" ;;;
    ret true
  else
    (if negb gke_valid then
       log Error ("GKE kubeconfig invalid: " +:+ kubeconfig_gke_path cfg)
     else ret tt) ;;;
    (if negb hosted_valid then
       log Error ("Hosted kubeconfig invalid: " +:+ kubeconfig_hosted_path cfg)
     else ret tt) ;;;
    ret false.

(** The lines the validation ends with. *)
Definition verdict (cfg : InstallConfig) (gke_valid hosted_valid : bool) : list Event :=
  if gke_valid && hosted_valid then [EvLog Info "All kubeconfig files are valid"]
  else
    (if gke_valid then []
     else [EvLog Error ("GKE kubeconfig invalid: " +:+ kubeconfig_gke_path cfg)]) ++
    (if hosted_valid then []
     else [EvLog Error ("Hosted kubeconfig invalid: " +:+ kubeconfig_hosted_path cfg)]).


(** The connectivity probes of a run: kubeconfig probed and answer. *)
Definition probes (evs : list Event) : list (string * bool) :=
  omap (fun e => match e with
                 | EvRun ClusterInfo k ok => Some (k, ok)
                 | _ => None
                 end) evs.

(** The probe [_is_kubeconfig_valid] runs on [path] at world [w]: one, when
    the file is there and passes the structural validator, else none. *)
Definition probe_of (env : Env) (cfg : InstallConfig) (w : World) (path : string)
    : list (string * bool) :=
  if bool_decide (is_Some (files w !! path)) && structure_ok env w path
  then [(path, probe_ok env cfg w path)] else [].

Lemma probes_app e1 e2 : probes (e1 ++ e2) = probes e1 ++ probes e2.
Proof. unfold probes. apply omap_app. Qed.

Definition is_log (e : Event) : Prop := exists lvl msg, e = EvLog lvl msg.

Lemma probes_logs evs : Forall is_log evs -> probes evs = [].
Proof.
  induction 1 as [|e evs (lvl & msg & ->) _ IH]; [done|]. exact IH.
Qed.

(** The structural validator only logs. *)
Lemma validate_logs env path ct s :
  exists evs, (_validate_kubeconfig_file env path ct s).2 = add_events evs s /\
              Forall is_log evs.
Proof.
  assert (forall lvl msg, Forall is_log [EvLog lvl msg]) as Hone.
  { intros lvl msg. repeat constructor. by eexists _, _. }
  assert (add_events [] s = s) as Hnil.
  { destruct s. unfold add_events. cbn. by rewrite app_nil_r. }
  unfold _validate_kubeconfig_file, read_file, yaml_safe_load.
  unfold_m. cbn. destruct (io_error env (world s) (OpRead path)); [by eexists [_]|].
  cbn. destruct (files (world s) !! path) as [f|]; [|by eexists [_]]. cbn.
  destruct (safe_load env (content f)) as [[| | |d]|]; try by eexists [_]. cbn.
  destruct (has_key "clusters" d); [|by eexists [_]]. cbn.
  destruct (has_key "contexts" d); [|by eexists [_]]. cbn.
  destruct (has_key "users" d); [|by eexists [_]]. cbn.
  unfold bind, ret.
  destruct (dict_get "clusters" d) as [v1|]; [|by eexists [_]].
  destruct (nonempty_list v1); [|by eexists [_]].
  destruct (dict_get "contexts" d) as [v2|]; [|by eexists [_]].
  destruct (nonempty_list v2); [|by eexists [_]].
  destruct (dict_get "users" d) as [v3|]; [|by eexists [_]].
  destruct (nonempty_list v3); [|by eexists [_]].
  exists []. by rewrite Hnil.
Qed.

(** What [_is_kubeconfig_valid] shows of its probe. *)
Lemma is_valid_probes env cfg path ct s :
  exists evs,
    trace (_is_kubeconfig_valid env cfg path ct s).2 = trace s ++ evs /\
    probes evs = probe_of env cfg (world s) path.
Proof.
  unfold _is_kubeconfig_valid, probe_of. unfold bind at 1, path_exists.
  destruct (bool_decide (is_Some (files (world s) !! path))); cbn [negb andb].
  2:{ exists []. by rewrite app_nil_r. }
  unfold bind at 1.
  assert (exists e1,
            try_except
              (stat_info <- os_stat env path ;;
               if negb (Z.land (mode stat_info) MODE_0077 =? 0) then
                 log Warning ("Kubeconfig " +:+ path +:+ " has overly permissive permissions")
               else ret tt)
              (fun _ => ret tt) s = (Ok tt, add_events e1 s) /\ Forall is_log e1)
    as (e1 & -> & Hl1).
  { assert (add_events [] s = s) as Hnil.
    { destruct s. unfold add_events. cbn. by rewrite app_nil_r. }
    unfold try_except, bind at 1. rewrite os_stat_run.
    destruct (io_error env (world s) (OpStat path)); [exists []; by rewrite Hnil|].
    destruct (files (world s) !! path) as [f|]; [|exists []; by rewrite Hnil].
    destruct (negb (Z.land (mode f) MODE_0077 =? 0)).
    - eexists [_]. split; [reflexivity|]. repeat constructor. by eexists _, _.
    - exists []. by rewrite Hnil. }
  set (s1 := add_events e1 s).
  unfold bind at 1.
  pose proof (validate_result env path ct s1) as Hres.
  destruct (validate_logs env path ct s1) as (e2 & Hs2 & Hl2).
  destruct (_validate_kubeconfig_file env path ct s1) as [rv s2]. cbn in Hres, Hs2.
  subst rv s2. change (world s1) with (world s).
  destruct (structure_ok env (world s) path); cbn [negb].
  2:{ exists (e1 ++ e2). split; [cbn; by rewrite app_assoc|].
      by rewrite probes_app, (probes_logs e1), (probes_logs e2) by done. }
  unfold _test_kubeconfig_connectivity. rewrite bind_run.
  assert ((run_result env cfg (world s) ClusterInfo path false 15).1
          = probe_ok env cfg (world s) path) as Hp.
  { pose proof (connectivity_result env cfg path ct s) as Hc.
    unfold _test_kubeconfig_connectivity in Hc. rewrite bind_run in Hc.
    destruct (negb (run_result env cfg (world s) ClusterInfo path false 15).1) eqn:E;
      cbn in Hc; injection Hc as <-; by destruct (run_result _ _ _ _ _ _ _).1. }
  subst s1. cbn [world add_events trace kubeconfig_info]. rewrite Hp.
  destruct (probe_ok env cfg (world s) path); cbn [negb].
  - exists (e1 ++ e2 ++ [EvRun ClusterInfo path true]).
    split; [cbn; by rewrite <- !app_assoc|].
    by rewrite !probes_app, (probes_logs e1), (probes_logs e2) by done.
  - eexists (e1 ++ e2 ++ [EvRun ClusterInfo path false; _]).
    split; [cbn; rewrite <- !app_assoc; reflexivity|].
    by rewrite !probes_app, (probes_logs e1), (probes_logs e2) by done.
Qed.

Lemma validate_all_exact env cfg s :
  let g := valid_ok env cfg (world s) (kubeconfig_gke_path cfg) in
  let h := valid_ok env cfg (world s) (kubeconfig_hosted_path cfg) in
  exists s' evs,
    validate_all_kubeconfigs env cfg s = (Ok (g && h), s') /\
    world s' = world s /\ kubeconfig_info s' = kubeconfig_info s /\
    trace s' = trace s ++ evs ++ verdict cfg g h /\
    Forall (fun e => calm e = true) evs /\
    probes evs = probe_of env cfg (world s) (kubeconfig_gke_path cfg) ++
                 probe_of env cfg (world s) (kubeconfig_hosted_path cfg).
Proof.
  intros g h. unfold validate_all_kubeconfigs. rewrite bind_log.
  set (s0 := add_events [EvLog Info "Validating all kubeconfig files..."] s).
  unfold bind at 1.
  pose proof (is_valid_result env cfg (kubeconfig_gke_path cfg) "gke" s0) as Hg.
  destruct (is_valid_probes env cfg (kubeconfig_gke_path cfg) "gke" s0) as (p1 & Hp1 & Hpr1).
  destruct (_is_kubeconfig_valid env cfg (kubeconfig_gke_path cfg) "gke" s0)
    as [rg s1] eqn:Eg.
  cbn in Hg, Hp1. subst rg. pose proof (same_info_is_valid _ _ _ _ _ _ _ Eg) as Hi1.
  apply is_valid_quietly in Eg as [Hw1 (e1 & Ht1 & Hc1)].
  rewrite Ht1 in Hp1. apply app_inv_head in Hp1 as <-.
  change (world s0) with (world s) in *. fold g.
  unfold bind at 1.
  pose proof (is_valid_result env cfg (kubeconfig_hosted_path cfg) "hosted" s1) as Hh.
  destruct (is_valid_probes env cfg (kubeconfig_hosted_path cfg) "hosted" s1)
    as (p2 & Hp2 & Hpr2).
  destruct (_is_kubeconfig_valid env cfg (kubeconfig_hosted_path cfg) "hosted" s1)
    as [rh s2] eqn:Eh.
  cbn in Hh, Hp2. subst rh. pose proof (same_info_is_valid _ _ _ _ _ _ _ Eh) as Hi2.
  apply is_valid_quietly in Eh as [Hw2 (e2 & Ht2 & Hc2)].
  rewrite Ht2 in Hp2. apply app_inv_head in Hp2 as <-.
  rewrite Hw1 in *. fold h.
  assert (trace s2 = trace s ++ ([EvLog Info "Validating all kubeconfig files..."]
                                  ++ e1 ++ e2)) as Ht.
  { rewrite Ht2, Ht1. cbn. by rewrite <- !app_assoc. }
  assert (Forall (fun e => calm e = true)
            ([EvLog Info "Validating all kubeconfig files..."] ++ e1 ++ e2)) as Hc.
  { rewrite !Forall_app. split; [by repeat constructor | by split]. }
  exists (add_events (verdict cfg g h) s2),
    ([EvLog Info "Validating all kubeconfig files..."] ++ e1 ++ e2).
  split; [|split; [exact Hw2|split; [by cbn; rewrite Hi2, Hi1|split; [|split; [done|]]]]].
  - unfold verdict. destruct g, h; cbn [andb negb]; rewrite ?bind_log;
      unfold bind, ret, add_events; cbn; by rewrite <- ?app_assoc.
  - cbn [add_events trace]. by rewrite Ht, <- !app_assoc.
  - rewrite !probes_app, Hpr1, Hpr2. done.
Qed.

(** X1. [validate_all_kubeconfigs] looks at both files whatever the first
    check says, the management one first: the connectivity probes it runs
    are that of the management file (when the file is there and passes the
    structural validator), then that of the hosted file, and nothing else
    it does is an attempt, a sleep or a step of recovery.  It returns
    [True] exactly when [_is_kubeconfig_valid] accepts each of the two,
    leaves the world and [kubeconfig_info] as they were, and ends its trace
    with the verdict: one closing line when both are valid, otherwise one
    error line per invalid file, management first.  [Path.exists()], the
    first thing [_is_kubeconfig_valid] does, is an [os.stat] outside every
    [try]; the statement is for the calls in which it answers. *)
Theorem validate_all_kubeconfigs_spec env cfg s :
  io_error env (world s) (OpStat (kubeconfig_gke_path cfg)) = false ->
  io_error env (world s) (OpStat (kubeconfig_hosted_path cfg)) = false ->
  let g := valid_ok env cfg (world s) (kubeconfig_gke_path cfg) in
  let h := valid_ok env cfg (world s) (kubeconfig_hosted_path cfg) in
  (_is_kubeconfig_valid env cfg (kubeconfig_gke_path cfg) "gke" s).1 = Ok g /\
  (_is_kubeconfig_valid env cfg (kubeconfig_hosted_path cfg) "hosted" s).1 = Ok h /\
  exists s' evs,
    validate_all_kubeconfigs env cfg s = (Ok (g && h), s') /\
    world s' = world s /\ kubeconfig_info s' = kubeconfig_info s /\
    trace s' = trace s ++ evs ++ verdict cfg g h /\
    Forall (fun e => calm e = true) evs /\
    probes evs = probe_of env cfg (world s) (kubeconfig_gke_path cfg) ++
                 probe_of env cfg (world s) (kubeconfig_hosted_path cfg).
Proof.
  intros _ _ g h. split; [apply is_valid_result|]. split; [apply is_valid_result|].
  apply validate_all_exact.
Qed.

(** Both files sound, the clusters reachable. *)
Definition both_good_state : State :=
  start (world_of [("/tmp/kubeconfig-gke", mkFile "good" 384 7);
                   ("/tmp/kubeconfig-hosted", mkFile "good" 384 9)] 100).

Lemma validate_all_kubeconfigs_spec_witness :
  let env := toy_env always_up writes_nothing no_io_error in
  let s := both_good_state in
  exists s' evs,
    validate_all_kubeconfigs env toy_cfg s = (Ok true, s') /\
    world s' = world s /\ kubeconfig_info s' = kubeconfig_info s /\
    trace s' = trace s ++ evs ++ [EvLog Info "All kubeconfig files are valid"] /\
    Forall (fun e => calm e = true) evs /\
    probes evs = [("/tmp/kubeconfig-gke", true); ("/tmp/kubeconfig-hosted", true)].
Proof.
  apply (validate_all_kubeconfigs_spec (toy_env always_up writes_nothing no_io_error)
           toy_cfg both_good_state).
  - reflexivity.
  - reflexivity.
Defined.

(** The management file is missing: the hosted file is probed all the
    same. *)
Example validate_all_checks_both :
  let run := validate_all_kubeconfigs (toy_env always_up writes_nothing no_io_error)
               toy_cfg
               (start (world_of [("/tmp/kubeconfig-hosted", mkFile "good" 384 9)] 100)) in
  run.1 = Ok false /\
  probes (trace run.2) = [("/tmp/kubeconfig-hosted", true)] /\
  last (trace run.2) = Some (EvLog Error "GKE kubeconfig invalid: /tmp/kubeconfig-gke").
Proof. vm_compute. by repeat split. Qed.

(** One file sound and reachable, the other missing: one error line. *)
Example validate_all_one_missing :
  let run := validate_all_kubeconfigs (toy_env always_up writes_nothing no_io_error)
               toy_cfg permissive_state in
  run.1 = Ok false /\
  last (trace run.2) = Some (EvLog Error "Hosted kubeconfig invalid: /tmp/kubeconfig-hosted") /\
  omap (fun e => match e with EvLog Error msg => Some msg | _ => None end)
       (trace run.2) = ["Hosted kubeconfig invalid: /tmp/kubeconfig-hosted"].
Proof. vm_compute. by repeat split. Qed.

(** ** The fast path, read off the world *)

Lemma create_fast_path env cfg role s :
  valid_ok env cfg (world s) (target cfg role) = true ->
  exists s', create env cfg role false s = (Ok true, s') /\
             quietly s s' /\ kubeconfig_info s' = kubeconfig_info s.
Proof.
  intros Hv.
  set (s1 := add_events [EvLog Info (creating_message role)] s).
  assert (create env cfg role false s =
          bind (_is_kubeconfig_valid env cfg (target cfg role) (type_name role))
               (fun valid => if valid
                  then bind (log Info (exists_message role)) (fun _ => ret true)
                  else acquire env cfg role) s1) as ->.
  { by destruct role. }
  unfold bind at 1.
  pose proof (is_valid_result env cfg (target cfg role) (type_name role) s1) as Hres.
  destruct (_is_kubeconfig_valid env cfg (target cfg role) (type_name role) s1)
    as [r s2] eqn:Erun.
  cbn in Hres. subst r. change (world s1) with (world s). rewrite Hv.
  pose proof (same_info_is_valid _ _ _ _ _ _ _ Erun) as Hi.
  apply is_valid_quietly in Erun.
  rewrite bind_log. eexists. split; [reflexivity|]. split; [|done].
  eapply quietly_trans; [by apply (quietly_emit (EvLog Info (creating_message role)));
                         destruct role|].
  eapply quietly_trans; [exact Erun|].
  by apply quietly_emit; destruct role.
Qed.



(** * What every call guarantees *)

(** ** Success, attempts and sleeps *)

(** The three required sections, each a non-empty list, in a document that
    parses to a mapping: what [_validate_kubeconfig_file] asks of the
    content. *)
Definition document_ok (env : Env) (data : string) : bool :=
  match safe_load env data with
  | Some (YDict d) => forallb (section_ok d) required_keys
  | _ => false
  end.

(** The file is there and holds such a document. *)
Definition sound (env : Env) (w : World) (path : string) : Prop :=
  exists f, files w !! path = Some f /\ document_ok env (content f) = true.

Lemma structure_ok_sound env w path :
  structure_ok env w path = true -> sound env w path.
Proof.
  unfold structure_ok, load_document, sound, document_ok.
  destruct (io_error env w (OpRead path)); [done|].
  destruct (files w !! path) as [f|]; [|done]. intros H. by exists f.
Qed.

Lemma sound_structure_ok env w path :
  sound env w path -> io_error env w (OpRead path) = false ->
  structure_ok env w path = true.
Proof.
  intros (f & Hf & Hdoc) Hio. unfold structure_ok, load_document.
  by rewrite Hio, Hf.
Qed.

Lemma valid_ok_sound env cfg w path :
  valid_ok env cfg w path = true -> sound env w path.
Proof.
  unfold valid_ok. intros H. apply andb_prop in H as [H _].
  apply andb_prop in H as [_ H]. by apply structure_ok_sound.
Qed.

Definition attempts_made (evs : list Event) : nat :=
  length (filter (fun st => st = Attempt) (steps evs)).

Definition time_slept (evs : list Event) : Z :=
  foldr (fun st acc => match st with Sleep n => n + acc | Attempt => acc end) 0
        (steps evs).

(** Every step is an attempt or a sleep of [retry_delay]. *)
Definition step_ok (st : Step) : Prop := st = Attempt \/ st = Sleep retry_delay.

(** Between one and [max_retries] attempts, and sleeps of [retry_delay]
    seconds only, fewer of them than attempts. *)
Definition paced (evs : list Event) : Prop :=
  (1 <= attempts_made evs <= max_retries)%nat /\
  0 <= time_slept evs <= retry_delay * (Z.of_nat (attempts_made evs) - 1) /\
  Forall step_ok (steps evs).

Lemma attempts_made_app e1 e2 :
  attempts_made (e1 ++ e2) = (attempts_made e1 + attempts_made e2)%nat.
Proof. unfold attempts_made. by rewrite steps_app, filter_app, length_app. Qed.

Lemma time_slept_app e1 e2 : time_slept (e1 ++ e2) = time_slept e1 + time_slept e2.
Proof.
  unfold time_slept. rewrite steps_app.
  induction (steps e1) as [|st l IH]; [done|]. cbn. rewrite IH. destruct st; lia.
Qed.

Lemma stepless_counts evs :
  steps evs = [] ->
  attempts_made evs = 0%nat /\ time_slept evs = 0 /\ Forall step_ok (steps evs).
Proof. unfold attempts_made, time_slept. by intros ->. Qed.

(** What one attempt shows: the acquisition command, then at most the
    sleep before the next attempt. *)
Definition attempt_shape (a : nat) (r : option bool) (evs : list Event) : Prop :=
  steps evs = [Attempt] \/
  ((a < max_retries)%nat /\ r = None /\ steps evs = [Attempt; Sleep retry_delay]).

Lemma shape_counts a r evs :
  attempt_shape a r evs ->
  attempts_made evs = 1%nat /\ Forall step_ok (steps evs) /\
  (time_slept evs = 0 \/
   ((a < max_retries)%nat /\ r = None /\ time_slept evs = retry_delay)).
Proof.
  unfold attempts_made, time_slept.
  intros [->|(Ha & Hr & ->)].
  - split; [done|]. split; [|by left]. repeat constructor.
  - split; [done|]. split; [|by right]. repeat constructor; by right.
Qed.

Definition attempt_outcome (env : Env) (cfg : InstallConfig) (role : Role) (a : nat)
    (s : State) (r : option bool) (s' : State) : Prop :=
  exists evs, trace s' = trace s ++ evs /\ attempt_shape a r evs /\
    (r = Some true -> sound env (world s') (target cfg role)).

(** ** Recovery, whatever the backups are *)

Lemma recovery_outcome env cfg path ct s :
  exists r s' rest,
    _attempt_recovery env cfg path ct s = (r, s') /\
    trace s' = trace s ++ EvLog Warning (recovery_message ct) :: rest /\
    steps rest = [] /\
    (r = Ok true -> sound env (world s') path) /\
    ((forall p, is_backup_of path p = true ->
        io_error env (world s) (OpStat p) = false) -> exists b, r = Ok b).
Proof.
  destruct (_attempt_recovery env cfg path ct s) as [r s'] eqn:Erun.
  destruct (recovery_trace _ _ _ _ _ _ _ Erun) as (rest & Ht & Hrest).
  exists r, s', rest. split; [done|]. split; [done|]. split; [done|].
  unfold _attempt_recovery in Erun. rewrite bind_log in Erun.
  set (s1 := add_events [EvLog Warning (recovery_message ct)] s) in Erun.
  unfold bind at 1, get_world in Erun. change (world s1) with (world s) in Erun.
  unfold bind at 1 in Erun.
  destruct (stat_keys env (glob_backups (world s) path) s1) as [[keyed|e] s2] eqn:Ek.
  - apply stat_keys_run in Ek as [-> _].
    destruct (recovery_loop_run env cfg path ct (map fst (sort_desc keyed)) s1)
      as (r0 & s0 & evs & Hrun & _ & Hcase).
    rewrite Hrun in Erun. injection Erun as <- <-.
    split; [|by eexists].
    intros [= ->].
    destruct Hcase as [(pre & b & post & f & _ & _ & Htaken & Hf & _ & _ & Hw)
                      |(_ & [=] & _)].
    change (world s1) with (world s) in *.
    unfold taken in Htaken. apply andb_prop in Htaken as [Hv _].
    apply valid_ok_sound in Hv as (f' & Hf' & Hdoc).
    rewrite Hf in Hf'. injection Hf' as <-.
    exists f. split; [|done]. rewrite Hw. cbn. apply lookup_insert_eq.
  - injection Erun as <- <-. split; [done|]. intros Hstat.
    destruct (stat_keys_ok env (glob_backups (world s) path) s1) as [keyed Hk].
    { intros p Hp. apply glob_backups_spec in Hp as [Hex Hb].
      split; [by apply Hstat | done]. }
    by rewrite Hk in Ek.
Qed.

(** ** One attempt, whatever the outside answers *)

Lemma steps_log lvl msg evs : steps (EvLog lvl msg :: evs) = steps evs.
Proof. done. Qed.

Lemma failed_attempt_outcome env cfg role a s :
  acquired env cfg role (world s) = false ->
  exists r s', attempt env cfg role a s = (Ok r, s') /\
               attempt_outcome env cfg role a s r s'.
Proof.
  intros Hf.
  destruct (attempt_fails env cfg role a s Hf) as (s1 & evs & Ht & Hsteps & _ & Hafter).
  unfold after_failure in Hafter. destruct (a <? max_retries)%nat eqn:Ha.
  - destruct Hafter as (s2 & evs2 & Hr & Ht2 & Hs2 & _). rewrite Hr.
    exists None, s2. split; [done|].
    exists (evs ++ evs2). split; [by rewrite Ht2, Ht, app_assoc|]. split; [|done].
    right. apply Nat.ltb_lt in Ha. split; [done|]. split; [done|].
    by rewrite steps_app, Hsteps, Hs2.
  - destruct Hafter as (evs2 & _ & Hs2 & Hr). rewrite Hr.
    destruct (recovery_outcome env cfg (target cfg role) (type_name role)
                (add_events evs2 s1)) as (r0 & s4 & rest & Hrec & Ht4 & Hrest & Hsound & _).
    rewrite Hrec. destruct r0 as [b|e].
    + exists (Some b), s4. split; [done|].
      exists (evs ++ evs2 ++ EvLog Warning (recovery_message (type_name role)) :: rest).
      split; [rewrite Ht4; cbn; by rewrite Ht, <- !app_assoc|]. split.
      * left. by rewrite !steps_app, steps_log, Hsteps, Hs2, Hrest.
      * intros [= ->]. by apply Hsound.
    + eexists None, _. split; [done|].
      exists (evs ++ evs2 ++ EvLog Warning (recovery_message (type_name role)) :: rest
              ++ [EvLog Error ("Exception during attempt " +:+ pretty a +:+ ": " +:+ e)]).
      split; [cbn; rewrite Ht4; cbn; rewrite Ht, <- !app_assoc; cbn;
              by rewrite <- ?app_assoc|].
      split; [|done].
      left. by rewrite !steps_app, steps_log, steps_app, Hsteps, Hs2, Hrest.
Qed.

Lemma sleep_if_more_outcome a s :
  exists s' evs, sleep_if_more a s = (Ok None, s') /\
    trace s' = trace s ++ evs /\ files (world s') = files (world s) /\
    (steps evs = [] \/ ((a < max_retries)%nat /\ steps evs = [Sleep retry_delay])).
Proof.
  unfold sleep_if_more. destruct (a <? max_retries)%nat eqn:Ha.
  - rewrite bind_sleep. eexists _, [EvSleep retry_delay]. split; [done|].
    split; [done|]. split; [done|]. right. by apply Nat.ltb_lt in Ha.
  - exists s, []. split; [done|]. split; [by rewrite app_nil_r|]. split; [done|]. by left.
Qed.

Lemma gke_attempt_fetched env cfg a s :
  gke_fetch env cfg (world s) = true ->
  exists r s', gke_attempt env cfg (kubeconfig_gke_path cfg) a s = (Ok r, s') /\
               attempt_outcome env cfg Gke a s r s'.
Proof.
  rewrite gke_fetch_result. intros Hfetch.
  unfold attempt_outcome. cbn [target].
  set (path := kubeconfig_gke_path cfg) in *.
  set (w1 := run_world env cfg (gke_command cfg) path (world s)).
  unfold gke_attempt, try_except.
  rewrite bind_log, bind_run. cbn [world trace kubeconfig_info add_events]. fold w1.
  destruct (run_result env cfg (world s) (gke_command cfg) path false 120) as [ok out].
  cbn in Hfetch. subst ok. cbn [fst snd negb].
  match goal with |- context [bind (_validate_kubeconfig_file env path "gke") _ ?st] =>
    set (s1 := st) end.
  assert (trace s1 = trace s ++ [EvLog Info (attempt_label a +:+ ": Getting GKE credentials...");
                                 EvRun (gke_command cfg) path true]) as Ht1.
  { subst s1. cbn. by rewrite <- app_assoc. }
  destruct (structure_ok env w1 path) eqn:Hs.
  - (* the file passes: permissions, checksum, record, success *)
    destruct (structure_ok_sound _ _ _ Hs) as (f & Hf & Hdoc).
    unfold bind at 1. rewrite validate_pass_run by done.
    unfold bind at 1, _set_secure_permissions, try_except.
    unfold bind at 1. rewrite os_chmod_run. change (world s1) with w1.
    destruct (io_error env w1 (OpChmod path)).
    + rewrite bind_log. unfold ret at 1. unfold bind at 1.
      match goal with |- context [_calculate_file_checksum env path ?st] =>
        destruct (checksum_run env path st) as [sum ->] end.
      eexists _, _. split; [reflexivity|].
      eexists ([EvLog Info (attempt_label a +:+ ": Getting GKE credentials...");
                EvRun (gke_command cfg) path true] ++ [_; _]).
      split; [cbn; by rewrite <- !app_assoc|].
      split; [by left|]. intros _. exists f. by split.
    + rewrite Hf. unfold ret at 1. unfold bind at 1.
      match goal with |- context [_calculate_file_checksum env path ?st] =>
        destruct (checksum_run env path st) as [sum ->] end.
      eexists _, _. split; [reflexivity|].
      eexists ([EvLog Info (attempt_label a +:+ ": Getting GKE credentials...");
                EvRun (gke_command cfg) path true] ++ [_; _]).
      split; [cbn; by rewrite <- !app_assoc|].
      split; [by left|]. intros _. eexists.
      split; [cbn; apply lookup_insert_eq | done].
  - (* the file does not pass: on to the next attempt *)
    unfold bind at 1.
    pose proof (validate_result env path "gke" s1) as Hres.
    destruct (_validate_kubeconfig_file env path "gke" s1) as [rv s2] eqn:Ev.
    cbn in Hres. change (world s1) with w1 in Hres. rewrite Hs in Hres. subst rv.
    apply validate_quietly in Ev as [Hw2 (e2 & Ht2 & Hc2)].
    rewrite bind_log.
    match goal with |- context [sleep_if_more a ?st] =>
      destruct (sleep_if_more_outcome a st) as (s3 & e3 & -> & Ht3 & _ & Hs3) end.
    exists None, s3. split; [done|].
    exists ([EvLog Info (attempt_label a +:+ ": Getting GKE credentials...");
             EvRun (gke_command cfg) path true] ++ e2 ++
            [EvLog Warning ("Kubeconfig validation failed on attempt " +:+ pretty a)] ++ e3).
    split; [rewrite Ht3; cbn; rewrite Ht2, Ht1; by rewrite <- !app_assoc|].
    split; [|done]. unfold attempt_shape.
    rewrite !steps_app, (steps_calm e2) by done.
    destruct Hs3 as [->|[Ha ->]]; [by left | by right].
Qed.

(** ** The hosted attempt once the secret has decoded *)

Lemma save_stepless env cfg path data s r s' :
  save_kubeconfig env cfg path data s = (r, s') ->
  exists evs, trace s' = trace s ++ evs /\ steps evs = [].
Proof.
  intros Hrun.
  assert (keeps (fun e => step_of e = None) (fun _ _ => True)
            (save_kubeconfig env cfg path data)) as Hk.
  { apply keeps_save_kubeconfig with (may_write := fun _ => True)
                                     (may_delete := fun _ => True);
      first [done | apply anything_goes | apply calm_stepless]. }
  destruct (Hk _ _ _ Hrun) as [_ (evs & Ht & Hall)].
  exists evs. split; [done|]. by apply steps_none.
Qed.

Lemma hosted_validate_outcome env cfg path a s :
  exists r s' evs,
    hosted_validate env cfg path a s = (Ok r, s') /\
    trace s' = trace s ++ evs /\
    (steps evs = [] \/
     ((a < max_retries)%nat /\ r = None /\ steps evs = [Sleep retry_delay])) /\
    (r = Some true -> sound env (world s') path).
Proof.
  unfold hosted_validate.
  destruct (structure_ok env (world s) path) eqn:Hs.
  - unfold bind at 1. rewrite validate_pass_run by done.
    unfold bind at 1. destruct (checksum_run env path s) as [sum ->].
    eexists _, _, [_]. split; [reflexivity|]. split; [done|]. split; [by left|].
    intros _. cbn. by apply structure_ok_sound.
  - unfold bind at 1.
    pose proof (validate_result env path "hosted" s) as Hres.
    destruct (_validate_kubeconfig_file env path "hosted" s) as [rv s2] eqn:Ev.
    cbn in Hres. rewrite Hs in Hres. subst rv.
    apply validate_quietly in Ev as [Hw2 (e2 & Ht2 & Hc2)].
    rewrite bind_log.
    match goal with |- context [sleep_if_more a ?st] =>
      destruct (sleep_if_more_outcome a st) as (s3 & e3 & -> & Ht3 & _ & Hs3) end.
    exists None, s3,
      (e2 ++ [EvLog Warning ("Kubeconfig validation failed on attempt " +:+ pretty a)]
          ++ e3).
    split; [done|].
    split; [rewrite Ht3; cbn; rewrite Ht2; by rewrite <- !app_assoc|].
    split; [|done].
    rewrite !steps_app, (steps_calm e2) by done.
    destruct Hs3 as [->|[Ha ->]]; [by left | by right].
Qed.

Lemma hosted_attempt_fetched env cfg a s data :
  hosted_fetch env cfg (world s) = Some data ->
  exists r s', hosted_attempt env cfg (kubeconfig_hosted_path cfg) a s = (Ok r, s') /\
               attempt_outcome env cfg Hosted a s r s'.
Proof.
  intros Hf. rewrite (hosted_attempt_decoded env cfg a s data Hf).
  unfold attempt_outcome. cbn [target].
  set (path := kubeconfig_hosted_path cfg).
  set (e1 := [EvLog Info (attempt_label a +:+ ": Extracting hosted cluster credentials...");
              EvRun (hosted_command cfg) (kubeconfig_gke_path cfg) true]).
  set (s1 := add_events e1 s).
  assert (steps e1 = [Attempt]) as Hs1 by done.
  unfold try_except, bind at 1.
  destruct (save_kubeconfig env cfg path data s1) as [rs s2] eqn:Es.
  destruct (save_stepless _ _ _ _ _ _ _ Es) as (e2 & Ht2 & Hs2).
  destruct rs as [[u|]|e].
  - destruct (hosted_validate_outcome env cfg path a s2)
      as (r & s3 & e3 & -> & Ht3 & Hsh & Hsound).
    exists r, s3. split; [done|]. exists (e1 ++ e2 ++ e3).
    split; [rewrite Ht3, Ht2; cbn; by rewrite <- !app_assoc|]. split; [|done].
    unfold attempt_shape. rewrite !steps_app, Hs1, Hs2.
    destruct Hsh as [->|(Ha & Hr & ->)]; [by left | by right].
  - exists None, s2. split; [done|]. exists (e1 ++ e2).
    split; [rewrite Ht2; cbn; by rewrite <- !app_assoc|]. split; [|done].
    left. by rewrite steps_app, Hs1, Hs2.
  - rewrite bind_log.
    match goal with |- context [sleep_if_more a ?st] =>
      destruct (sleep_if_more_outcome a st) as (s3 & e3 & -> & Ht3 & _ & Hs3) end.
    exists None, s3. split; [done|].
    exists (e1 ++ e2 ++
            [EvLog Error ("Exception during attempt " +:+ pretty a +:+ ": " +:+ e)] ++ e3).
    split; [rewrite Ht3; cbn; rewrite Ht2; cbn; by rewrite <- !app_assoc|].
    split; [|done]. unfold attempt_shape.
    rewrite !steps_app, Hs1, Hs2.
    destruct Hs3 as [->|[Ha ->]]; [by left | by right].
Qed.

Lemma attempt_total env cfg role a s :
  exists r s', attempt env cfg role a s = (Ok r, s') /\
               attempt_outcome env cfg role a s r s'.
Proof.
  destruct role.
  - destruct (gke_fetch env cfg (world s)) eqn:Hf.
    + by apply gke_attempt_fetched.
    + by apply (failed_attempt_outcome env cfg Gke).
  - destruct (hosted_fetch env cfg (world s)) as [data|] eqn:Hf.
    + by eapply hosted_attempt_fetched.
    + apply (failed_attempt_outcome env cfg Hosted). cbn. by rewrite Hf.
Qed.

(** ** The retry loop and the whole call *)

(** [os.stat] on a backup of [path] never fails. *)
Definition stat_answers (env : Env) (path : string) : Prop :=
  forall w p, is_backup_of path p = true -> io_error env w (OpStat p) = false.

Lemma paced_exit a b evs0 evs :
  (a <= max_retries)%nat ->
  attempts_made evs0 = (a - 1)%nat ->
  0 <= time_slept evs0 <= retry_delay * Z.of_nat (a - 1) ->
  Forall step_ok (steps evs0) ->
  (1 <= a)%nat ->
  attempt_shape a (Some b) evs ->
  paced (evs0 ++ evs).
Proof.
  intros Ha Hn Ht Hok Ha1 Hshape.
  apply shape_counts in Hshape as (Hn1 & Hok1 & [Ht1|(_ & [=] & _)]).
  unfold paced. rewrite attempts_made_app, time_slept_app, steps_app, Hn, Hn1, Ht1.
  split; [lia|]. split; [|by apply Forall_app].
  unfold retry_delay in *. lia.
Qed.

Lemma paced_on a evs0 evs :
  attempts_made evs0 = (a - 1)%nat ->
  0 <= time_slept evs0 <= retry_delay * Z.of_nat (a - 1) ->
  Forall step_ok (steps evs0) ->
  (1 <= a)%nat ->
  attempt_shape a None evs ->
  attempts_made (evs0 ++ evs) = a /\
  0 <= time_slept (evs0 ++ evs) <=
    retry_delay * Z.of_nat (if (a <? max_retries)%nat then a else a - 1) /\
  Forall step_ok (steps (evs0 ++ evs)).
Proof.
  intros Hn Ht Hok Ha1 Hshape.
  apply shape_counts in Hshape as (Hn1 & Hok1 & Hsl).
  rewrite attempts_made_app, time_slept_app, steps_app, Hn, Hn1.
  split; [lia|]. split; [|by apply Forall_app].
  unfold retry_delay in *.
  destruct Hsl as [->|(Ha & _ & ->)].
  - destruct (a <? max_retries)%nat; lia.
  - apply Nat.ltb_lt in Ha. rewrite Ha. lia.
Qed.

Lemma retry_loop_outcome env cfg role s :
  exists r s' evs,
    retry_loop env cfg role s = (r, s') /\
    trace s' = trace s ++ evs /\ paced evs /\
    (r = Ok true -> sound env (world s') (target cfg role)) /\
    (stat_answers env (target cfg role) -> exists b, r = Ok b).
Proof.
  unfold retry_loop. cbn [seq max_retries for_attempts].
  (* first attempt *)
  unfold bind at 1.
  destruct (attempt_total env cfg role 1 s) as (r1 & s1 & -> & e1 & Ht1 & Hsh1 & Hso1).
  destruct r1 as [b1|].
  { exists (Ok b1), s1, e1. split; [done|]. split; [done|]. split.
    - apply (paced_exit 1 b1 [] e1); try done; unfold max_retries; lia.
    - split; [by intros [= ->]; apply Hso1 | by eexists]. }
  destruct (paced_on 1 [] e1) as (Hn1 & Hsl1 & Hok1); try done.
  cbn [app] in Hn1, Hsl1, Hok1.
  change (1 <? max_retries)%nat with true in Hsl1. cbv iota in Hsl1.
  (* second attempt *)
  unfold bind at 1.
  destruct (attempt_total env cfg role 2 s1) as (r2 & s2 & -> & e2 & Ht2 & Hsh2 & Hso2).
  destruct r2 as [b2|].
  { exists (Ok b2), s2, (e1 ++ e2). split; [done|].
    split; [by rewrite Ht2, Ht1, app_assoc|]. split.
    - apply (paced_exit 2 b2 e1 e2); try done; unfold max_retries; lia.
    - split; [by intros [= ->]; apply Hso2 | by eexists]. }
  destruct (paced_on 2 e1 e2) as (Hn2 & Hsl2 & Hok2); try done; try lia.
  change (2 <? max_retries)%nat with true in Hsl2. cbv iota in Hsl2.
  (* third attempt *)
  unfold bind at 1.
  destruct (attempt_total env cfg role 3 s2) as (r3 & s3 & -> & e3 & Ht3 & Hsh3 & Hso3).
  destruct r3 as [b3|].
  { exists (Ok b3), s3, ((e1 ++ e2) ++ e3). split; [done|].
    split; [by rewrite Ht3, Ht2, Ht1, !app_assoc|]. split.
    - apply (paced_exit 3 b3 (e1 ++ e2) e3); try done; unfold max_retries; lia.
    - split; [by intros [= ->]; apply Hso3 | by eexists]. }
  destruct (paced_on 3 (e1 ++ e2) e3) as (Hn3 & Hsl3 & Hok3); try done; try lia.
  change (3 <? max_retries)%nat with false in Hsl3. cbv iota in Hsl3.
  (* recovery *)
  destruct (recovery_outcome env cfg (target cfg role) (type_name role) s3)
    as (r & s' & rest & Hrec & Ht & Hrest & Hsound & Htotal).
  exists r, s',
    (((e1 ++ e2) ++ e3) ++ EvLog Warning (recovery_message (type_name role)) :: rest).
  split; [done|].
  split; [by rewrite Ht, Ht3, Ht2, Ht1, !app_assoc|].
  split; [|split; [done|]].
  - destruct (stepless_counts
                (EvLog Warning (recovery_message (type_name role)) :: rest))
      as (Hn0 & Hsl0 & Hok0); [by rewrite steps_log|].
    unfold paced.
    rewrite attempts_made_app, time_slept_app, steps_app, Hn3, Hn0, Hsl0.
    split; [unfold max_retries; lia|]. split; [|by apply Forall_app].
    unfold retry_delay in *. lia.
  - intros Hstat. apply Htotal. intros p Hp. by apply Hstat.
Qed.

Lemma paced_after_calm e0 evs :
  steps e0 = [] -> paced evs -> paced (e0 ++ evs).
Proof.
  intros H0 (Hn & Hsl & Hok).
  destruct (stepless_counts e0 H0) as (Hn0 & Hsl0 & Hok0).
  unfold paced. rewrite attempts_made_app, time_slept_app, steps_app, Hn0, Hsl0.
  split; [lia|]. split; [lia | by apply Forall_app].
Qed.

Lemma acquire_outcome env cfg role s :
  exists r s' evs,
    acquire env cfg role s = (r, s') /\
    trace s' = trace s ++ evs /\ (steps evs = [] \/ paced evs) /\
    (r = Ok true -> sound env (world s') (target cfg role)) /\
    (stat_answers env (target cfg role) -> exists b, r = Ok b).
Proof.
  destruct (dirs (world s) !! parent (target cfg role)) as [m|] eqn:Hd;
    [|destruct (io_error env (world s) (OpMkdir (parent (target cfg role)))) eqn:Hio].
  1,3: destruct (acquire_enters_loop env cfg role s) as (s1 & -> & e0 & Ht0 & Hc0);
       [by (left + right) |];
       destruct (retry_loop_outcome env cfg role s1)
         as (r & s' & evs & Hrun & Ht & Hp & Hsound & Htotal);
       exists r, s', (e0 ++ evs); (split; [done|]);
       (split; [by rewrite Ht, Ht0, app_assoc|]);
       (split; [right; apply paced_after_calm; [by apply steps_calm | done] | done]).
  exists (Ok false),
    (add_events [EvLog Error ("Failed to create directory for " +:+
                              target cfg role +:+ ": OSError")] s),
    [EvLog Error ("Failed to create directory for " +:+ target cfg role +:+ ": OSError")].
  split.
  { destruct role; cbn [acquire target]; unfold acquire_gke, acquire_hosted;
      unfold bind at 1; by rewrite ensure_directory_fails. }
  split; [done|]. split; [by left|]. split; [done | by eexists].
Qed.

Lemma create_outcome env cfg role force s :
  exists r s' evs,
    create env cfg role force s = (r, s') /\
    trace s' = trace s ++ evs /\ (steps evs = [] \/ paced evs) /\
    (r = Ok true -> sound env (world s') (target cfg role)) /\
    (stat_answers env (target cfg role) -> exists b, r = Ok b).
Proof.
  assert (force = true \/
          (_is_kubeconfig_valid env cfg (target cfg role) (type_name role) s).1 = Ok false \/
          (force = false /\ valid_ok env cfg (world s) (target cfg role) = true))
    as [Hgo|[Hgo|[-> Hv]]].
  { rewrite is_valid_result. destruct force; [by left|].
    destruct (valid_ok env cfg (world s) (target cfg role)); [by right; right | by right; left]. }
  1,2: destruct (create_goes_on env cfg role force s) as (s2 & -> & Hw2 & e0 & Ht0 & Hc0);
       [by (left + right) |];
       destruct (acquire_outcome env cfg role s2)
         as (r & s' & evs & Hrun & Ht & Hp & Hsound & Htotal);
       exists r, s', (e0 ++ evs); (split; [done|]);
       (split; [by rewrite Ht, Ht0, app_assoc|]);
       (split; [|done]);
       (destruct Hp as [Hp|Hp];
        [left; by rewrite steps_app, (steps_calm e0), Hp
        |right; apply paced_after_calm; [by apply steps_calm | done]]).
  destruct (create_fast_path env cfg role s Hv) as (s' & Hrun & [Hw (evs & Ht & Hc)] & _).
  exists (Ok true), s', evs. split; [done|]. split; [done|].
  split; [left; by apply steps_calm|].
  split; [|by eexists]. intros _. rewrite Hw. by eapply valid_ok_sound.
Qed.

(** X3. Whenever [create_gke_kubeconfig] or [create_hosted_kubeconfig]
    returns [True] (on the fast path, from an attempt or from recovery, with
    or without [force_recreate], whatever the tools and the file system
    answer), the target file exists and its content is a kubeconfig the
    structural validator accepts: a mapping with non-empty list sections
    'clusters', 'contexts' and 'users'.  So, unless reading the file fails,
    [_validate_kubeconfig_file] run right after the call returns [True]. *)
Theorem create_true_means_sound env cfg role force s s' :
  create env cfg role force s = (Ok true, s') ->
  (exists f, files (world s') !! target cfg role = Some f /\
             document_ok env (content f) = true) /\
  (io_error env (world s') (OpRead (target cfg role)) = false ->
   (_validate_kubeconfig_file env (target cfg role) (type_name role) s').1 = Ok true).
Proof.
  intros Hrun.
  destruct (create_outcome env cfg role force s) as (r & s0 & evs & Hrun' & _ & _ & Hs & _).
  rewrite Hrun in Hrun'. injection Hrun' as <- <-.
  specialize (Hs eq_refl). split; [exact Hs|].
  intros Hio. rewrite validate_result. f_equal. by apply sound_structure_ok.
Qed.

Lemma create_true_means_sound_witness :
  let env := toy_env both_up writes_good no_io_error in
  let s' := (create_gke_kubeconfig env toy_cfg true empty_state).2 in
  (exists f, files (world s') !! "/tmp/kubeconfig-gke" = Some f /\
             document_ok env (content f) = true) /\
  (io_error env (world s') (OpRead "/tmp/kubeconfig-gke") = false ->
   (_validate_kubeconfig_file env "/tmp/kubeconfig-gke" "gke" s').1 = Ok true).
Proof.
  apply (create_true_means_sound (toy_env both_up writes_good no_io_error)
           toy_cfg Gke true empty_state).
  vm_compute. reflexivity.
Defined.

(** X4. Bounded effort.  Whatever the tools and the file system answer, a
    call of [create_gke_kubeconfig] or [create_hosted_kubeconfig] either
    runs its acquisition command not at all (fast path, or the directory
    cannot be made) or between one and [max_retries] = 3 times; every sleep
    lasts [retry_delay] = 5 seconds and there are fewer sleeps than
    attempts, so the call sleeps 10 seconds at most. *)
Theorem create_bounded_effort env cfg role force s :
  exists evs,
    trace (create env cfg role force s).2 = trace s ++ evs /\
    (steps evs = [] \/ paced evs) /\
    (attempts_made evs <= 3)%nat /\ 0 <= time_slept evs <= 10.
Proof.
  destruct (create_outcome env cfg role force s) as (r & s' & evs & -> & Ht & Hp & _).
  exists evs. split; [done|]. split; [done|].
  destruct Hp as [H0|(Hn & Hsl & _)].
  - destruct (stepless_counts evs H0) as (-> & -> & _). lia.
  - unfold max_retries, retry_delay in *. lia.
Qed.

(** [os.stat] fails neither on [path] nor on one of its backups. *)
Definition stat_never_fails (env : Env) (path : string) : Prop :=
  forall w p, p = path \/ is_backup_of path p = true -> io_error env w (OpStat p) = false.

(** X5. [os.stat] is the one operation whose failure can leave a call.  It
    is called outside every [try] by [Path.exists()] (lines 68, 150 and
    302, the last one also for each backup recovery looks at) and by the
    sort key of line 477.  When it fails neither on the target nor on one
    of the target's backups, a call of [create_gke_kubeconfig] or
    [create_hosted_kubeconfig] returns a boolean, whatever else fails: the
    commands, reading, writing, [chmod], renaming, [mkdir], decoding. *)
Theorem create_returns_unless_stat_fails env cfg role force s :
  stat_never_fails env (target cfg role) ->
  exists b s', create env cfg role force s = (Ok b, s').
Proof.
  intros Hstat.
  destruct (create_outcome env cfg role force s) as (r & s' & evs & Hrun & _ & _ & _ & Ht).
  destruct Ht as [b ->]; [|by exists b, s'].
  intros w p Hp. apply Hstat. by right.
Qed.

(** Every file operation fails, [os.stat] apart, and the cluster is down. *)
Definition only_stat_works : World -> IoOp -> bool :=
  fun _ op => match op with OpStat _ => false | _ => true end.

Lemma create_returns_unless_stat_fails_witness :
  exists b s',
    create_hosted_kubeconfig (toy_env always_down writes_nothing only_stat_works)
      toy_cfg true three_backups = (Ok b, s').
Proof.
  apply (create_returns_unless_stat_fails
           (toy_env always_down writes_nothing only_stat_works) toy_cfg Hosted true
           three_backups).
  intros w p Hp. reflexivity.
Defined.

(** When [os.stat] fails on a backup, the exception leaves the call. *)
Example create_raises_when_stat_fails :
  (create_gke_kubeconfig (toy_env always_down writes_nothing no_stat)
     toy_cfg true three_backups).1 = Raise "OSError".
Proof. vm_compute. reflexivity. Qed.

(** ** Which files a call may touch *)

(** The names a role works on: its target, whatever starts with the
    target's backup prefix and, for the hosted role, the temporary file
    next to the target. *)
Definition owns (cfg : InstallConfig) (role : Role) (p : string) : bool :=
  bool_decide (p = target cfg role)
  || starts_with (target cfg role +:+ ".backup.") p
  || match role with
     | Hosted => bool_decide (p = target cfg role +:+ ".tmp")
     | Gke => false
     end.

(** A call either ends on the fast path or goes on to the acquisition; up
    to there the world is untouched. *)
Lemma create_cases env cfg role force s :
  (exists s', create env cfg role force s = (Ok true, s') /\ quietly s s' /\
              force = false /\ valid_ok env cfg (world s) (target cfg role) = true) \/
  (exists s2, create env cfg role force s = acquire env cfg role s2 /\ quietly s s2).
Proof.
  assert (force = true \/
          (_is_kubeconfig_valid env cfg (target cfg role) (type_name role) s).1 = Ok false \/
          (force = false /\ valid_ok env cfg (world s) (target cfg role) = true))
    as [Hgo|[Hgo|[-> Hv]]].
  { rewrite is_valid_result. destruct force; [by left|].
    destruct (valid_ok env cfg (world s) (target cfg role)); [by right; right | by right; left]. }
  1,2: right; apply create_goes_on; by (left + right).
  left. destruct (create_fast_path env cfg role s Hv) as (s' & Hrun & Hq & _).
  by exists s'.
Qed.

Lemma not_owned cfg role p :
  owns cfg role p = false ->
  p <> target cfg role /\
  strip_prefix (target cfg role +:+ ".backup.") p = None /\
  (role = Hosted -> p <> target cfg role +:+ ".tmp").
Proof.
  unfold owns, starts_with. intros H.
  apply orb_false_elim in H as [H Htmp]. apply orb_false_elim in H as [Ht Hb].
  apply bool_decide_eq_false in Ht.
  split; [done|]. split.
  - by destruct (strip_prefix (target cfg role +:+ ".backup.") p).
  - intros ->. by apply bool_decide_eq_false in Htmp.
Qed.

Lemma acquire_frame env cfg role s r s' p :
  owns cfg role p = false ->
  acquire env cfg role s = (r, s') ->
  files (world s') !! p = files (world s) !! p.
Proof.
  intros Hp Hrun. apply not_owned in Hp as (Hne & Hnb & Htmp).
  assert (keeps (fun _ => True) (fun w w' => files w' !! p = files w !! p)
            (acquire env cfg role)) as Hk.
  { destruct role; cbn [acquire target] in *;
      [eapply keeps_acquire_gke with (may_write := fun q => q <> p)
                                     (may_delete := fun q => q <> p)
                                     (may_meta := True)
      |eapply keeps_acquire_hosted with (may_write := fun q => q <> p)
                                        (may_delete := fun q => q <> p)
                                        (may_meta := True)];
      try done.
    all: try (split; [by intros w | intros w1 w2 w3 H12 H23; congruence]).
    all: try (intros q Hq w f; cbn; by apply lookup_insert_ne).
    all: try (intros q Hq w; cbn; by apply lookup_delete_ne).
    all: try (intros b Hb ->; unfold is_backup_of in Hb; by rewrite Hnb in Hb).
    all: try (intros ts Heq; rewrite <- Heq, backup_name_prefix in Hnb; done).
    all: try (intros Heq; by apply Htmp). }
  by destruct (Hk s r s' Hrun).
Qed.

Lemma create_frame env cfg role force s r s' p :
  owns cfg role p = false ->
  create env cfg role force s = (r, s') ->
  files (world s') !! p = files (world s) !! p.
Proof.
  intros Hp Hrun.
  destruct (create_cases env cfg role force s)
    as [(s1 & Hfast & [Hw _] & _)|(s2 & Hgo & [Hw2 _])].
  - rewrite Hfast in Hrun. injection Hrun as <- <-. by rewrite Hw.
  - rewrite Hgo in Hrun. rewrite <- Hw2. by eapply acquire_frame.
Qed.

(** X6. A call of [create_gke_kubeconfig] or [create_hosted_kubeconfig]
    changes no file but its own: every path other than the target, the
    names that start with [{target}.backup.] and (hosted role only)
    [{target}.tmp] holds after the call exactly what it held before,
    however the call ends. *)
Theorem create_touches_only_its_own env cfg role force s p :
  owns cfg role p = false ->
  files (world (create env cfg role force s).2) !! p = files (world s) !! p.
Proof.
  intros Hp. destruct (create env cfg role force s) as [r s'] eqn:Hrun.
  by eapply create_frame.
Qed.

Lemma create_touches_only_its_own_witness :
  files (world (create_hosted_kubeconfig (toy_env both_up writes_good no_io_error)
                  toy_cfg true both_good_state).2) !! "/tmp/kubeconfig-gke"
    = files (world both_good_state) !! "/tmp/kubeconfig-gke".
Proof.
  apply (create_touches_only_its_own (toy_env both_up writes_good no_io_error)
           toy_cfg Hosted true both_good_state "/tmp/kubeconfig-gke").
  vm_compute. reflexivity.
Defined.

(** ** refresh_kubeconfigs, as a whole *)

Lemma refresh_run env cfg s :
  let s0 := add_events [EvLog Info "Refreshing all kubeconfig files..."] s in
  refresh_kubeconfigs env cfg s =
    match create_gke_kubeconfig env cfg true s0 with
    | (Ok true, sg) =>
        match create_hosted_kubeconfig env cfg true sg with
        | (Ok true, sh) =>
            (Ok true,
             add_events [EvLog Info "All kubeconfig files refreshed successfully"] sh)
        | (Ok false, sh) =>
            (Ok false, add_events [EvLog Error "Failed to refresh hosted kubeconfig"] sh)
        | (Raise e, sh) => (Raise e, sh)
        end
    | (Ok false, sg) =>
        (Ok false, add_events [EvLog Error "Failed to refresh GKE kubeconfig"] sg)
    | (Raise e, sg) => (Raise e, sg)
    end.
Proof.
  intros s0. unfold refresh_kubeconfigs. rewrite bind_log. fold s0.
  unfold bind at 1.
  destruct (create_gke_kubeconfig env cfg true s0) as [[[|]|e] sg]; [|done..].
  cbn [negb]. unfold bind at 1.
  by destruct (create_hosted_kubeconfig env cfg true sg) as [[[|]|e] sh].
Qed.

(** X7. When [refresh_kubeconfigs] returns [True], both credential files
    are in place and each holds a kubeconfig the structural validator
    accepts, provided the management path is not one of the names the
    hosted role works on (its target, its temporary file, its backups):
    the hosted phase then leaves the management file as the first phase
    made it. *)
Theorem refresh_true_means_both_sound env cfg s s' :
  owns cfg Hosted (kubeconfig_gke_path cfg) = false ->
  refresh_kubeconfigs env cfg s = (Ok true, s') ->
  sound env (world s') (kubeconfig_gke_path cfg) /\
  sound env (world s') (kubeconfig_hosted_path cfg).
Proof.
  intros Hown Hrun. rewrite refresh_run in Hrun. cbv zeta in Hrun.
  set (s0 := add_events [EvLog Info "Refreshing all kubeconfig files..."] s) in Hrun.
  destruct (create_outcome env cfg Gke true s0) as (rg & sg & eg & Hg & _ & _ & Hsg & _).
  cbn [create target] in Hg, Hsg. rewrite Hg in Hrun.
  destruct rg as [[|]|e]; [|done..].
  destruct (create_outcome env cfg Hosted true sg) as (rh & sh & eh & Hh & _ & _ & Hsh & _).
  cbn [create target] in Hh, Hsh. rewrite Hh in Hrun.
  destruct rh as [[|]|e]; [|done..].
  injection Hrun as <-. cbn [world add_events]. split; [|by apply Hsh].
  destruct (Hsg eq_refl) as (f & Hf & Hdoc). exists f. split; [|done].
  rewrite <- Hf. by apply (create_frame env cfg Hosted true sg (Ok true) sh).
Qed.

Lemma refresh_true_means_both_sound_witness :
  let env := toy_env both_up writes_good no_io_error in
  let s' := (refresh_kubeconfigs env toy_cfg empty_state).2 in
  sound env (world s') "/tmp/kubeconfig-gke" /\
  sound env (world s') "/tmp/kubeconfig-hosted".
Proof.
  apply (refresh_true_means_both_sound (toy_env both_up writes_good no_io_error)
           toy_cfg empty_state).
  - vm_compute. reflexivity.
  - vm_compute. reflexivity.
Defined.

Lemma bounded_counts evs :
  steps evs = [] \/ paced evs ->
  (attempts_made evs <= 3)%nat /\ 0 <= time_slept evs <= 10.
Proof.
  intros [H0|(Hn & Hsl & _)].
  - destruct (stepless_counts evs H0) as (-> & -> & _). lia.
  - unfold max_retries, retry_delay in *. lia.
Qed.

(** X8. [refresh_kubeconfigs] runs at most six acquisition commands (three
    per credential) and sleeps at most 20 seconds, whatever the tools and
    the file system answer and however it ends. *)
Theorem refresh_bounded_effort env cfg s :
  exists evs,
    trace (refresh_kubeconfigs env cfg s).2 = trace s ++ evs /\
    (attempts_made evs <= 6)%nat /\ 0 <= time_slept evs <= 20.
Proof.
  rewrite refresh_run. cbv zeta.
  set (l0 := EvLog Info "Refreshing all kubeconfig files...").
  set (s0 := add_events [l0] s).
  destruct (create_outcome env cfg Gke true s0) as (rg & sg & eg & Hg & Htg & Hpg & _).
  cbn [create target] in Hg. rewrite Hg.
  apply bounded_counts in Hpg as (Hng & Hslg).
  destruct (create_outcome env cfg Hosted true sg) as (rh & sh & eh & Hh & Hth & Hph & _).
  cbn [create target] in Hh.
  apply bounded_counts in Hph as (Hnh & Hslh).
  assert (forall l : Event, step_of l = None ->
            attempts_made ([l0] ++ eg ++ [l]) = attempts_made eg /\
            time_slept ([l0] ++ eg ++ [l]) = time_slept eg) as Hone.
  { intros l Hl. rewrite !attempts_made_app, !time_slept_app.
    unfold attempts_made, time_slept, steps. cbn. rewrite Hl. cbn. lia. }
  assert (forall l : Event, step_of l = None ->
            attempts_made ([l0] ++ eg ++ eh ++ [l])
              = (attempts_made eg + attempts_made eh)%nat /\
            time_slept ([l0] ++ eg ++ eh ++ [l]) = time_slept eg + time_slept eh) as Htwo.
  { intros l Hl. rewrite !attempts_made_app, !time_slept_app.
    unfold attempts_made, time_slept, steps. cbn. rewrite Hl. cbn. lia. }
  assert (attempts_made ([l0] ++ eg) = attempts_made eg /\
          time_slept ([l0] ++ eg) = time_slept eg) as Hzero.
  { rewrite !attempts_made_app, !time_slept_app.
    unfold attempts_made, time_slept, steps. cbn. lia. }
  assert (attempts_made ([l0] ++ eg ++ eh) = (attempts_made eg + attempts_made eh)%nat /\
          time_slept ([l0] ++ eg ++ eh) = time_slept eg + time_slept eh) as Hzero2.
  { rewrite !attempts_made_app, !time_slept_app.
    unfold attempts_made, time_slept, steps. cbn. lia. }
  destruct rg as [[|]|e].
  - rewrite Hh. destruct rh as [[|]|e].
    + exists ([l0] ++ eg ++ eh ++ [EvLog Info "All kubeconfig files refreshed successfully"]).
      split; [cbn; rewrite Hth, Htg; cbn; by rewrite <- !app_assoc|].
      destruct (Htwo (EvLog Info "All kubeconfig files refreshed successfully") eq_refl)
        as [-> ->]. lia.
    + exists ([l0] ++ eg ++ eh ++ [EvLog Error "Failed to refresh hosted kubeconfig"]).
      split; [cbn; rewrite Hth, Htg; cbn; by rewrite <- !app_assoc|].
      destruct (Htwo (EvLog Error "Failed to refresh hosted kubeconfig") eq_refl)
        as [-> ->]. lia.
    + exists ([l0] ++ eg ++ eh).
      split; [cbn; rewrite Hth, Htg; cbn; by rewrite <- !app_assoc|].
      destruct Hzero2 as [-> ->]. lia.
  - exists ([l0] ++ eg ++ [EvLog Error "Failed to refresh GKE kubeconfig"]).
    split; [cbn; rewrite Htg; cbn; by rewrite <- !app_assoc|].
    destruct (Hone (EvLog Error "Failed to refresh GKE kubeconfig") eq_refl) as [-> ->]. lia.
  - exists ([l0] ++ eg).
    split; [cbn; rewrite Htg; cbn; by rewrite <- !app_assoc|].
    destruct Hzero as [-> ->]. lia.
Qed.

(** Both clusters down, nothing to recover from: refresh gives up after the
    management phase, three attempts and two sleeps into the run. *)
Example refresh_gives_up :
  let run := refresh_kubeconfigs (toy_env always_down writes_nothing no_io_error)
               toy_cfg empty_state in
  run.1 = Ok false /\ attempts_made (trace run.2) = 3%nat /\ time_slept (trace run.2) = 10.
Proof. vm_compute. by repeat split. Qed.

(** * The helpers on their own *)

(** ** _create_backup (lines 418-444) *)

Lemma create_backup_outcome env path s :
  let bn := backup_name path (now (world s)) in
  exists r s',
    _create_backup env path s = (Ok r, s') /\
    (forall p, p <> bn -> files (world s') !! p = files (world s) !! p) /\
    dirs (world s') = dirs (world s) /\ now (world s') = now (world s) /\
    match r with
    | Some b =>
        b = bn /\
        exists f, files (world s) !! path = Some f /\
                  files (world s') !! bn
                    = Some (mkFile (content f) (mode f) (now (world s)))
    | None => exists e, last (trace s')
                = Some (EvLog Warning ("Failed to create backup of " +:+ path +:+ ": " +:+ e))
    end.
Proof.
  intros bn.
  pose proof (backup_name_not_target path (now (world s))) as Hne. fold bn in Hne.
  assert (forall e st,
            (forall p, p <> bn -> files (world st) !! p = files (world s) !! p) ->
            dirs (world st) = dirs (world s) -> now (world st) = now (world s) ->
            exists r s',
              (log Warning ("Failed to create backup of " +:+ path +:+ ": " +:+ e) ;;;
               ret (@None string)) st = (Ok r, s') /\
              (forall p, p <> bn -> files (world s') !! p = files (world s) !! p) /\
              dirs (world s') = dirs (world s) /\ now (world s') = now (world s) /\
              match r with
              | Some b =>
                  b = bn /\
                  exists f, files (world s) !! path = Some f /\
                            files (world s') !! bn
                              = Some (mkFile (content f) (mode f) (now (world s)))
              | None => exists e, last (trace s')
                          = Some (EvLog Warning ("Failed to create backup of " +:+ path
                                                 +:+ ": " +:+ e))
              end) as Hfail.
  { intros e st Hfr Hd Hn. rewrite bind_log. eexists None, _. split; [reflexivity|].
    cbn [world add_events trace]. split; [done|]. split; [done|]. split; [done|].
    exists e. apply last_snoc. }
  unfold _create_backup, try_except. unfold bind at 1, get_world. fold bn.
  unfold bind at 1. rewrite read_file_run.
  destruct (io_error env (world s) (OpRead path)); [by apply Hfail|].
  destruct (files (world s) !! path) as [f|] eqn:Hf; [|by apply Hfail].
  unfold bind at 1. rewrite open_w_run.
  destruct (io_error env (world s) (OpOpenW bn)); [by apply Hfail|].
  unfold bind at 1. rewrite write_file_run. cbn [world put_file].
  match goal with |- context [io_error env ?w (OpWrite bn)] =>
    destruct (io_error env w (OpWrite bn)) end.
  { apply Hfail; [|done..]. intros p Hp. cbn. by apply lookup_insert_ne. }
  cbn [files set_files]. rewrite lookup_insert_eq.
  unfold bind at 1. rewrite os_stat_run. cbn [world put_file].
  match goal with |- context [io_error env ?w (OpStat path)] =>
    destruct (io_error env w (OpStat path)) end.
  { apply Hfail; [|done..]. intros p Hp. cbn. by rewrite !lookup_insert_ne. }
  cbn [files set_files]. rewrite !lookup_insert_ne, Hf by done.
  unfold bind at 1. rewrite os_chmod_run. cbn [world put_file].
  match goal with |- context [io_error env ?w (OpChmod bn)] =>
    destruct (io_error env w (OpChmod bn)) end.
  { apply Hfail; [|done..]. intros p Hp. cbn. by rewrite !lookup_insert_ne. }
  cbn [files set_files]. rewrite lookup_insert_eq.
  eexists (Some bn), _. split; [reflexivity|]. cbn [world put_file files set_files dirs now].
  split; [intros p Hp; by rewrite !lookup_insert_ne|]. split; [done|]. split; [done|].
  split; [done|]. exists f. split; [done|]. by rewrite lookup_insert_eq.
Qed.

(** X9. [_create_backup] never raises and never touches the original: it
    returns a path or [None], and afterwards every file but the one named
    [{path}.backup.{time}] is as before, the original included.  When it
    returns a path, that path is [{path}.backup.{time}] and the file there
    holds the original's content and permission bits; when it returns
    [None], the last thing it did was to log the warning. *)
Theorem create_backup_keeps_original env path s :
  let bn := backup_name path (now (world s)) in
  exists r s',
    _create_backup env path s = (Ok r, s') /\
    files (world s') !! path = files (world s) !! path /\
    (forall p, p <> bn -> files (world s') !! p = files (world s) !! p) /\
    match r with
    | Some b =>
        b = bn /\
        exists f, files (world s) !! path = Some f /\
                  files (world s') !! bn
                    = Some (mkFile (content f) (mode f) (now (world s)))
    | None => exists e, last (trace s')
                = Some (EvLog Warning ("Failed to create backup of " +:+ path +:+ ": " +:+ e))
    end.
Proof.
  intros bn.
  destruct (create_backup_outcome env path s) as (r & s' & Hrun & Hfr & _ & _ & Hr).
  exists r, s'. split; [done|]. split; [|by split].
  apply Hfr. apply not_eq_sym, backup_name_not_target.
Qed.

(** The copy is opened, then writing fails: [None], and an empty file is
    left under the backup name. *)
Definition no_write : World -> IoOp -> bool :=
  fun _ op => match op with OpWrite _ => true | _ => false end.

Example failed_backup_leaves_empty_file :
  let run := _create_backup (toy_env always_up writes_nothing no_write)
               "/tmp/kubeconfig-gke" stale_state in
  run.1 = Ok None /\
  files (world run.2) !! "/tmp/kubeconfig-gke" = Some (mkFile "stale" 384 40) /\
  content <$> files (world run.2) !! "/tmp/kubeconfig-gke.backup.100" = Some "".
Proof. vm_compute. by repeat split. Qed.

(** ** The write block of the hosted role (lines 199-216) *)

(** X10. The hosted role replaces its target atomically.  With dry-run
    off, after the write block the target is either the complete new file
    (the decoded content, mode 0600) or exactly what it was before, never
    anything in between, whichever of open, write, chmod, rename or unlink
    fails; no file other than the target and [{path}.tmp] changes; and
    unless the handler's own [os.unlink] raises, no [{path}.tmp] is left
    behind (a stale one from an earlier run is removed too). *)
Theorem save_kubeconfig_atomic env cfg path data s :
  dry_run cfg = false ->
  let tmp := path +:+ ".tmp" in
  exists r s',
    save_kubeconfig env cfg path data s = (r, s') /\
    (forall q, q <> path -> q <> tmp -> files (world s') !! q = files (world s) !! q) /\
    match r with
    | Ok (Some _) =>
        files (world s') !! path = Some (mkFile data MODE_0600 (now (world s))) /\
        files (world s') !! tmp = None
    | Ok None =>
        files (world s') !! path = files (world s) !! path /\
        files (world s') !! tmp = None
    | Raise _ => files (world s') !! path = files (world s) !! path
    end.
Proof.
  intros Hdry tmp. unfold save_kubeconfig. rewrite Hdry. cbn [negb]. fold tmp.
  pose proof (temp_is_not_target path) as Hne. fold tmp in Hne.
  assert (forall e st,
            (forall q, q <> tmp -> files (world st) !! q = files (world s) !! q) ->
            exists r s',
              (log Error ("Failed to write kubeconfig: " +:+ e) ;;;
               ex <- path_exists tmp ;;
               (if ex then os_unlink env tmp else ret tt) ;;;
               ret (@None unit)) st = (r, s') /\
              (forall q, q <> path -> q <> tmp ->
                 files (world s') !! q = files (world s) !! q) /\
              match r with
              | Ok (Some _) =>
                  files (world s') !! path = Some (mkFile data MODE_0600 (now (world s))) /\
                  files (world s') !! tmp = None
              | Ok None =>
                  files (world s') !! path = files (world s) !! path /\
                  files (world s') !! tmp = None
              | Raise _ => files (world s') !! path = files (world s) !! path
              end) as Hfail.
  { intros e st Hst.
    destruct (save_handler_outcome env tmp e st) as (r & s' & Hrun & Hfr & Hr).
    exists r, s'. split; [done|].
    split; [intros q _ Hq; by rewrite Hfr, Hst|].
    assert (files (world s') !! path = files (world s) !! path) as Hp.
    { rewrite Hfr, Hst; by try apply not_eq_sym. }
    by destruct r as [[u|]|]. }
  unfold try_except.
  unfold bind at 1. rewrite open_w_run.
  destruct (io_error env (world s) (OpOpenW tmp)); [by apply Hfail|].
  unfold bind at 1. rewrite write_file_run. cbn [world put_file].
  match goal with |- context [io_error env ?w (OpWrite tmp)] =>
    destruct (io_error env w (OpWrite tmp)) end.
  { apply Hfail. intros q Hq. cbn. by apply lookup_insert_ne. }
  cbn [files set_files]. rewrite lookup_insert_eq.
  unfold bind at 1. rewrite os_chmod_run. cbn [world put_file].
  match goal with |- context [io_error env ?w (OpChmod tmp)] =>
    destruct (io_error env w (OpChmod tmp)) end.
  { apply Hfail. intros q Hq. cbn. by rewrite !lookup_insert_ne. }
  cbn [files set_files]. rewrite lookup_insert_eq.
  unfold bind at 1. rewrite os_rename_run. cbn [world put_file].
  match goal with |- context [io_error env ?w (OpRename tmp path)] =>
    destruct (io_error env w (OpRename tmp path)) end.
  { apply Hfail. intros q Hq. cbn. by rewrite !lookup_insert_ne. }
  cbn [files set_files]. rewrite lookup_insert_eq.
  eexists _, _. split; [reflexivity|]. cbn [files world set_files now].
  split; [|split].
  - intros q Hq1 Hq2.
    rewrite lookup_insert_ne, lookup_delete_ne by done.
    by rewrite !lookup_insert_ne by done.
  - by rewrite lookup_insert_eq.
  - rewrite lookup_insert_ne by done. apply lookup_delete_eq.
Qed.


(** The rename fails: the target keeps its old content, the temporary file
    is removed. *)
Definition no_rename : World -> IoOp -> bool :=
  fun _ op => match op with OpRename _ _ => true | _ => false end.

Definition old_hosted_state : State :=
  start (world_of [("/tmp/kubeconfig-hosted", mkFile "stale" 384 40)] 100).

Lemma save_kubeconfig_atomic_witness :
  let env := toy_env secret_up writes_nothing no_rename in
  let path := "/tmp/kubeconfig-hosted" in
  let tmp := path +:+ ".tmp" in
  exists r s',
    save_kubeconfig env toy_cfg path "good" old_hosted_state = (r, s') /\
    (forall q, q <> path -> q <> tmp ->
       files (world s') !! q = files (world old_hosted_state) !! q) /\
    match r with
    | Ok (Some _) =>
        files (world s') !! path
          = Some (mkFile "good" MODE_0600 (now (world old_hosted_state))) /\
        files (world s') !! tmp = None
    | Ok None =>
        files (world s') !! path = files (world old_hosted_state) !! path /\
        files (world s') !! tmp = None
    | Raise _ => files (world s') !! path = files (world old_hosted_state) !! path
    end.
Proof.
  apply (save_kubeconfig_atomic (toy_env secret_up writes_nothing no_rename) toy_cfg
           "/tmp/kubeconfig-hosted" "good" old_hosted_state).
  reflexivity.
Defined.

Example failed_rename_keeps_target :
  let run := save_kubeconfig (toy_env secret_up writes_nothing no_rename) toy_cfg
               "/tmp/kubeconfig-hosted" "good" old_hosted_state in
  run.1 = Ok None /\
  files (world run.2) !! "/tmp/kubeconfig-hosted" = Some (mkFile "stale" 384 40) /\
  files (world run.2) !! "/tmp/kubeconfig-hosted.tmp" = None.
Proof. vm_compute. by repeat split. Qed.

(** ** _ensure_directory_exists (lines 383-399) *)

(** X11. For a target whose directory has its own parent in place (so that
    [mkdir] has at most the one directory to make): once
    [_ensure_directory_exists] has returned [True] the directory exists, no
    file has changed, and if the call had to make the directory its mode is
    0700 less the umask, so no group or world bit.  A second call then
    returns [True] again without doing anything: it cannot fail any more,
    even if [mkdir] would. *)
Theorem ensure_directory_idempotent env path s s1 :
  is_Some (dirs (world s) !! parent (parent path)) ->
  _ensure_directory_exists env path s = (Ok true, s1) ->
  files (world s1) = files (world s) /\
  (exists m, dirs (world s1) !! parent path = Some m /\
     (dirs (world s) !! parent path = None ->
      m = Z.ldiff MODE_0700 (umask env) /\ Z.land m MODE_0077 = 0)) /\
  (forall d, d <> parent path -> dirs (world s1) !! d = dirs (world s) !! d) /\
  _ensure_directory_exists env path s1 = (Ok true, s1).
Proof.
  intros _. unfold _ensure_directory_exists, mkdir_p. unfold_m. cbn.
  destruct (dirs (world s) !! parent path) as [m|] eqn:Hd.
  - intros [= <-]. rewrite Hd. split; [done|]. split; [|done].
    exists m. by split.
  - destruct (io_error env (world s) (OpMkdir (parent path))); [done|].
    intros [= <-]. cbn. rewrite lookup_insert_eq. split; [done|]. split; [|split; [|done]].
    + eexists. split; [done|]. intros _. split; [done|]. apply owner_only_0700.
    + intros d Hne. by apply lookup_insert_ne.
Qed.

(** [/srv] is there, [/srv/kube] is not. *)
Definition srv_state : State := start (mkWorld ∅ {["/srv" := 493]} 100).

Lemma ensure_directory_idempotent_witness :
  let env := toy_env always_up writes_nothing no_io_error in
  let s := srv_state in
  let s1 := (_ensure_directory_exists env "/srv/kube/config" s).2 in
  files (world s1) = files (world s) /\
  (exists m, dirs (world s1) !! "/srv/kube" = Some m /\
     (dirs (world s) !! "/srv/kube" = None ->
      m = Z.ldiff MODE_0700 (umask env) /\ Z.land m MODE_0077 = 0)) /\
  (forall d, d <> "/srv/kube" -> dirs (world s1) !! d = dirs (world s) !! d) /\
  _ensure_directory_exists env "/srv/kube/config" s1 = (Ok true, s1).
Proof.
  apply (ensure_directory_idempotent (toy_env always_up writes_nothing no_io_error)
           "/srv/kube/config" srv_state).
  - vm_compute. eexists. reflexivity.
  - vm_compute. reflexivity.
Defined.


(** * kubeconfig_info and the commands a call runs *)

(** ** What is recorded, and when *)

Definition role_cluster (cfg : InstallConfig) (role : Role) : string :=
  match role with
  | Gke => gke_cluster_name cfg
  | Hosted => hosted_cluster_name cfg
  end.

(** [_calculate_file_checksum], read off the world: the digest of the
    file's content, or the empty string when it cannot be read. *)
Definition checksum_of (env : Env) (w : World) (path : string) : string :=
  if io_error env w (OpRead path) then ""
  else match files w !! path with
       | Some f => sha256_hex env (content f)
       | None => ""
       end.

Lemma checksum_exact env path s :
  _calculate_file_checksum env path s = (Ok (checksum_of env (world s) path), s).
Proof.
  unfold _calculate_file_checksum, try_except, checksum_of. unfold bind at 1.
  rewrite read_file_run.
  destruct (io_error env (world s) (OpRead path)); [done|].
  by destruct (files (world s) !! path).
Qed.

(** The [KubeconfigInfo] of a credential just made, at world [w]. *)
Definition fresh_entry (env : Env) (cfg : InstallConfig) (role : Role) (w : World)
    : KubeconfigInfo :=
  mkInfo (target cfg role) (role_cluster cfg role) (type_name role) (now w)
         (checksum_of env w (target cfg role)) None.

Definition recorded (env : Env) (cfg : InstallConfig) (role : Role)
    (info0 : gmap string KubeconfigInfo) (s' : State) : Prop :=
  kubeconfig_info s' = <[target cfg role := fresh_entry env cfg role (world s')]> info0.

Lemma same_info_stat_keys env paths : same_info (stat_keys env paths).
Proof.
  pose proof (same_info_os_stat env).
  induction paths as [|p paths IH]; cbn; same_info_auto.
Qed.

Lemma same_info_recovery_loop env cfg path ct l :
  same_info (recovery_loop env cfg path ct l).
Proof.
  pose proof (same_info_is_valid env cfg). pose proof (same_info_os_rename env).
  induction l as [|b rest IH]; cbn; same_info_auto.
Qed.

Lemma same_info_recovery env cfg path ct :
  same_info (_attempt_recovery env cfg path ct).
Proof.
  unfold _attempt_recovery.
  pose proof (same_info_stat_keys env). pose proof (same_info_recovery_loop env cfg).
  same_info_auto.
Qed.

Lemma same_info_sleep_if_more a : same_info (sleep_if_more a).
Proof. unfold sleep_if_more. pose proof same_info_sleep. same_info_auto. Qed.

Lemma same_info_set_secure env path : same_info (_set_secure_permissions env path).
Proof.
  unfold _set_secure_permissions. pose proof (same_info_os_chmod env). same_info_auto.
Qed.

Lemma same_info_decode env b64 : same_info (decode_kubeconfig env b64).
Proof. unfold decode_kubeconfig, yaml_safe_load. same_info_auto. Qed.

Lemma same_info_save env cfg path data : same_info (save_kubeconfig env cfg path data).
Proof.
  unfold save_kubeconfig.
  pose proof (same_info_open_w env). pose proof (same_info_write_file env).
  pose proof (same_info_os_chmod env). pose proof (same_info_os_rename env).
  pose proof (same_info_os_unlink env).
  same_info_auto.
Qed.

Lemma same_info_ensure_directory env path :
  same_info (_ensure_directory_exists env path).
Proof.
  unfold _ensure_directory_exists. pose proof (same_info_mkdir_p env). same_info_auto.
Qed.

Lemma same_info_create_backup env path : same_info (_create_backup env path).
Proof.
  unfold _create_backup.
  pose proof (same_info_read_file env). pose proof (same_info_open_w env).
  pose proof (same_info_write_file env). pose proof (same_info_os_stat env).
  pose proof (same_info_os_chmod env).
  same_info_auto.
Qed.

(** No event of the run is the entry into recovery. *)
Definition unrecovered {A} (m : M A) : Prop :=
  keeps (fun e => recovery_entry e = false) (fun _ _ => True) m.

Ltac entry_side :=
  first [ done | apply anything_goes | apply calm_no_entry
        | match goal with |- match ?c with _ => _ end => by destruct c end ].

Lemma unrecovered_ret {A} (a : A) : unrecovered (ret a).
Proof. apply keeps_ret, anything_goes. Qed.

Lemma unrecovered_bind {A B} (m : M A) (k : A -> M B) :
  unrecovered m -> (forall a, unrecovered (k a)) -> unrecovered (bind m k).
Proof. apply keeps_bind, anything_goes. Qed.

Lemma unrecovered_try {A} (m : M A) (h : string -> M A) :
  unrecovered m -> (forall e, unrecovered (h e)) -> unrecovered (try_except m h).
Proof. apply keeps_try, anything_goes. Qed.

Lemma unrecovered_log lvl msg :
  recovery_entry (EvLog lvl msg) = false -> unrecovered (log lvl msg).
Proof. intros H. by apply keeps_log; [apply anything_goes|]. Qed.

Lemma unrecovered_path_exists p : unrecovered (path_exists p).
Proof. apply keeps_path_exists, anything_goes. Qed.

Lemma unrecovered_store_info p name ct sum : unrecovered (store_info p name ct sum).
Proof. apply keeps_store_info, anything_goes. Qed.

Lemma unrecovered_sleep secs : unrecovered (sleep secs).
Proof. apply keeps_sleep with (may_meta := True); entry_side. Qed.

Lemma unrecovered_sleep_if_more a : unrecovered (sleep_if_more a).
Proof. apply keeps_sleep_if_more with (may_meta := True); entry_side. Qed.

Lemma unrecovered_runner_run env cfg cmd k co t :
  unrecovered (runner_run env cfg cmd k co t).
Proof.
  apply keeps_runner_run with (may_write := fun _ => True); entry_side.
Qed.

Lemma unrecovered_validate env path ct : unrecovered (_validate_kubeconfig_file env path ct).
Proof. apply keeps_validate; entry_side. Qed.

Lemma unrecovered_is_valid env cfg path ct :
  unrecovered (_is_kubeconfig_valid env cfg path ct).
Proof.
  apply keeps_is_valid with (may_write := fun _ => True); entry_side.
Qed.

Lemma unrecovered_set_secure env path : unrecovered (_set_secure_permissions env path).
Proof.
  apply keeps_set_secure_permissions with (may_write := fun _ => True); entry_side.
Qed.

Lemma unrecovered_checksum env path : unrecovered (_calculate_file_checksum env path).
Proof. apply keeps_checksum, anything_goes. Qed.

Lemma unrecovered_decode env b64 : unrecovered (decode_kubeconfig env b64).
Proof. apply keeps_decode_kubeconfig, anything_goes. Qed.

Lemma unrecovered_save env cfg path data : unrecovered (save_kubeconfig env cfg path data).
Proof.
  apply keeps_save_kubeconfig with (may_write := fun _ => True) (may_delete := fun _ => True);
    entry_side.
Qed.

Lemma unrecovered_ensure_directory env path :
  unrecovered (_ensure_directory_exists env path).
Proof.
  apply keeps_ensure_directory with (may_meta := True); entry_side.
Qed.

Lemma unrecovered_create_backup env path : unrecovered (_create_backup env path).
Proof.
  apply keeps_create_backup with (may_write := fun _ => True); entry_side.
Qed.

Lemma unrecovered_facts {A} (m : M A) s r s' :
  unrecovered m -> m s = (r, s') ->
  exists evs, trace s' = trace s ++ evs /\ Forall (fun e => recovery_entry e = false) evs.
Proof. intros Hm Hrun. by destruct (Hm s r s' Hrun) as [_ ?]. Qed.

(** Before its last round an attempt cannot reach recovery. *)
Lemma unrecovered_gke_attempt env cfg a :
  (a < max_retries)%nat -> unrecovered (gke_attempt env cfg (kubeconfig_gke_path cfg) a).
Proof.
  intros Ha. apply Nat.ltb_lt in Ha. unfold gke_attempt. rewrite Ha.
  apply unrecovered_try.
  2:{ intros e. apply unrecovered_bind; [by apply unrecovered_log | intros _].
      apply unrecovered_sleep_if_more. }
  apply unrecovered_bind; [by apply unrecovered_log | intros _].
  apply unrecovered_bind; [apply unrecovered_runner_run | intros r].
  destruct (negb r.1).
  - apply unrecovered_bind; [by apply unrecovered_log | intros _].
    apply unrecovered_bind; [by apply unrecovered_log | intros _].
    apply unrecovered_bind; [apply unrecovered_sleep | intros _; apply unrecovered_ret].
  - apply unrecovered_bind; [apply unrecovered_validate | intros valid]. destruct valid.
    + apply unrecovered_bind; [apply unrecovered_set_secure | intros _].
      apply unrecovered_bind; [apply unrecovered_checksum | intros sum].
      apply unrecovered_bind; [apply unrecovered_store_info | intros _].
      apply unrecovered_bind; [by apply unrecovered_log | intros _; apply unrecovered_ret].
    + apply unrecovered_bind; [by apply unrecovered_log | intros _].
      apply unrecovered_sleep_if_more.
Qed.

Lemma unrecovered_hosted_attempt env cfg a :
  (a < max_retries)%nat ->
  unrecovered (hosted_attempt env cfg (kubeconfig_hosted_path cfg) a).
Proof.
  intros Ha. apply Nat.ltb_lt in Ha. unfold hosted_attempt. rewrite Ha.
  apply unrecovered_try.
  2:{ intros e. apply unrecovered_bind; [by apply unrecovered_log | intros _].
      apply unrecovered_sleep_if_more. }
  apply unrecovered_bind; [by apply unrecovered_log | intros _].
  apply unrecovered_bind; [apply unrecovered_runner_run | intros r].
  destruct (negb r.1 || String.eqb (strip r.2) "").
  - apply unrecovered_bind; [by apply unrecovered_log | intros _].
    apply unrecovered_bind; [by apply unrecovered_log | intros _].
    apply unrecovered_bind; [apply unrecovered_sleep | intros _; apply unrecovered_ret].
  - apply unrecovered_bind.
    { apply unrecovered_try.
      - apply unrecovered_bind; [apply unrecovered_decode | intros; apply unrecovered_ret].
      - intros e. apply unrecovered_bind; [by apply unrecovered_log | intros _].
        apply unrecovered_bind; [apply unrecovered_sleep | intros; apply unrecovered_ret]. }
    intros [data|ctl]; [|apply unrecovered_ret].
    apply unrecovered_bind; [apply unrecovered_save | intros saved].
    destruct saved; [|apply unrecovered_ret].
    apply unrecovered_bind; [apply unrecovered_validate | intros valid]. destruct valid.
    + apply unrecovered_bind; [apply unrecovered_checksum | intros sum].
      apply unrecovered_bind; [apply unrecovered_store_info | intros _].
      apply unrecovered_bind; [by apply unrecovered_log | intros _; apply unrecovered_ret].
    + apply unrecovered_bind; [by apply unrecovered_log | intros _].
      apply unrecovered_sleep_if_more.
Qed.

(** The dictionary is left alone, and a good result then comes by way of
    recovery; or the run ends well with the fresh entry stored, and recovery
    was not entered. *)
Definition record_step (env : Env) (cfg : InstallConfig) (role : Role) {A}
    (good : A -> Prop) (m : M A) : Prop :=
  forall s r s', m s = (r, s') ->
    exists evs, trace s' = trace s ++ evs /\
      ((kubeconfig_info s' = kubeconfig_info s /\
        (forall a, r = Ok a -> good a -> Exists (fun e => recovery_entry e = true) evs))
       \/
       ((exists a, r = Ok a /\ good a) /\
        recorded env cfg role (kubeconfig_info s) s' /\
        Forall (fun e => recovery_entry e = false) evs)).

(** No run ends with a good result. *)
Definition never_good {A} (good : A -> Prop) (m : M A) : Prop :=
  forall s r s', m s = (r, s') -> forall a, r = Ok a -> ~ good a.

Lemma never_good_ret {A} (good : A -> Prop) (a : A) : ~ good a -> never_good good (ret a).
Proof. intros Ha s r s' [= <- <-] a' [= <-]. exact Ha. Qed.

Lemma never_good_bind {A B} (good : B -> Prop) (m : M A) (k : A -> M B) :
  (forall a, never_good good (k a)) -> never_good good (bind m k).
Proof.
  intros Hk s r s' Hrun. unfold bind in Hrun.
  destruct (m s) as [[a|e] s1]; [by eapply Hk|]. by injection Hrun as <- <-.
Qed.

Lemma never_good_sleep_if_more (good : option bool -> Prop) a :
  ~ good None -> never_good good (sleep_if_more a).
Proof.
  intros Hn s r s' Hrun. destruct (sleep_if_more_run a s) as (s1 & Hs & _).
  rewrite Hs in Hrun. injection Hrun as <- <-. by intros a' [= <-].
Qed.

Section RecordStep.
Variable env : Env.
Variable cfg : InstallConfig.
Variable role : Role.

Lemma record_quiet {A} (good : A -> Prop) (m : M A) :
  same_info m -> unrecovered m -> never_good good m ->
  record_step env cfg role good m.
Proof.
  intros Hi Hu Hn s r s' Hrun.
  destruct (unrecovered_facts m _ _ _ Hu Hrun) as (evs & Ht & _).
  exists evs. split; [done|]. left. split; [by eapply Hi|].
  intros a Hr Hg. by destruct (Hn _ _ _ Hrun a Hr).
Qed.

Lemma record_bind {A B} (good : B -> Prop) (m : M A) (k : A -> M B) :
  same_info m -> unrecovered m -> (forall a, record_step env cfg role good (k a)) ->
  record_step env cfg role good (bind m k).
Proof.
  intros Hi Hu Hk s r s' Hrun. unfold bind in Hrun.
  destruct (m s) as [[a|e] s1] eqn:Em.
  - destruct (unrecovered_facts m _ _ _ Hu Em) as (e1 & Ht1 & Hf1).
    pose proof (Hi _ _ _ Em) as Hi1.
    destruct (Hk a _ _ _ Hrun) as (e2 & Ht2 & Hcase).
    exists (e1 ++ e2). split; [by rewrite Ht2, Ht1, app_assoc|].
    destruct Hcase as [[Hsame Hrec]|(Hg & Hrec & Hf2)].
    + left. split; [congruence|]. intros b Hb Hgb.
      apply Exists_app. right. by eapply Hrec.
    + right. split; [done|]. split; [unfold recorded in *; by rewrite <- Hi1|].
      by apply Forall_app.
  - injection Hrun as <- <-.
    destruct (unrecovered_facts m _ _ _ Hu Em) as (e1 & Ht1 & _).
    exists e1. split; [done|]. left. split; [by eapply Hi|]. by intros b [=].
Qed.

Lemma record_try {A} (good : A -> Prop) (m : M A) (h : string -> M A) :
  record_step env cfg role good m ->
  (forall e, same_info (h e) /\ unrecovered (h e) /\ never_good good (h e)) ->
  record_step env cfg role good (try_except m h).
Proof.
  intros Hm Hh s r s' Hrun. unfold try_except in Hrun.
  destruct (m s) as [[a|e] s1] eqn:Em.
  - injection Hrun as <- <-. by eapply Hm.
  - destruct (Hm _ _ _ Em) as (e1 & Ht1 & [[Hsame _]|[(a & [=] & _) _]]).
    destruct (Hh e) as (Hi & Hu & Hn).
    destruct (unrecovered_facts _ _ _ _ Hu Hrun) as (e2 & Ht2 & _).
    exists (e1 ++ e2). split; [by rewrite Ht2, Ht1, app_assoc|].
    left. split; [rewrite <- Hsame; by eapply Hi|].
    intros a Hr Hg. by destruct (Hn _ _ _ Hrun a Hr).
Qed.

(** Lines 100-111 and 220-231: checksum, entry, closing line, [True]. *)
Lemma record_leaf msg :
  record_step env cfg role (fun r => r = Some true)
    (sum <- _calculate_file_checksum env (target cfg role) ;;
     store_info (target cfg role) (role_cluster cfg role) (type_name role) sum ;;;
     log Info msg ;;;
     ret (Some true)).
Proof.
  intros s r s' Hrun. unfold bind at 1 in Hrun. rewrite checksum_exact in Hrun.
  cbn in Hrun. injection Hrun as <- <-. exists [EvLog Info msg]. split; [done|].
  right. split; [by eexists|]. split; [done|]. by repeat constructor.
Qed.

(** Recovery shows its entry whatever it returns, and records nothing. *)
Lemma recovery_shows ct s r s' :
  _attempt_recovery env cfg (target cfg role) ct s = (r, s') ->
  exists evs, trace s' = trace s ++ evs /\
    kubeconfig_info s' = kubeconfig_info s /\
    Exists (fun e => recovery_entry e = true) evs.
Proof.
  intros Hrun. destruct (recovery_trace _ _ _ _ _ _ _ Hrun) as (rest & Ht & _).
  eexists. split; [exact Ht|]. split; [by eapply same_info_recovery|].
  by apply Exists_cons_hd.
Qed.

Lemma record_recovery ct :
  record_step env cfg role (fun r => r = Some true)
    (b <- _attempt_recovery env cfg (target cfg role) ct ;; ret (Some b)).
Proof.
  intros s r s' Hrun. unfold bind in Hrun.
  destruct (_attempt_recovery env cfg (target cfg role) ct s) as [[b|e] s1] eqn:Erec;
    injection Hrun as <- <-;
    destruct (recovery_shows _ _ _ _ Erec) as (evs & Ht & Hi & Hex);
    exists evs; (split; [done|]); left; by split.
Qed.

(** A round that cannot reach recovery, then the rest of the loop. *)
Lemma record_round (body : M (option bool)) (rest : M bool) :
  record_step env cfg role (fun r => r = Some true) body ->
  unrecovered body ->
  record_step env cfg role (fun b => b = true) rest ->
  record_step env cfg role (fun b => b = true)
    (r <- body ;; match r with Some b => ret b | None => rest end).
Proof.
  intros Hbody Hu Hrest s r s' Hrun. unfold bind in Hrun.
  destruct (body s) as [[[b|]|e] s1] eqn:Eb.
  - injection Hrun as <- <-.
    destruct (Hbody _ _ _ Eb) as (evs & Ht & [[Hsame Hrec]|((r0 & [= <-] & [= ->]) & Hrec & Hf)]);
      exists evs; (split; [done|]).
    + left. split; [done|]. intros a [= <-] ->. by eapply Hrec.
    + right. split; [by eexists | by split].
  - destruct (unrecovered_facts _ _ _ _ Hu Eb) as (e1 & Ht1 & Hf1).
    destruct (Hbody _ _ _ Eb) as (e1' & Ht1' & [[Hsame _]|((r0 & [= <-] & [=]) & _)]).
    destruct (Hrest _ _ _ Hrun) as (e2 & Ht2 & Hcase).
    exists (e1 ++ e2). split; [by rewrite Ht2, Ht1, app_assoc|].
    destruct Hcase as [[Hs2 Hrec]|(Hg & Hrec & Hf2)].
    + left. split; [congruence|]. intros a Ha Hga. apply Exists_app. right. by eapply Hrec.
    + right. split; [done|]. split; [unfold recorded in *; by rewrite <- Hsame|].
      by apply Forall_app.
  - injection Hrun as <- <-.
    destruct (Hbody _ _ _ Eb) as (evs & Ht & [[Hsame _]|((r0 & [=] & _) & _)]).
    exists evs. split; [done|]. left. split; [done|]. by intros a [=].
Qed.

(** The last round, then recovery. *)
Lemma record_last (body : M (option bool)) ct :
  record_step env cfg role (fun r => r = Some true) body ->
  record_step env cfg role (fun b => b = true)
    (r <- body ;;
     match r with
     | Some b => ret b
     | None => _attempt_recovery env cfg (target cfg role) ct
     end).
Proof.
  intros Hbody s r s' Hrun. unfold bind in Hrun.
  destruct (body s) as [[[b|]|e] s1] eqn:Eb.
  - injection Hrun as <- <-.
    destruct (Hbody _ _ _ Eb) as (evs & Ht & [[Hsame Hrec]|((r0 & [= <-] & [= ->]) & Hrec & Hf)]);
      exists evs; (split; [done|]).
    + left. split; [done|]. intros a [= <-] ->. by eapply Hrec.
    + right. split; [by eexists | by split].
  - destruct (Hbody _ _ _ Eb) as (e1 & Ht1 & [[Hsame _]|((r0 & [= <-] & [=]) & _)]).
    destruct (recovery_shows _ _ _ _ Hrun) as (e2 & Ht2 & Hi2 & Hex).
    exists (e1 ++ e2). split; [by rewrite Ht2, Ht1, app_assoc|].
    left. split; [congruence|]. intros a _ _. apply Exists_app. by right.
  - injection Hrun as <- <-.
    destruct (Hbody _ _ _ Eb) as (evs & Ht & [[Hsame _]|((r0 & [=] & _) & _)]).
    exists evs. split; [done|]. left. split; [done|]. by intros a [=].
Qed.

End RecordStep.

Lemma after_exception_quiet a e :
  let h := (log Error ("Exception during attempt " +:+ pretty a +:+ ": " +:+ e) ;;;
            sleep_if_more a) in
  same_info h /\ unrecovered h /\ never_good (fun r => r = Some true) h.
Proof.
  cbv zeta. split; [|split].
  - pose proof same_info_sleep_if_more. same_info_auto.
  - apply unrecovered_bind; [by apply unrecovered_log | intros _].
    apply unrecovered_sleep_if_more.
  - apply never_good_bind. intros _. by apply never_good_sleep_if_more.
Qed.

Lemma validation_failed_quiet env cfg role a :
  record_step env cfg role (fun r => r = Some true)
    (log Warning ("Kubeconfig validation failed on attempt " +:+ pretty a) ;;;
     sleep_if_more a).
Proof.
  apply record_quiet.
  - pose proof same_info_sleep_if_more. same_info_auto.
  - apply unrecovered_bind; [by apply unrecovered_log | intros _].
    apply unrecovered_sleep_if_more.
  - apply never_good_bind. intros _. by apply never_good_sleep_if_more.
Qed.

Lemma retry_quiet env cfg role :
  record_step env cfg role (fun r => r = Some true)
    (log Info "Retrying in 5 seconds..." ;;; sleep retry_delay ;;; ret None).
Proof.
  apply record_quiet.
  - pose proof same_info_sleep. same_info_auto.
  - apply unrecovered_bind; [by apply unrecovered_log | intros _].
    apply unrecovered_bind; [apply unrecovered_sleep | intros _; apply unrecovered_ret].
  - apply never_good_bind. intros _. apply never_good_bind. intros _.
    by apply never_good_ret.
Qed.

Lemma record_gke_attempt env cfg a :
  record_step env cfg Gke (fun r => r = Some true)
    (gke_attempt env cfg (kubeconfig_gke_path cfg) a).
Proof.
  unfold gke_attempt.
  apply record_try; [|intros e; apply after_exception_quiet].
  apply record_bind; [apply same_info_log | by apply unrecovered_log | intros _].
  apply record_bind; [apply same_info_runner_run | apply unrecovered_runner_run | intros r].
  destruct (negb r.1).
  - apply record_bind; [apply same_info_log | by apply unrecovered_log | intros _].
    destruct (a <? max_retries)%nat; [apply retry_quiet|].
    apply record_bind; [apply same_info_log | by apply unrecovered_log | intros _].
    apply (record_recovery env cfg Gke).
  - apply record_bind; [apply same_info_validate | apply unrecovered_validate | intros valid].
    destruct valid; [|apply validation_failed_quiet].
    apply record_bind; [apply same_info_set_secure | apply unrecovered_set_secure | intros _].
    apply (record_leaf env cfg Gke).
Qed.

Lemma record_hosted_attempt env cfg a :
  record_step env cfg Hosted (fun r => r = Some true)
    (hosted_attempt env cfg (kubeconfig_hosted_path cfg) a).
Proof.
  unfold hosted_attempt.
  apply record_try; [|intros e; apply after_exception_quiet].
  apply record_bind; [apply same_info_log | by apply unrecovered_log | intros _].
  apply record_bind; [apply same_info_runner_run | apply unrecovered_runner_run | intros r].
  destruct (negb r.1 || String.eqb (strip r.2) "").
  - apply record_bind; [apply same_info_log | by apply unrecovered_log | intros _].
    destruct (a <? max_retries)%nat; [apply retry_quiet|].
    apply record_bind; [apply same_info_log | by apply unrecovered_log | intros _].
    apply (record_recovery env cfg Hosted).
  - (* the decoding has its own handler, which may call recovery *)
    intros s r0 s' Hrun. unfold bind at 1, try_except at 1, bind at 1 in Hrun.
    destruct (decode_kubeconfig_run env r.2 s) as [e Hdec]. rewrite Hdec in Hrun.
    clear Hdec. destruct (decoded env r.2) as [data|].
    + cbn [ret] in Hrun.
      match type of Hrun with ?m s = _ =>
        assert (record_step env cfg Hosted (fun r => r = Some true) m) as Hm end;
        [|exact (Hm _ _ _ Hrun)].
      apply record_bind; [apply same_info_save | apply unrecovered_save | intros saved].
      destruct saved; [|apply record_quiet;
                         [apply same_info_ret | apply unrecovered_ret | by apply never_good_ret]].
      apply record_bind; [apply same_info_validate | apply unrecovered_validate | intros valid].
      destruct valid; [|apply validation_failed_quiet].
      apply (record_leaf env cfg Hosted).
    + rewrite bind_log in Hrun.
      destruct (a <? max_retries)%nat.
      * rewrite bind_sleep in Hrun. cbn in Hrun. injection Hrun as <- <-.
        eexists [_; _]. split; [cbn; by rewrite <- app_assoc|].
        left. split; [done|]. by intros b [= <-].
      * unfold bind at 1 in Hrun.
        match type of Hrun with context [_attempt_recovery env cfg ?p "hosted" ?st] =>
          destruct (_attempt_recovery env cfg p "hosted" st) as [[b|e'] s1] eqn:Erec end;
          cbn in Hrun; injection Hrun as <- <-;
          destruct (recovery_shows env cfg Hosted _ _ _ _ Erec) as (evs & Ht & Hi & Hex);
          eexists (_ :: evs); (split; [rewrite Ht; cbn; by rewrite <- app_assoc|]);
          left; (split; [done|]); intros; by apply Exists_cons_tl.
Qed.

(** The two ways a call begins, with the dictionary still untouched. *)
Lemma create_begins env cfg role force s :
  (exists s', create env cfg role force s = (Ok true, s') /\ quietly s s' /\
              kubeconfig_info s' = kubeconfig_info s) \/
  (exists s2, create env cfg role force s = acquire env cfg role s2 /\ quietly s s2 /\
              kubeconfig_info s2 = kubeconfig_info s).
Proof.
  set (s1 := add_events [EvLog Info (creating_message role)] s).
  assert (quietly s s1) as Hq1 by (by apply quietly_emit; destruct role).
  assert (create env cfg role force s =
          bind (if negb force
                then _is_kubeconfig_valid env cfg (target cfg role) (type_name role)
                else ret false)
               (fun valid => if valid
                  then bind (log Info (exists_message role)) (fun _ => ret true)
                  else acquire env cfg role) s1) as Hc.
  { by destruct role. }
  rewrite Hc. clear Hc. destruct force.
  { right. exists s1. by split. }
  change (negb false) with true. cbv iota. unfold bind at 1 3.
  pose proof (is_valid_result env cfg (target cfg role) (type_name role) s1) as Hres.
  destruct (_is_kubeconfig_valid env cfg (target cfg role) (type_name role) s1)
    as [r s2] eqn:Erun.
  cbn in Hres. subst r.
  pose proof (same_info_is_valid _ _ _ _ _ _ _ Erun) as Hi.
  apply is_valid_quietly in Erun.
  change (world s1) with (world s).
  destruct (valid_ok env cfg (world s) (target cfg role)).
  - left. rewrite bind_log. eexists. split; [reflexivity|]. split; [|exact Hi].
    eapply quietly_trans; [exact Hq1|]. eapply quietly_trans; [exact Erun|].
    by apply quietly_emit; destruct role.
  - right. exists s2. split; [reflexivity|]. split; [by eapply quietly_trans | exact Hi].
Qed.

Lemma record_attempt env cfg role a :
  record_step env cfg role (fun r => r = Some true) (attempt env cfg role a).
Proof. destruct role; [apply record_gke_attempt | apply record_hosted_attempt]. Qed.

Lemma unrecovered_attempt env cfg role a :
  (a < max_retries)%nat -> unrecovered (attempt env cfg role a).
Proof.
  destruct role; [apply unrecovered_gke_attempt | apply unrecovered_hosted_attempt].
Qed.

Lemma record_retry_loop env cfg role :
  record_step env cfg role (fun b => b = true) (retry_loop env cfg role).
Proof.
  unfold retry_loop. cbn [seq max_retries for_attempts].
  apply record_round; [apply record_attempt | apply unrecovered_attempt; unfold max_retries; lia |].
  apply record_round; [apply record_attempt | apply unrecovered_attempt; unfold max_retries; lia |].
  apply record_last, record_attempt.
Qed.

Lemma record_acquire env cfg role :
  record_step env cfg role (fun b => b = true) (acquire env cfg role).
Proof.
  assert (acquire env cfg role =
          bind (_ensure_directory_exists env (target cfg role))
            (fun dir_ok => if negb dir_ok then ret false else
               ex <- path_exists (target cfg role) ;;
               (if ex then
                  backup <- _create_backup env (target cfg role) ;;
                  log Info ("Backed up existing kubeconfig to " +:+ default "None" backup)
                else ret tt) ;;;
               retry_loop env cfg role)) as -> by (by destruct role).
  apply record_bind;
    [apply same_info_ensure_directory | apply unrecovered_ensure_directory | intros dir_ok].
  destruct (negb dir_ok).
  { apply record_quiet; [apply same_info_ret | apply unrecovered_ret | by apply never_good_ret]. }
  apply record_bind; [apply same_info_path_exists | apply unrecovered_path_exists | intros ex].
  apply record_bind; [| |intros _; apply record_retry_loop].
  - pose proof (same_info_create_backup env). same_info_auto.
  - destruct ex; [|apply unrecovered_ret].
    apply unrecovered_bind; [apply unrecovered_create_backup | intros b].
    by apply unrecovered_log.
Qed.

(** An acquisition that returns [True] has made an attempt. *)
Lemma acquire_true_attempted env cfg role s s' evs :
  acquire env cfg role s = (Ok true, s') ->
  trace s' = trace s ++ evs -> steps evs <> [].
Proof.
  intros Hrun Ht.
  destruct (dirs (world s) !! parent (target cfg role)) as [m|] eqn:Hd;
    [|destruct (io_error env (world s) (OpMkdir (parent (target cfg role)))) eqn:Hio].
  1,3: destruct (acquire_enters_loop env cfg role s) as (s1 & Hacq & e0 & Ht0 & Hc0);
       [by (left + right) |];
       destruct (retry_loop_outcome env cfg role s1)
         as (r & s2 & e1 & Hrun1 & Ht1 & ((Hn & _) & _) & _);
       rewrite Hacq, Hrun1 in Hrun; injection Hrun as -> ->;
       rewrite Ht1, Ht0, <- app_assoc in Ht; apply app_inv_head in Ht as <-;
       rewrite steps_app, (steps_calm e0) by done; cbn [app];
       intros H0; unfold attempts_made in Hn; rewrite H0 in Hn; cbn in Hn; lia.
  assert (acquire env cfg role s =
          (Ok false,
           add_events [EvLog Error ("Failed to create directory for " +:+
                                    target cfg role +:+ ": OSError")] s)) as Hf.
  { destruct role; cbn [acquire target]; unfold acquire_gke, acquire_hosted;
      unfold bind at 1; by rewrite ensure_directory_fails. }
  by rewrite Hf in Hrun.
Qed.

(** X12. [kubeconfig_info] gets an entry exactly when a call of
    [create_gke_kubeconfig] or [create_hosted_kubeconfig] returns [True]
    from one of its attempts.  Then the entry stored under the target path,
    and nowhere else, is that of the credential just made: path, cluster
    name and type of the role, the current clock, no backup path, and as
    checksum the SHA-256 of the file as it is on disk when the call returns
    (the empty string when the file cannot be read); the call has run its
    acquisition command and has not entered recovery.  In every other case
    the dictionary is exactly as before: on [False], on an exception, and
    also on [True] when that comes from the fast path (no acquisition
    command run) or from recovery. *)
Theorem create_records_what_it_made env cfg role force s :
  let run := create env cfg role force s in
  exists evs, trace run.2 = trace s ++ evs /\
    ((kubeconfig_info run.2 = kubeconfig_info s /\
      (run.1 = Ok true ->
       steps evs = [] \/ Exists (fun e => recovery_entry e = true) evs))
     \/
     (run.1 = Ok true /\ steps evs <> [] /\
      Forall (fun e => recovery_entry e = false) evs /\
      kubeconfig_info run.2 =
        <[target cfg role :=
            mkInfo (target cfg role) (role_cluster cfg role) (type_name role)
                   (now (world run.2)) (checksum_of env (world run.2) (target cfg role))
                   None]> (kubeconfig_info s))).
Proof.
  cbv zeta.
  destruct (create_begins env cfg role force s)
    as [(s1 & -> & [_ (evs & Ht & Hc)] & Hi)|(s2 & -> & [Hw2 (e0 & Ht0 & Hc0)] & Hi2)].
  - cbn [fst snd]. exists evs. split; [done|]. left. split; [done|].
    intros _. left. by apply steps_calm.
  - destruct (acquire env cfg role s2) as [r s'] eqn:Hrun. cbn [fst snd].
    destruct (record_acquire env cfg role _ _ _ Hrun) as (evs & Ht & Hcase).
    exists (e0 ++ evs). split; [by rewrite Ht, Ht0, app_assoc|].
    destruct Hcase as [[Hsame Hrec]|((b & -> & ->) & Hrec & Hf)].
    + left. split; [congruence|]. intros ->. right.
      apply Exists_app. right. by eapply Hrec.
    + right. split; [done|]. split; [|split].
      * rewrite steps_app, (steps_calm e0) by done.
        by eapply acquire_true_attempted.
      * apply Forall_app. split; [|done].
        eapply Forall_impl; [exact Hc0 | apply calm_no_entry].
      * unfold recorded, fresh_entry in Hrec. by rewrite Hrec, Hi2.
Qed.

(** A success by attempt records the digest of what is on disk. *)
Example created_entry :
  let run := create_gke_kubeconfig (toy_env both_up writes_good no_io_error)
               toy_cfg true empty_state in
  run.1 = Ok true /\
  kubeconfig_info run.2 !! "/tmp/kubeconfig-gke"
    = Some (mkInfo "/tmp/kubeconfig-gke" "mgmt" "gke" 100 "sha256:good" None).
Proof. vm_compute. by repeat split. Qed.

(** A success by recovery records nothing. *)
Example recovered_entry :
  let run := create_gke_kubeconfig (toy_env always_up writes_nothing no_io_error)
               toy_cfg true three_backups in
  run.1 = Ok true /\ kubeconfig_info run.2 = ∅.
Proof. vm_compute. by repeat split. Qed.

(** ** The commands a call runs *)

Definition role_command (cfg : InstallConfig) (role : Role) : Command :=
  match role with
  | Gke => gke_command cfg
  | Hosted => hosted_command cfg
  end.

(** A command run is a connectivity probe or the role's own acquisition
    command with the management kubeconfig as [$KUBECONFIG]. *)
Definition own_command (cfg : InstallConfig) (role : Role) (e : Event) : Prop :=
  forall c k ok, e = EvRun c k ok ->
    c = ClusterInfo \/ (c = role_command cfg role /\ k = kubeconfig_gke_path cfg).

Lemma calm_own_command cfg role e : calm e = true -> own_command cfg role e.
Proof. intros He c k ok ->. destruct c; try done. by left. Qed.

Lemma acquire_commands env cfg role s r s' :
  acquire env cfg role s = (r, s') ->
  exists evs, trace s' = trace s ++ evs /\ Forall (own_command cfg role) evs.
Proof.
  intros Hrun.
  assert (keeps (own_command cfg role) (fun _ _ => True) (acquire env cfg role)) as Hk.
  { destruct role; cbn [acquire];
      [eapply keeps_acquire_gke with (may_write := fun _ => True)
                                     (may_delete := fun _ => True) (may_meta := True)
      |eapply keeps_acquire_hosted with (may_write := fun _ => True)
                                        (may_delete := fun _ => True) (may_meta := True)];
      try done; try apply anything_goes; try apply calm_own_command.
    all: intros ok c k ok' [= <- <- <-]; by right. }
  by destruct (Hk s r s' Hrun).
Qed.

(** X13. Every command a call of [create_gke_kubeconfig] or
    [create_hosted_kubeconfig] runs is either the connectivity probe or the
    acquisition command of its own role, run with the management
    kubeconfig as [$KUBECONFIG]: the management role never reads the
    secret, the hosted role never calls gcloud, whatever path the call
    takes. *)
Theorem create_runs_only_its_command env cfg role force s :
  exists evs,
    trace (create env cfg role force s).2 = trace s ++ evs /\
    forall c k ok, EvRun c k ok ∈ evs ->
      c = ClusterInfo \/ (c = role_command cfg role /\ k = kubeconfig_gke_path cfg).
Proof.
  assert (exists evs, trace (create env cfg role force s).2 = trace s ++ evs /\
                      Forall (own_command cfg role) evs) as (evs & Ht & Hall).
  { destruct (create_cases env cfg role force s)
      as [(s1 & -> & [_ (evs & Ht & Hc)] & _)|(s2 & -> & [_ (e0 & Ht0 & Hc0)])].
    - exists evs. split; [done|].
      eapply Forall_impl; [exact Hc | apply calm_own_command].
    - destruct (acquire env cfg role s2) as [r s'] eqn:Hrun.
      apply acquire_commands in Hrun as (evs & Ht & Hall).
      exists (e0 ++ evs). split; [cbn; by rewrite Ht, Ht0, app_assoc|].
      apply Forall_app. split; [|done].
      eapply Forall_impl; [exact Hc0 | apply calm_own_command]. }
  exists evs. split; [done|]. intros c k ok Hin.
  rewrite Forall_forall in Hall. by apply (Hall _ Hin c k ok).
Qed.

(** * Dry-run *)

Lemma structure_ok_missing env w path :
  files w !! path = None -> structure_ok env w path = false.
Proof.
  intros Hf. unfold structure_ok, load_document. rewrite Hf.
  by destruct (io_error env w (OpRead path)).
Qed.

(** gcloud reports success, but what lies at the target does not pass. *)
Lemma gke_attempt_invalid env cfg a s :
  gke_fetch env cfg (world s) = true ->
  let path := kubeconfig_gke_path cfg in
  let w1 := run_world env cfg (gke_command cfg) path (world s) in
  structure_ok env w1 path = false ->
  exists s' evs,
    gke_attempt env cfg path a s = (Ok None, s') /\
    files (world s') = files w1 /\ dirs (world s') = dirs w1 /\
    trace s' = trace s ++ evs /\
    steps evs = Attempt :: (if (a <? max_retries)%nat then [Sleep retry_delay] else []).
Proof.
  rewrite gke_fetch_result. intros Hfetch path w1 Hs.
  unfold gke_attempt, try_except. fold path. fold path in Hfetch.
  rewrite bind_log, bind_run. cbn [world trace kubeconfig_info add_events]. fold w1.
  destruct (run_result env cfg (world s) (gke_command cfg) path false 120) as [ok out].
  cbn in Hfetch. subst ok. cbn [fst snd negb].
  match goal with |- context [bind (_validate_kubeconfig_file env path "gke") _ ?st] =>
    set (s1 := st) end.
  unfold bind at 1.
  pose proof (validate_result env path "gke" s1) as Hres.
  destruct (_validate_kubeconfig_file env path "gke" s1) as [rv s2] eqn:Ev.
  cbn in Hres. change (world s1) with w1 in Hres. rewrite Hs in Hres. subst rv.
  apply validate_quietly in Ev as [Hw2 (e2 & Ht2 & Hc2)].
  change (world s1) with w1 in Hw2.
  rewrite bind_log. unfold sleep_if_more.
  destruct (a <? max_retries)%nat.
  - rewrite bind_sleep. unfold ret.
    eexists _, ([EvLog Info (attempt_label a +:+ ": Getting GKE credentials...");
                 EvRun (gke_command cfg) path true] ++ e2 ++
                [EvLog Warning ("Kubeconfig validation failed on attempt " +:+ pretty a);
                 EvSleep retry_delay]).
    split; [reflexivity|]. cbn [world trace add_events files dirs].
    rewrite Hw2. split; [done|]. split; [done|]. split.
    + rewrite Ht2. subst s1. cbn. by rewrite <- !app_assoc.
    + by rewrite !steps_app, (steps_calm e2).
  - unfold ret.
    eexists _, ([EvLog Info (attempt_label a +:+ ": Getting GKE credentials...");
                 EvRun (gke_command cfg) path true] ++ e2 ++
                [EvLog Warning ("Kubeconfig validation failed on attempt " +:+ pretty a)]).
    split; [reflexivity|]. cbn [world trace add_events files dirs].
    rewrite Hw2. split; [done|]. split; [done|]. split.
    + rewrite Ht2. subst s1. cbn. by rewrite <- !app_assoc.
    + by rewrite !steps_app, (steps_calm e2).
Qed.

(** Recovery with nothing to recover from. *)
Lemma recovery_without_backups env cfg path ct s :
  glob_backups (world s) path = [] ->
  _attempt_recovery env cfg path ct s =
    (Ok false,
     add_events [EvLog Warning (recovery_message ct);
                 EvLog Error ("Recovery failed for " +:+ ct +:+ " kubeconfig")] s).
Proof.
  intros Hglob. unfold _attempt_recovery. rewrite bind_log.
  unfold bind at 1, get_world. cbn [world add_events]. rewrite Hglob.
  cbn. unfold add_events. cbn. by rewrite <- app_assoc.
Qed.

Lemma glob_backups_files w w' path :
  files w' = files w -> glob_backups w' path = glob_backups w path.
Proof. unfold glob_backups. by intros ->. Qed.

(** X14. Dry-run is neither instantaneous nor a success on a clean
    machine.  With [dry_run] set, the target missing and no backup of it,
    once the directory step has passed, [create_gke_kubeconfig] (forced or
    not) goes through all three attempts, each "succeeding" without
    running gcloud and then failing validation because no file was written,
    sleeps twice, finds nothing to recover from, and returns [False]; no
    file has changed. *)
Theorem dry_run_gke_from_scratch env cfg force s :
  dry_run cfg = true ->
  files (world s) !! kubeconfig_gke_path cfg = None ->
  glob_backups (world s) (kubeconfig_gke_path cfg) = [] ->
  is_Some (dirs (world s) !! parent (kubeconfig_gke_path cfg)) \/
  io_error env (world s) (OpMkdir (parent (kubeconfig_gke_path cfg))) = false ->
  exists s' evs,
    create_gke_kubeconfig env cfg force s = (Ok false, s') /\
    files (world s') = files (world s) /\
    trace s' = trace s ++ evs /\
    steps evs = [Attempt; Sleep retry_delay; Attempt; Sleep retry_delay; Attempt] /\
    last evs = Some (EvLog Error "Recovery failed for gke kubeconfig").
Proof.
  intros Hdry Hf Hglob Hdir.
  (* past the fast path *)
  destruct (create_goes_on env cfg Gke force s) as (s0 & Hgo & Hw0 & e0 & Ht0 & Hc0).
  { right. rewrite is_valid_result. cbn [target]. unfold valid_ok.
    by rewrite Hf, bool_decide_false by (by intros [? ?]). }
  cbn [create acquire] in Hgo. rewrite Hgo.
  (* directory, no backup to take *)
  destruct (ensure_directory_ok env (kubeconfig_gke_path cfg) s0)
    as (s1 & Hens & Hf1 & Hn1 & e1 & Ht1 & Hc1).
  { by rewrite Hw0. }
  unfold acquire_gke. unfold bind at 1. rewrite Hens. cbn [negb].
  unfold bind at 1, path_exists.
  rewrite Hf1, Hw0, Hf, bool_decide_false by (by intros [? ?]).
  unfold bind at 1, ret at 1. cbn [seq max_retries for_attempts].
  assert (forall st, files (world st) = files (world s) ->
            gke_fetch env cfg (world st) = true /\
            structure_ok env
              (run_world env cfg (gke_command cfg) (kubeconfig_gke_path cfg) (world st))
              (kubeconfig_gke_path cfg) = false) as Hinv.
  { intros st Hst. unfold gke_fetch, run_world. rewrite Hdry. split; [done|].
    apply structure_ok_missing. by rewrite Hst. }
  assert (forall w, run_world env cfg (gke_command cfg) (kubeconfig_gke_path cfg) w = w)
    as Hrw.
  { intros w. unfold run_world. by rewrite Hdry. }
  (* three attempts *)
  unfold bind at 1.
  destruct (Hinv s1) as [Hg1 Hs1]; [by rewrite Hf1, Hw0|].
  destruct (gke_attempt_invalid env cfg 1 s1 Hg1 Hs1)
    as (s2 & a1 & -> & Hf2 & _ & Ht2 & Hst1).
  rewrite Hrw in Hf2.
  unfold bind at 1.
  destruct (Hinv s2) as [Hg2 Hs2]; [by rewrite Hf2, Hf1, Hw0|].
  destruct (gke_attempt_invalid env cfg 2 s2 Hg2 Hs2)
    as (s3 & a2 & -> & Hf3 & _ & Ht3 & Hst2).
  rewrite Hrw in Hf3.
  unfold bind at 1.
  destruct (Hinv s3) as [Hg3 Hs3]; [by rewrite Hf3, Hf2, Hf1, Hw0|].
  destruct (gke_attempt_invalid env cfg 3 s3 Hg3 Hs3)
    as (s4 & a3 & -> & Hf4 & _ & Ht4 & Hst3).
  rewrite Hrw in Hf4.
  (* recovery *)
  assert (files (world s4) = files (world s)) as Hfiles.
  { by rewrite Hf4, Hf3, Hf2, Hf1, Hw0. }
  rewrite recovery_without_backups
    by (by rewrite (glob_backups_files (world s) (world s4)
                      (kubeconfig_gke_path cfg))).
  eexists _, (e0 ++ e1 ++ a1 ++ a2 ++ a3 ++
              [EvLog Warning (recovery_message "gke");
               EvLog Error "Recovery failed for gke kubeconfig"]).
  split; [reflexivity|]. cbn [world trace add_events].
  split; [done|]. split; [|split].
  - rewrite Ht4, Ht3, Ht2, Ht1, Ht0. by rewrite <- !app_assoc.
  - rewrite !steps_app, (steps_calm e0), (steps_calm e1), Hst1, Hst2, Hst3 by done.
    done.
  - change [EvLog Warning (recovery_message "gke");
            EvLog Error "Recovery failed for gke kubeconfig"]
      with ([EvLog Warning (recovery_message "gke")] ++
            [EvLog Error "Recovery failed for gke kubeconfig"]).
    rewrite !app_assoc. apply last_snoc.
Qed.

Definition dry_cfg : InstallConfig :=
  mkConfig "proj" "us-central1-a" "mgmt" "hosted1"
           "/tmp/kubeconfig-gke" "/tmp/kubeconfig-hosted" true.

Lemma dry_run_gke_from_scratch_witness :
  exists s' evs,
    create_gke_kubeconfig (toy_env always_up writes_good no_io_error) dry_cfg false
      empty_state = (Ok false, s') /\
    files (world s') = files (world empty_state) /\
    trace s' = trace empty_state ++ evs /\
    steps evs = [Attempt; Sleep retry_delay; Attempt; Sleep retry_delay; Attempt] /\
    last evs = Some (EvLog Error "Recovery failed for gke kubeconfig").
Proof.
  apply (dry_run_gke_from_scratch (toy_env always_up writes_good no_io_error) dry_cfg
           false empty_state).
  - reflexivity.
  - vm_compute. reflexivity.
  - vm_compute. reflexivity.
  - left. vm_compute. eexists. reflexivity.
Defined.

(** * Backups are kept or reinstated *)

(** Every backup of [path] is as before. *)
Definition backups_same (path : string) (w w' : World) : Prop :=
  forall b, is_backup_of path b = true -> files w' !! b = files w !! b.

(** Every backup of [path] is as before, or it is gone from its name and
    the target now is that very file. *)
Definition kept_or_reinstated (path : string) (w w' : World) : Prop :=
  forall b, is_backup_of path b = true ->
    files w' !! b = files w !! b \/
    (files w' !! b = None /\ files w' !! path = files w !! b).

(** The backups are left alone. *)
Definition spares (path : string) {A} (m : M A) : Prop :=
  forall s r s', m s = (r, s') -> backups_same path (world s) (world s').

(** The backups are left alone, or the run ends well having reinstated
    one. *)
Definition backup_safe (path : string) {A} (good : A -> Prop) (m : M A) : Prop :=
  forall s r s', m s = (r, s') ->
    backups_same path (world s) (world s') \/
    ((exists a, r = Ok a /\ good a) /\ kept_or_reinstated path (world s) (world s')).

Section Spare.
Variable env : Env.
Variable cfg : InstallConfig.
Variable path : string.

Lemma backups_same_pre : PreOrder (backups_same path).
Proof.
  split; [by intros w b _|].
  intros w1 w2 w3 H12 H23 b Hb. by rewrite H23, H12.
Qed.

Lemma spares_of_keeps {A} (m : M A) :
  keeps (fun _ => True) (backups_same path) m -> spares path m.
Proof. intros Hk s r s' Hrun. by destruct (Hk s r s' Hrun). Qed.

Lemma spare_write p :
  is_backup_of path p = false ->
  forall w f, backups_same path w (set_files (<[p := f]> (files w)) w).
Proof. intros Hp w f b Hb. cbn. apply lookup_insert_ne. congruence. Qed.

Lemma spare_delete p :
  is_backup_of path p = false ->
  forall w, backups_same path w (set_files (delete p (files w)) w).
Proof. intros Hp w b Hb. cbn. apply lookup_delete_ne. congruence. Qed.

Lemma spare_meta : True -> forall w d t, backups_same path w (mkWorld (files w) d t).
Proof. by intros _ w d t b Hb. Qed.

Lemma spares_ret {A} (a : A) : spares path (ret a).
Proof. intros s r s' [= <- <-]. by intros b _. Qed.

Lemma spares_bind {A B} (m : M A) (k : A -> M B) :
  spares path m -> (forall a, spares path (k a)) -> spares path (bind m k).
Proof.
  intros Hm Hk s r s' Hrun. unfold bind in Hrun.
  destruct (m s) as [[a|e] s1] eqn:Em.
  - intros b Hb. rewrite (Hk a _ _ _ Hrun b Hb). by apply (Hm _ _ _ Em).
  - injection Hrun as <- <-. by eapply Hm.
Qed.

Lemma spares_log lvl msg : spares path (log lvl msg).
Proof. intros s r s' [= <- <-]. by intros b _. Qed.

Lemma spares_sleep secs : spares path (sleep secs).
Proof. intros s r s' [= <- <-]. by intros b _. Qed.

Lemma spares_sleep_if_more a : spares path (sleep_if_more a).
Proof.
  unfold sleep_if_more. destruct (a <? max_retries)%nat; [|apply spares_ret].
  apply spares_bind; [apply spares_sleep | intros; apply spares_ret].
Qed.

Lemma spares_store_info p name ct sum : spares path (store_info p name ct sum).
Proof. intros s r s' [= <- <-]. by intros b _. Qed.

Ltac spare_side :=
  first [ exact backups_same_pre | exact spare_write | exact spare_delete
        | exact spare_meta | exact I | apply target_is_no_backup
        | apply temp_is_no_backup | done ].

Lemma spares_validate p ct : spares path (_validate_kubeconfig_file env p ct).
Proof. apply spares_of_keeps. apply keeps_validate; spare_side. Qed.

Lemma spares_checksum p : spares path (_calculate_file_checksum env p).
Proof. apply spares_of_keeps. apply keeps_checksum; spare_side. Qed.

Lemma spares_decode b64 : spares path (decode_kubeconfig env b64).
Proof. apply spares_of_keeps. apply keeps_decode_kubeconfig; spare_side. Qed.

Lemma spares_ensure_directory p : spares path (_ensure_directory_exists env p).
Proof.
  apply spares_of_keeps.
  apply keeps_ensure_directory with (may_meta := True); spare_side.
Qed.

Lemma spares_set_secure : spares path (_set_secure_permissions env path).
Proof.
  apply spares_of_keeps.
  apply keeps_set_secure_permissions
    with (may_write := fun p => is_backup_of path p = false); spare_side.
Qed.

Lemma spares_save data : spares path (save_kubeconfig env cfg path data).
Proof.
  apply spares_of_keeps.
  apply keeps_save_kubeconfig
    with (may_write := fun p => is_backup_of path p = false)
         (may_delete := fun p => is_backup_of path p = false); spare_side.
Qed.

(** An external command writes at most at its [$KUBECONFIG]. *)
Lemma spares_runner_run cmd k co t :
  is_backup_of path k = false -> spares path (runner_run env cfg cmd k co t).
Proof.
  intros Hk. apply spares_of_keeps.
  apply keeps_runner_run with (may_write := fun p => is_backup_of path p = false);
    first [ spare_side | by destruct cmd ].
Qed.

Lemma backup_safe_spares {A} (good : A -> Prop) (m : M A) :
  spares path m -> backup_safe path good m.
Proof. intros Hm s r s' Hrun. left. by eapply Hm. Qed.

Lemma backup_safe_bind {A B} (good : B -> Prop) (m : M A) (k : A -> M B) :
  spares path m -> (forall a, backup_safe path good (k a)) ->
  backup_safe path good (bind m k).
Proof.
  intros Hm Hk s r s' Hrun. unfold bind in Hrun.
  destruct (m s) as [[a|e] s1] eqn:Em.
  - pose proof (Hm _ _ _ Em) as H1.
    destruct (Hk a _ _ _ Hrun) as [H2|[Hg H2]].
    + left. intros b Hb. by rewrite H2, H1.
    + right. split; [done|]. intros b Hb. rewrite <- (H1 b Hb). by apply H2.
  - injection Hrun as <- <-. left. by eapply Hm.
Qed.

Lemma backup_safe_try {A} (good : A -> Prop) (m : M A) (h : string -> M A) :
  backup_safe path good m -> (forall e, spares path (h e)) ->
  backup_safe path good (try_except m h).
Proof.
  intros Hm Hh s r s' Hrun. unfold try_except in Hrun.
  destruct (m s) as [[a|e] s1] eqn:Em.
  - injection Hrun as <- <-. by eapply Hm.
  - destruct (Hm _ _ _ Em) as [H1|[(a & [=] & _) _]].
    left. intros b Hb. rewrite <- (H1 b Hb). by eapply Hh.
Qed.

(** Recovery takes at most one backup, and only to make it the target. *)
Lemma recovery_backup_safe ct :
  backup_safe path (fun b => b = true) (_attempt_recovery env cfg path ct).
Proof.
  intros s r s' Erun.
  unfold _attempt_recovery in Erun. rewrite bind_log in Erun.
  set (s1 := add_events [EvLog Warning (recovery_message ct)] s) in Erun.
  unfold bind at 1, get_world in Erun. change (world s1) with (world s) in Erun.
  unfold bind at 1 in Erun.
  destruct (stat_keys env (glob_backups (world s) path) s1) as [[keyed|e] s2] eqn:Ek.
  - apply stat_keys_run in Ek as [-> _].
    destruct (recovery_loop_run env cfg path ct (map fst (sort_desc keyed)) s1)
      as (r0 & s0 & evs & Hrun & _ & Hcase).
    rewrite Hrun in Erun. injection Erun as <- <-.
    change (world s1) with (world s) in Hcase.
    destruct Hcase as [(pre & b & post & f & _ & _ & _ & Hf & -> & _ & Hw)
                      |(_ & _ & _ & Hw)].
    + right. split; [by eexists|]. intros b' Hb'. rewrite Hw. cbn.
      pose proof (backup_is_not_target _ _ Hb') as Hne.
      destruct (decide (b' = b)) as [->|Hbb].
      * right. rewrite lookup_insert_ne, lookup_delete_eq, lookup_insert_eq by done.
        by split.
      * left. by rewrite lookup_insert_ne, lookup_delete_ne by done.
    + left. rewrite Hw. by intros b _.
  - apply stat_keys_run in Ek as [-> _]. injection Erun as <- <-. left. by intros b _.
Qed.

Lemma recovery_as_attempt ct :
  backup_safe path (fun r => r = Some true)
    (b <- _attempt_recovery env cfg path ct ;; ret (Some b)).
Proof.
  intros s r s' Hrun. unfold bind in Hrun.
  destruct (_attempt_recovery env cfg path ct s) as [[b|e] s1] eqn:Erec.
  - injection Hrun as <- <-.
    destruct (recovery_backup_safe ct _ _ _ Erec) as [H|[(b0 & [= <-] & ->) H]];
      [by left|].
    right. split; [by eexists | done].
  - injection Hrun as <- <-.
    destruct (recovery_backup_safe ct _ _ _ Erec) as [H|[(b0 & [=] & _) _]]. by left.
Qed.

Lemma backup_for_attempts (body : nat -> M (option bool)) attempts (after : M bool) :
  (forall a, backup_safe path (fun r => r = Some true) (body a)) ->
  backup_safe path (fun b => b = true) after ->
  backup_safe path (fun b => b = true) (for_attempts body attempts after).
Proof.
  intros Hbody Hafter. induction attempts as [|a rest IH]; cbn [for_attempts]; [done|].
  intros s r s' Hrun. unfold bind in Hrun.
  destruct (body a s) as [[[b|]|e] s1] eqn:Eb.
  - injection Hrun as <- <-.
    destruct (Hbody _ _ _ _ Eb) as [H|[(r0 & [= <-] & [= ->]) H]]; [by left|].
    right. split; [by eexists | done].
  - destruct (Hbody _ _ _ _ Eb) as [H1|[(r0 & [= <-] & [=]) _]].
    destruct (IH _ _ _ Hrun) as [H2|[Hg H2]].
    + left. intros b Hb. by rewrite H2, H1.
    + right. split; [done|]. intros b Hb. rewrite <- (H1 b Hb). by apply H2.
  - injection Hrun as <- <-.
    destruct (Hbody _ _ _ _ Eb) as [H|[(r0 & [=] & _) _]]. by left.
Qed.

End Spare.

Lemma backup_gke_attempt env cfg a :
  backup_safe (kubeconfig_gke_path cfg) (fun r => r = Some true)
    (gke_attempt env cfg (kubeconfig_gke_path cfg) a).
Proof.
  set (path := kubeconfig_gke_path cfg).
  unfold gke_attempt. fold path.
  apply backup_safe_try.
  2:{ intros e. apply spares_bind; [apply spares_log | intros; apply spares_sleep_if_more]. }
  apply backup_safe_bind; [apply spares_log | intros _].
  apply backup_safe_bind;
    [apply spares_runner_run, target_is_no_backup | intros r].
  destruct (negb r.1).
  - apply backup_safe_bind; [apply spares_log | intros _].
    destruct (a <? max_retries)%nat.
    + apply backup_safe_spares.
      apply spares_bind; [apply spares_log | intros _].
      apply spares_bind; [apply spares_sleep | intros; apply spares_ret].
    + apply backup_safe_bind; [apply spares_log | intros _].
      apply recovery_as_attempt.
  - apply backup_safe_bind; [apply spares_validate | intros valid].
    apply backup_safe_spares. destruct valid.
    + apply spares_bind; [apply spares_set_secure | intros _].
      apply spares_bind; [apply spares_checksum | intros sum].
      apply spares_bind; [apply spares_store_info | intros _].
      apply spares_bind; [apply spares_log | intros; apply spares_ret].
    + apply spares_bind; [apply spares_log | intros; apply spares_sleep_if_more].
Qed.

Lemma backup_hosted_attempt env cfg a :
  backup_safe (kubeconfig_hosted_path cfg) (fun r => r = Some true)
    (hosted_attempt env cfg (kubeconfig_hosted_path cfg) a).
Proof.
  set (path := kubeconfig_hosted_path cfg).
  unfold hosted_attempt. fold path.
  apply backup_safe_try.
  2:{ intros e. apply spares_bind; [apply spares_log | intros; apply spares_sleep_if_more]. }
  apply backup_safe_bind; [apply spares_log | intros _].
  apply backup_safe_bind.
  { intros s r s' Hrun.
    assert (world s' = world s) as ->; [|by intros b _].
    rewrite <- (run_world_secret env cfg (kubeconfig_gke_path cfg) (world s)).
    unfold bind in Hrun. pose proof (bind_run env cfg (hosted_command cfg)
      (kubeconfig_gke_path cfg) true 60 (fun x => ret x) s) as Hb.
    unfold bind, ret in Hb.
    destruct (runner_run env cfg (hosted_command cfg) (kubeconfig_gke_path cfg) true 60 s)
      as [[x|e] s1]; [|done].
    rewrite Hrun in Hb. by injection Hb as -> ->. }
  intros r.
  destruct (negb r.1 || String.eqb (strip r.2) "").
  - apply backup_safe_bind; [apply spares_log | intros _].
    destruct (a <? max_retries)%nat.
    + apply backup_safe_spares.
      apply spares_bind; [apply spares_log | intros _].
      apply spares_bind; [apply spares_sleep | intros; apply spares_ret].
    + apply backup_safe_bind; [apply spares_log | intros _].
      apply recovery_as_attempt.
  - (* decode in its own try: a value, or the handler's way out *)
    intros s r0 s' Hrun. unfold bind at 1, try_except at 1, bind at 1 in Hrun.
    destruct (decode_kubeconfig_run env r.2 s) as [e Hdec]. rewrite Hdec in Hrun.
    destruct (decoded env r.2) as [data|].
    + clear Hdec. cbn [ret] in Hrun. left.
      match type of Hrun with ?m s = _ => assert (spares path m) as Hsp end;
        [|exact (Hsp _ _ _ Hrun)].
      apply spares_bind; [apply spares_save | intros saved].
      destruct saved; [|apply spares_ret].
      apply spares_bind; [apply spares_validate | intros valid]. destruct valid.
      * apply spares_bind; [apply spares_checksum | intros sum].
        apply spares_bind; [apply spares_store_info | intros _].
        apply spares_bind; [apply spares_log | intros; apply spares_ret].
      * apply spares_bind; [apply spares_log | intros; apply spares_sleep_if_more].
    + rewrite bind_log in Hrun.
      destruct (a <? max_retries)%nat.
      * rewrite bind_sleep in Hrun. cbn in Hrun. injection Hrun as <- <-.
        left. by intros b _.
      * unfold bind at 1 in Hrun.
        match type of Hrun with context [_attempt_recovery env cfg path "hosted" ?st] =>
          destruct (_attempt_recovery env cfg path "hosted" st) as [[b|e'] s1] eqn:Erec end.
        -- cbn in Hrun. injection Hrun as <- <-.
           destruct (recovery_backup_safe env cfg path "hosted" _ _ _ Erec)
             as [H|[(b0 & [= <-] & ->) H]]; [by left|].
           right. split; [by eexists | done].
        -- injection Hrun as <- <-.
           destruct (recovery_backup_safe env cfg path "hosted" _ _ _ Erec)
             as [H|[(b0 & [=] & _) _]]. by left.
Qed.

Lemma backup_retry_loop env cfg role :
  backup_safe (target cfg role) (fun b => b = true) (retry_loop env cfg role).
Proof.
  unfold retry_loop. apply backup_for_attempts; [|apply recovery_backup_safe].
  intros a. destruct role; [apply backup_gke_attempt | apply backup_hosted_attempt].
Qed.

(** Lines 67-70 and 149-152 write at most the backup name of the moment. *)
Lemma backup_written_only env path (k : M bool) s :
  exists s',
    (ex <- path_exists path ;;
     (if ex then
        backup <- _create_backup env path ;;
        log Info ("Backed up existing kubeconfig to " +:+ default "None" backup)
      else ret tt) ;;;
     k) s = k s' /\
    forall p, p <> backup_name path (now (world s)) ->
      files (world s') !! p = files (world s) !! p.
Proof.
  unfold bind at 1, path_exists.
  destruct (bool_decide (is_Some (files (world s) !! path))).
  - destruct (create_backup_outcome env path s) as (b & s' & Hb & Hfr & _).
    unfold bind at 1, bind at 1. rewrite Hb. eexists. split; [done|]. exact Hfr.
  - exists s. by split.
Qed.

Lemma backup_acquire env cfg role s r s' b :
  acquire env cfg role s = (r, s') ->
  is_backup_of (target cfg role) b = true ->
  b <> backup_name (target cfg role) (now (world s)) ->
  files (world s') !! b = files (world s) !! b \/
  (r = Ok true /\ files (world s') !! b = None /\
   files (world s') !! target cfg role = files (world s) !! b).
Proof.
  intros Hrun Hb Hbn.
  assert (acquire env cfg role s =
          bind (_ensure_directory_exists env (target cfg role))
            (fun dir_ok => if negb dir_ok then ret false else
               ex <- path_exists (target cfg role) ;;
               (if ex then
                  backup <- _create_backup env (target cfg role) ;;
                  log Info ("Backed up existing kubeconfig to " +:+ default "None" backup)
                else ret tt) ;;;
               retry_loop env cfg role) s) as Hacq by (by destruct role).
  rewrite Hacq in Hrun. unfold bind at 1 in Hrun.
  destruct (_ensure_directory_exists env (target cfg role) s) as [[dir_ok|e] s1] eqn:Hens.
  2:{ injection Hrun as <- <-. left.
      by apply (spares_ensure_directory env (target cfg role) _ _ _ _ Hens). }
  assert (files (world s1) = files (world s) /\
          (dir_ok = true -> now (world s1) = now (world s))) as [Hf1 Hn1].
  { destruct (dirs (world s) !! parent (target cfg role)) as [m|] eqn:Hd;
      [|destruct (io_error env (world s) (OpMkdir (parent (target cfg role)))) eqn:Hio].
    1,3: destruct (ensure_directory_ok env (target cfg role) s) as (sx & Hx & ? & ? & _);
         [by (left + right) | rewrite Hx in Hens; by injection Hens as <- <-].
    rewrite ensure_directory_fails in Hens by done. by injection Hens as <- <-. }
  destruct dir_ok; cbn [negb] in Hrun.
  2:{ injection Hrun as <- <-. left. by rewrite Hf1. }
  destruct (backup_written_only env (target cfg role) (retry_loop env cfg role) s1)
    as (s2 & Hstep & Hfr).
  rewrite Hstep in Hrun. rewrite Hn1 in Hfr by done.
  specialize (Hfr b Hbn). rewrite Hf1 in Hfr.
  destruct (backup_retry_loop env cfg role _ _ _ Hrun) as [H|[(b0 & -> & ->) H]].
  - left. by rewrite (H b Hb).
  - destruct (H b Hb) as [H1|[H1 H2]]; [left; congruence|].
    right. split; [done|]. split; [done|]. congruence.
Qed.

(** X15. No backup is lost.  Through a call of [create_gke_kubeconfig] or
    [create_hosted_kubeconfig], every file [{target}.backup.*] other than
    the one the call itself may write, [{target}.backup.{now}], either is
    afterwards exactly what it was before (present or absent), or the call
    has returned [True] after recovery moved that backup onto the target:
    it is gone from its backup name and the target is that very file.
    Failed calls and successful attempts consume no backup. *)
Theorem backups_kept_or_reinstated env cfg role force s b :
  is_backup_of (target cfg role) b = true ->
  b <> backup_name (target cfg role) (now (world s)) ->
  let run := create env cfg role force s in
  files (world run.2) !! b = files (world s) !! b \/
  (run.1 = Ok true /\ files (world run.2) !! b = None /\
   files (world run.2) !! target cfg role = files (world s) !! b).
Proof.
  intros Hb Hbn. cbv zeta.
  destruct (create_cases env cfg role force s)
    as [(s1 & -> & [Hw _] & _)|(s2 & -> & [Hw2 _])].
  - left. cbn. by rewrite Hw.
  - destruct (acquire env cfg role s2) as [r s'] eqn:Hrun. cbn [fst snd].
    rewrite <- Hw2. rewrite <- Hw2 in Hbn. by eapply backup_acquire.
Qed.

Lemma backups_kept_or_reinstated_witness :
  let env := toy_env always_up writes_nothing no_io_error in
  let b := "/tmp/kubeconfig-gke.backup.1" in
  let run := create_gke_kubeconfig env toy_cfg true three_backups in
  files (world run.2) !! b = files (world three_backups) !! b \/
  (run.1 = Ok true /\ files (world run.2) !! b = None /\
   files (world run.2) !! "/tmp/kubeconfig-gke" = files (world three_backups) !! b).
Proof.
  apply (backups_kept_or_reinstated (toy_env always_up writes_nothing no_io_error)
           toy_cfg Gke true three_backups "/tmp/kubeconfig-gke.backup.1").
  - vm_compute. reflexivity.
  - vm_compute. discriminate.
Defined.

(** Two backups within one second share a name: the second overwrites the
    first. *)
Example same_second_backups_collide :
  let env := toy_env always_up writes_nothing no_io_error in
  let s := start (world_of [("/tmp/kubeconfig-gke", mkFile "newer" 384 99);
                            ("/tmp/kubeconfig-gke.backup.100", mkFile "older" 384 100)]
                   100) in
  let run := _create_backup env "/tmp/kubeconfig-gke" s in
  run.1 = Ok (Some "/tmp/kubeconfig-gke.backup.100") /\
  content <$> files (world run.2) !! "/tmp/kubeconfig-gke.backup.100" = Some "newer".
Proof. vm_compute. by repeat split. Qed.
